(** * YouTubeMP3Utility: tag mutation, completion detection, single flight

  A shallow embedding of the three core components of the repository:

  - [MetadataService] (src/services/metadata_service.py): validation,
    backup, tag rewriting and rollback of one MP3 file;
  - [DownloadMonitor] (src/services/download_monitor.py): the downloads
    folder probe, the watch start and stop, the event handler, the
    stabilisation loop, the wait for a new file, the recent files and the
    result of the monitoring;
  - [MainController] (src/controllers/main_controller.py): the submission
    of a workflow, the worker that runs it, its cancellation, and the
    monitoring and metadata stages.

  With them come the exceptions (src/exceptions.py), what the error
  handler decides from the class of an error
  (src/services/error_handler.py), and the data models
  (src/models/data_models.py).  A Python [str] is held as the bytes of
  its UTF-8 encoding.

  Python code that touches the disk is embedded in a state-and-exception
  monad over an explicit world.  The operating system and the mutagen
  library are primitives of that world; each fallible primitive consumes
  one entry of a fault plan, so that a statement quantified over all
  worlds is a statement about every injected failure. *)

From Stdlib Require Import ZArith NArith Lia Bool Ascii String List.
From Stdlib Require Strings.Byte.
From stdpp Require Import base option list strings gmap fin_maps pretty sorting.

Open Scope Z_scope.
Open Scope string_scope.
Open Scope list_scope.

(** ** Strings and bytes as Python sees them *)

Module Py.

(** A [str] is held as the bytes of its UTF-8 encoding, one [ascii] per
    byte.  In that encoding a byte below 128 is always a whole character,
    and a scan that starts at a character boundary and consumes whole
    characters stays on boundaries. *)

(** [str.lower] restricted to ASCII letters; the bytes of other
    characters are left as they are.  No character outside ASCII lowers
    to one of ['.'], ['m'], ['p'], ['3'], so suffix tests against [".mp3"]
    agree with Python's. *)
Definition ascii_lower (c : ascii) : ascii :=
  let n := nat_of_ascii c in
  if andb (Nat.leb 65 n) (Nat.leb n 90) then ascii_of_nat (n + 32) else c.

Fixpoint lower (s : string) : string :=
  match s with
  | EmptyString => EmptyString
  | String c s' => String (ascii_lower c) (lower s')
  end.

(** [s.endswith(suffix)] *)
Definition endswith (s suffix : string) : bool :=
  let n := String.length s in
  let k := String.length suffix in
  if Nat.leb k n then String.eqb (substring (n - k) k s) suffix else false.

(** [s.startswith(prefix)] *)
Definition startswith (s pre : string) : bool := String.prefix pre s.

(** The characters [str.strip()] removes are those of [str.isspace]:
    U+0009 to U+000D, U+001C to U+0020, U+0085, U+00A0, U+1680, U+2000 to
    U+200A, U+2028, U+2029, U+202F, U+205F and U+3000.  The first two ranges
    are encoded on one byte, U+0085 and U+00A0 on two, the others on three. *)
Definition is_whitespace (c : ascii) : bool :=
  let n := nat_of_ascii c in
  orb (andb (Nat.leb 9 n) (Nat.leb n 13)) (andb (Nat.leb 28 n) (Nat.leb n 32)).

(** U+0085 is [C2 85] and U+00A0 is [C2 A0]. *)
Definition is_whitespace2 (c1 c2 : ascii) : bool :=
  let n2 := nat_of_ascii c2 in
  andb (Nat.eqb (nat_of_ascii c1) 194) (orb (Nat.eqb n2 133) (Nat.eqb n2 160)).

(** U+1680 is [E1 9A 80]; U+2000 to U+200A are [E2 80 80] to [E2 80 8A];
    U+2028, U+2029 and U+202F are [E2 80 A8], [E2 80 A9] and [E2 80 AF];
    U+205F is [E2 81 9F]; U+3000 is [E3 80 80]. *)
Definition is_whitespace3 (c1 c2 c3 : ascii) : bool :=
  let n1 := nat_of_ascii c1 in
  let n2 := nat_of_ascii c2 in
  let n3 := nat_of_ascii c3 in
  orb (andb (Nat.eqb n1 225) (andb (Nat.eqb n2 154) (Nat.eqb n3 128)))
 (orb (andb (Nat.eqb n1 226) (andb (Nat.eqb n2 128)
        (orb (andb (Nat.leb 128 n3) (Nat.leb n3 138))
        (orb (Nat.eqb n3 168) (orb (Nat.eqb n3 169) (Nat.eqb n3 175))))))
 (orb (andb (Nat.eqb n1 226) (andb (Nat.eqb n2 129) (Nat.eqb n3 159)))
      (andb (Nat.eqb n1 227) (andb (Nat.eqb n2 128) (Nat.eqb n3 128))))).

(** [not s.strip()]: the string is empty once stripped, that is, every
    character of it is one that [strip] removes. *)
Fixpoint strip_is_empty (s : string) : bool :=
  match s with
  | EmptyString => true
  | String c1 s1 =>
      if is_whitespace c1 then strip_is_empty s1
      else
        match s1 with
        | EmptyString => false
        | String c2 s2 =>
            if is_whitespace2 c1 c2 then strip_is_empty s2
            else
              match s2 with
              | EmptyString => false
              | String c3 s3 =>
                  if is_whitespace3 c1 c2 c3 then strip_is_empty s3 else false
              end
        end
  end.

(** The twenty-nine characters listed above, each as its bytes. *)
Definition whitespace_characters : list string :=
  let one (a : nat) := String (ascii_of_nat a) "" in
  let two (a b : nat) := String (ascii_of_nat a) (one b) in
  let three (a b c : nat) := String (ascii_of_nat a) (two b c) in
  ((one <$> [9; 10; 11; 12; 13; 28; 29; 30; 31; 32]) ++
   [two 194 133; two 194 160; three 225 154 128] ++
   (three 226 128 <$> [128; 129; 130; 131; 132; 133; 134; 135; 136; 137; 138]) ++
   [three 226 128 168; three 226 128 169; three 226 128 175;
    three 226 129 159; three 227 128 128])%nat.

(** [sep.join(xs)] *)
Fixpoint join (sep : string) (xs : list string) : string :=
  match xs with
  | [] => ""
  | [x] => x
  | x :: rest => x +:+ sep +:+ join sep rest
  end.

(** [str(n)] for an integer. *)
Definition str_int (n : Z) : string := pretty n.

(** Byte strings. *)
Definition bytes := list Byte.byte.

Definition byte_val (b : Byte.byte) : N := Byte.to_N b.

Global Instance byte_eq_dec : EqDecision Byte.byte := Strings.Byte.byte_eq_dec.

Definition bytes_eqb (a b : bytes) : bool :=
  bool_decide (a = b).

(** [b'ID3'] and [b'\xff\xfb'] *)
Definition ID3_magic : bytes := [Byte.x49; Byte.x44; Byte.x33].
Definition FFFB_magic : bytes := [Byte.xff; Byte.xfb].

End Py.

(** ** Exceptions (src/exceptions.py) *)

Module Exceptions.

(** The exception classes that reach the modelled code.  The first four
    are built-in or library classes raised by the primitives; the others
    are the application's classes.  All are subclasses of [Exception]. *)
Inductive ExnClass :=
| OSError
| FileNotFoundError
| PermissionError
| MutagenError
| AttributeError
| OtherException
| YouTubeDownloaderError
| InputValidationError
| NetworkError
| ElementLocationError
| BrowserError
| DownloadError
| MetadataError.

Global Instance ExnClass_eq_dec : EqDecision ExnClass.
Proof. solve_decision. Defined.

(** [isinstance(e, OSError)]; [IOError] is an alias of [OSError]. *)
Definition is_OSError (c : ExnClass) : bool :=
  match c with
  | OSError | FileNotFoundError | PermissionError => true
  | _ => false
  end.

Definition is_MutagenError (c : ExnClass) : bool :=
  match c with MutagenError => true | _ => false end.

Record Exn := mkExn {
  exn_class : ExnClass;
  exn_message : string;            (* [str(e)], and [e.message] for the application's classes *)
  exn_error_code : option string;  (* [e.error_code] *)
  exn_file_path : option string    (* [e.file_path] *)
}.

Global Instance Exn_eq_dec : EqDecision Exn.
Proof. solve_decision. Defined.

Definition str (e : Exn) : string := exn_message e.

(** [MetadataError(message, file_path)] *)
Definition mkMetadataError (message : string) (file_path : option string) : Exn :=
  mkExn MetadataError message (Some "METADATA_ERROR") file_path.

(** [DownloadError(message, file_path)] *)
Definition mkDownloadError (message : string) (file_path : option string) : Exn :=
  mkExn DownloadError message (Some "DOWNLOAD_ERROR") file_path.

(** A built-in exception raised by a primitive. *)
Definition builtin (c : ExnClass) (message : string) : Exn :=
  mkExn c message None None.

Inductive Result (A : Type) :=
| Ok (a : A)
| Err (e : Exn).
Global Arguments Ok {A} a.
Global Arguments Err {A} e.

Definition is_Ok {A} (r : Result A) : bool :=
  match r with Ok _ => true | Err _ => false end.

(** Sequencing of computations that may raise: [x ← r; k]. *)
Global Instance Result_bind : MBind Result :=
  λ A B k r, match r with Ok a => k a | Err e => Err e end.

End Exceptions.
Import Exceptions.

(** ** What the error handler makes of an error (src/services/error_handler.py)

    Everything the handler decides about an error it decides from its
    class: the level of the log entry, and whether the user may retry. *)

Module ErrorHandler.

Inductive Level :=
| WARNING
| ERROR.

Global Instance Level_eq_dec : EqDecision Level.
Proof. solve_decision. Defined.

(** [ErrorHandler._log_error] (lines 93-108): [logger.warning] for the two
    classes named by [type(error).__name__], [logger.error] for the rest. *)
Definition log_level (e : Exn) : Level :=
  match exn_class e with
  | NetworkError | ElementLocationError => WARNING
  | _ => ERROR
  end.

(** [ErrorHandler.is_recoverable_error]; none of the three classes has a
    subclass. *)
Definition is_recoverable_error (e : Exn) : bool :=
  match exn_class e with
  | NetworkError | ElementLocationError | DownloadError => true
  | _ => false
  end.

End ErrorHandler.


(** ** Data models (src/models/data_models.py) *)

Module DataModels.

(** [MetadataInfo]: the caller's four fields and the original file name. *)
Record MetadataInfo := mkMetadataInfo {
  artist : string;
  title : string;
  album : string;
  track_number : Z;
  original_filename : string
}.

(** [MetadataInfo.validate]: the list of error messages, empty when valid. *)
Definition validate (m : MetadataInfo) : list string :=
  (if Py.strip_is_empty (artist m) then ["Artist cannot be empty."] else []) ++
  (if Py.strip_is_empty (title m) then ["Title cannot be empty."] else []) ++
  (if Py.strip_is_empty (album m) then ["Album cannot be empty."] else []) ++
  (if Py.strip_is_empty (original_filename m)
   then ["Original filename cannot be empty."] else []) ++
  (if Z.leb (track_number m) 0
   then ["Track number must be a positive integer."] else []).

(** [UserInput]: what the form collects. *)
Record UserInput := mkUserInput {
  youtube_url : string;
  input_artist : string;
  input_title : string;
  input_album : string;
  input_track_number : Z
}.

(** [DownloadResult]; [download_time] is a [datetime], in microseconds. *)
Record DownloadResult := mkDownloadResult {
  success : bool;
  file_path : option string;
  error_message : option string;
  download_time : Z
}.

(** An optional string used as a condition: true when given and not empty. *)
Definition given (s : option string) : bool :=
  match s with
  | Some x => negb (String.eqb x "")
  | None => false
  end.

(** [DownloadResult.validate].  [download_time] is a [datetime] by its
    type, so the third check (lines 131-133) adds nothing. *)
Definition DownloadResult_validate (r : DownloadResult) : list string :=
  (if andb (success r) (negb (given (file_path r)))
   then ["Successful download must have a file path."] else []) ++
  (if andb (negb (success r)) (negb (given (error_message r)))
   then ["Failed download must have an error message."] else []).

(** [MetadataInfo.to_id3_dict] *)
Definition to_id3_dict (m : MetadataInfo) : gmap string string :=
  {[ "TPE1" := artist m; "TIT2" := title m; "TALB" := album m;
     "TRCK" := Py.str_int (track_number m) ]}.

End DataModels.

(** ** The world of the metadata service *)

Module World.

(** An ID3 frame as the service uses it: only [str(frame)] is observed.  A
    text frame built as [TPE1(encoding=3, text=x)] prints as [x]; for any
    other frame [str] gives a string or raises. *)
Inductive Frame :=
| TextFrame (encoding : Z) (text : string)
| OtherFrame (repr : Result string).

Definition frame_str (f : Frame) : Result string :=
  match f with
  | TextFrame _ text => Ok text
  | OtherFrame r => r
  end.

(** What [MP3(path)] gives: [audio_file.info] (with [info.length], of
    which only the sign is used, here an integer of milliseconds) and
    [audio_file.tags], a dictionary keyed by frame id. *)
Record Audio := mkAudio {
  info : option Z;
  tags : option (gmap string Frame)
}.

(** A file on disk: its bytes, and what mutagen makes of them. *)
Record FileData := mkFileData {
  raw : Py.bytes;
  media : Result Audio
}.

(** Writes to the disk attempted by the service, in order. *)
Inductive Event :=
| Copied (src dst : string)
| Saved (path : string)
| Removed (path : string)
| Moved (src dst : string).

Global Instance Event_eq_dec : EqDecision Event.
Proof. solve_decision. Defined.

(** The outcome the environment chooses for one fallible primitive. *)
Inductive Fault :=
| NoFault
| Raises (e : Exn)
    (* the primitive raises [e] and leaves the disk as it was *)
| RaisesAfterWriting (d : FileData) (e : Exn)
    (* a writing primitive raises [e] having left [d] at its destination *)
| Truncates (n : nat) (m : Result Audio).
    (* a copy returns normally having written only the first [n] bytes *)

Record World := mkWorld {
  files : gmap string FileData;
  disk_free : Z;                        (* [shutil.disk_usage(dir).free] *)
  clock : Z;                            (* [int(time.time())] *)
  mutagen_render : Audio → Py.bytes → Py.bytes;
                                        (* the bytes [save()] writes *)
  plan : list Fault;                    (* faults still to be injected *)
  error_history : list (Exn * string);  (* [error_handler.error_history] *)
  trace : list Event                    (* writes attempted so far *)
}.

Definition with_files (fs : gmap string FileData) (w : World) : World :=
  mkWorld fs (disk_free w) (clock w) (mutagen_render w) (plan w)
          (error_history w) (trace w).

Definition with_plan (p : list Fault) (w : World) : World :=
  mkWorld (files w) (disk_free w) (clock w) (mutagen_render w) p
          (error_history w) (trace w).

Definition with_error_history (h : list (Exn * string)) (w : World) : World :=
  mkWorld (files w) (disk_free w) (clock w) (mutagen_render w) (plan w)
          h (trace w).

Definition with_trace (t : list Event) (w : World) : World :=
  mkWorld (files w) (disk_free w) (clock w) (mutagen_render w) (plan w)
          (error_history w) t.

(** *** The state-and-exception monad *)

Definition M (A : Type) : Type := World → Result A * World.

Definition ret {A} (a : A) : M A := λ w, (Ok a, w).

Definition raise {A} (e : Exn) : M A := λ w, (Err e, w).

Definition bind {A B} (m : M A) (k : A → M B) : M B :=
  λ w, match m w with
       | (Ok a, w') => k a w'
       | (Err e, w') => (Err e, w')
       end.

(** A computation that touches nothing. *)
Definition lift {A} (r : Result A) : M A := λ w, (r, w).

(** [try: m  except Exception as e: h e] *)
Definition try_except {A} (m : M A) (h : Exn → M A) : M A :=
  λ w, match m w with
       | (Ok a, w') => (Ok a, w')
       | (Err e, w') => h e w'
       end.

Declare Scope py_scope.
Delimit Scope py_scope with py.
Notation "'let*' x ':=' m 'in' k" := (bind m (λ x, k))
  (at level 10, x pattern, m at level 100, k at level 200) : py_scope.
Notation "'exec' m 'in' k" := (bind m (λ _, k))
  (at level 10, m at level 100, k at level 200) : py_scope.
Open Scope py_scope.

(** *** Primitives *)

(** The next entry of the fault plan; an exhausted plan injects nothing. *)
Definition next_fault : M Fault :=
  λ w, match plan w with
       | [] => (Ok NoFault, w)
       | f :: rest => (Ok f, with_plan rest w)
       end.

Definition emit (ev : Event) : M unit :=
  λ w, (Ok tt, with_trace (trace w ++ [ev]) w).

Definition write_file (path : string) (d : FileData) : M unit :=
  λ w, (Ok tt, with_files (<[path := d]> (files w)) w).

Definition delete_file (path : string) : M unit :=
  λ w, (Ok tt, with_files (delete path (files w)) w).

Definition lookup_file (path : string) : M (option FileData) :=
  λ w, (Ok (files w !! path), w).

(** [self.error_handler.handle_error(error, context)]: the service's handler
    has no GUI callback; it logs and records the error. *)
Definition handle_error (error : Exn) (context : string) : M unit :=
  λ w, (Ok tt, with_error_history (error_history w ++ [(error, context)]) w).

(** [os.path.exists(path)]: never raises. *)
Definition os_path_exists (path : string) : M bool :=
  let* d := lookup_file path in ret (bool_decide (is_Some d)).

Definition no_such_file (path : string) : Exn :=
  builtin FileNotFoundError ("[Errno 2] No such file or directory: '" +:+ path +:+ "'").

(** [os.path.getsize(path)] *)
Definition os_path_getsize (path : string) : M Z :=
  let* f := next_fault in
  let* d := lookup_file path in
  match f, d with
  | Raises e, _ => raise e
  | _, None => raise (no_such_file path)
  | _, Some fd => ret (Z.of_nat (length (raw fd)))
  end.

(** [MP3(path)] and [MP3(path, ID3=ID3)] *)
Definition MP3 (path : string) : M Audio :=
  let* f := next_fault in
  let* d := lookup_file path in
  match f, d with
  | Raises e, _ => raise e
  | _, None => raise (builtin MutagenError (str (no_such_file path)))
  | _, Some fd =>
      match media fd with
      | Ok a => ret a
      | Err e => raise e
      end
  end.

(** [with open(path, 'rb') as f: f.read(n)] *)
Definition open_read (path : string) (n : nat) : M Py.bytes :=
  let* f := next_fault in
  let* d := lookup_file path in
  match f, d with
  | Raises e, _ => raise e
  | _, None => raise (no_such_file path)
  | _, Some fd => ret (take n (raw fd))
  end.

(** [shutil.disk_usage(directory).free] *)
Definition shutil_disk_usage_free : M Z :=
  let* f := next_fault in
  match f with
  | Raises e => raise e
  | _ => λ w, (Ok (disk_free w), w)
  end.

(** [int(time.time())] *)
Definition time_time : M Z := λ w, (Ok (clock w), w).

(** [shutil.copy2(src, dst)] *)
Definition shutil_copy2 (src dst : string) : M unit :=
  exec emit (Copied src dst) in
  let* f := next_fault in
  let* d := lookup_file src in
  match f, d with
  | Raises e, _ => raise e
  | RaisesAfterWriting part e, _ => exec write_file dst part in raise e
  | _, None => raise (no_such_file src)
  | Truncates n m, Some fd =>
      if Nat.ltb n (length (raw fd))
      then write_file dst (mkFileData (take n (raw fd)) m)
      else write_file dst fd
  | NoFault, Some fd => write_file dst fd
  end.

(** [audio_file.save()] for an [audio_file] loaded from [path].  What is
    saved is what a later [MP3(path)] reads back: the file holds the bytes
    mutagen renders, and parses to the saved audio.  A fault may make the
    call raise, before or after part of the file has been overwritten. *)
Definition mutagen_save (audio : Audio) (path : string) : M unit :=
  exec emit (Saved path) in
  let* f := next_fault in
  let* d := lookup_file path in
  match f, d with
  | Raises e, _ => raise e
  | RaisesAfterWriting part e, _ => exec write_file path part in raise e
  | _, None => raise (builtin MutagenError (str (no_such_file path)))
  | _, Some fd =>
      λ w, write_file path
             (mkFileData (mutagen_render w audio (raw fd)) (Ok audio)) w
  end.

(** [os.remove(path)] *)
Definition os_remove (path : string) : M unit :=
  exec emit (Removed path) in
  let* f := next_fault in
  let* d := lookup_file path in
  match f, d with
  | Raises e, _ => raise e
  | _, None => raise (no_such_file path)
  | _, Some _ => delete_file path
  end.

(** [shutil.move(src, dst)]: [dst] receives the content of [src], which
    then disappears. *)
Definition shutil_move (src dst : string) : M unit :=
  exec emit (Moved src dst) in
  let* f := next_fault in
  let* d := lookup_file src in
  match f, d with
  | Raises e, _ => raise e
  | RaisesAfterWriting part e, _ => exec write_file dst part in raise e
  | _, None => raise (no_such_file src)
  | _, Some fd => exec write_file dst fd in delete_file src
  end.

End World.

(** ** Relations between the world before and after a computation *)

Module Frames.
Import World.

(** A computation keeps a relation between the worlds before and after. *)
Definition keeps (R : World → World → Prop) {A} (m : M A) : Prop :=
  ∀ w r w', m w = (r, w') → R w w'.

(** The disk, the clock and the trace of writes are the same; only the
    fault plan and the error history may differ. *)
Definition same_disk (w w' : World) : Prop :=
  files w' = files w ∧ trace w' = trace w ∧ disk_free w' = disk_free w ∧
  clock w' = clock w ∧ mutagen_render w' = mutagen_render w.

(** The error history only grows. *)
Definition history_grows (w w' : World) : Prop :=
  ∃ more, error_history w' = error_history w ++ more.

(** The trace of writes only grows. *)
Definition trace_grows (w w' : World) : Prop :=
  ∃ more, trace w' = trace w ++ more.

End Frames.

(** ** The metadata service (src/services/metadata_service.py) *)

Module MetadataService.
Import World.

(** The pattern shared by every failure site of the service:
    [self.error_handler.handle_error(MetadataError(msg, path), ctx)]
    followed by [raise MetadataError(msg, path)]. *)
Definition report_and_raise {A} (msg path context : string) : M A :=
  exec handle_error (mkMetadataError msg (Some path)) context in
  raise (mkMetadataError msg (Some path)).

(** [header[:3] == b'ID3' or (len(header) >= 2 and header[0] == 0xFF and
    (header[1] & 0xE0) == 0xE0)] *)
Definition header_has_signature (header : Py.bytes) : bool :=
  orb (Py.bytes_eqb (take 3 header) Py.ID3_magic)
      (match header with
       | b0 :: b1 :: _ =>
           andb (N.eqb (Py.byte_val b0) 255)
                (N.eqb (N.land (Py.byte_val b1) 224) 224)
       | _ => false
       end).

(** The [try] block of [validate_mp3_file] (lines 221-246). *)
Definition validate_checks (file_path : string) : M bool :=
  let* file_size := os_path_getsize file_path in
  if Z.ltb file_size 1024 then ret false else
  let* audio_file := MP3 file_path in
  match info audio_file with
  | None => ret false
  | Some length =>
      if Z.leb length 0 then ret false else
      let* header := open_read file_path 10 in
      if andb (Nat.leb 3 (List.length header))
              (negb (header_has_signature header))
      then ret false
      else ret true
  end.

(** [MetadataService.validate_mp3_file] *)
Definition validate_mp3_file (file_path : string) : M bool :=
  let* present := os_path_exists file_path in
  if negb present then ret false else
  if negb (Py.endswith (Py.lower file_path) ".mp3") then ret false else
  try_except (validate_checks file_path)
    (λ e, exec handle_error
                 (mkMetadataError ("MP3 validation failed: " +:+ str e)
                                  (Some file_path))
                 "validate_mp3_file" in
          ret false).

(** The four frame ids the user's fields are written to. *)
Definition user_keys : list string := ["TPE1"; "TIT2"; "TALB"; "TRCK"].

(** [if key in tags: metadata[key] = str(tags[key])] *)
Definition read_key (tags : gmap string Frame) (key : string)
    (metadata : gmap string string) : Result (gmap string string) :=
  match tags !! key with
  | None => Ok metadata
  | Some f =>
      match frame_str f with
      | Ok s => Ok (<[key := s]> metadata)
      | Err e => Err e
      end
  end.

(** The loop of lines 85-91: every tag outside the four user keys is kept
    as [str(tag)]; a tag whose [str] raises is skipped. *)
Definition other_tags (tags : gmap string Frame) : gmap string string :=
  omap (λ f, match frame_str f with Ok s => Some s | Err _ => None end)
       (filter (λ kv, kv.1 ∉ user_keys) tags).

(** Lines 64-93: the dictionary built from [audio_file.tags]. *)
Definition metadata_of_tags (tags : option (gmap string Frame))
    : Result (gmap string string) :=
  match tags with
  | None => Ok ∅
  | Some t =>
      if bool_decide (t = ∅) then Ok ∅ else
      m1 ← read_key t "TPE1" ∅ ;
      m2 ← read_key t "TIT2" m1 ;
      m3 ← read_key t "TALB" m2 ;
      m4 ← read_key t "TRCK" m3 ;
      Ok (m4 ∪ other_tags t)
  end.

(** The [try] block of [read_metadata] (lines 61-93). *)
Definition read_tags (file_path : string) : M (gmap string string) :=
  let* audio_file := MP3 file_path in
  lift (metadata_of_tags (tags audio_file)).

(** [MetadataService.read_metadata] *)
Definition read_metadata (file_path : string) : M (gmap string string) :=
  let* present := os_path_exists file_path in
  if negb present
  then report_and_raise ("File not found: " +:+ file_path) file_path "read_metadata"
  else
  let* valid := validate_mp3_file file_path in
  if negb valid
  then report_and_raise ("Invalid MP3 file: " +:+ file_path) file_path "read_metadata"
  else
  try_except (read_tags file_path)
    (λ e, if is_MutagenError (exn_class e)
          then report_and_raise
                 ("Error reading metadata from " +:+ file_path +:+ ": " +:+ str e)
                 file_path "read_metadata"
          else report_and_raise
                 ("Unexpected error reading metadata from " +:+ file_path +:+ ": " +:+ str e)
                 file_path "read_metadata").

(** [str(file_path_obj.with_suffix(f"{suffix}.backup.{timestamp}"))]: the
    suffix is replaced by itself followed by [.backup.<timestamp>], so the
    result is the path followed by that text.  Paths are taken in the
    normal form [pathlib] prints. *)
Definition backup_path_of (file_path : string) (timestamp : Z) : string :=
  file_path +:+ ".backup." +:+ Py.str_int timestamp.

(** The [try] block of [backup_original] (lines 281-298). *)
Definition backup_checks (file_path backup_path : string) : M string :=
  let* file_size := os_path_getsize file_path in
  let* available_space := shutil_disk_usage_free in
  if Z.ltb available_space (file_size * 2)
  then report_and_raise
         ("Insufficient disk space to create backup. Need "
            +:+ Py.str_int (file_size * 2) +:+ " bytes, have "
            +:+ Py.str_int available_space +:+ " bytes.")
         file_path "backup_original"
  else
  exec shutil_copy2 file_path backup_path in
  let* created := os_path_exists backup_path in
  let* mismatch :=
    (if negb created then ret true
     else let* backup_size := os_path_getsize backup_path in
          ret (negb (Z.eqb backup_size file_size))) in
  if mismatch
  then report_and_raise ("Backup verification failed for " +:+ file_path)
                        file_path "backup_original"
  else ret backup_path.

(** [MetadataService.backup_original] *)
Definition backup_original (file_path : string) : M string :=
  let* present := os_path_exists file_path in
  if negb present
  then report_and_raise ("Cannot backup non-existent file: " +:+ file_path)
                        file_path "backup_original"
  else
  let* timestamp := time_time in
  let backup_path := backup_path_of file_path timestamp in
  try_except (backup_checks file_path backup_path)
    (λ e, if is_OSError (exn_class e)
          then report_and_raise
                 ("Failed to create backup of " +:+ file_path +:+ ": " +:+ str e)
                 file_path "backup_original"
          else report_and_raise
                 ("Unexpected error creating backup of " +:+ file_path +:+ ": " +:+ str e)
                 file_path "backup_original").

(** Lines 158-161: the four assignments [audio_file.tags[key] = ...]. *)
Definition set_user_tags (m : DataModels.MetadataInfo)
    (t : gmap string Frame) : gmap string Frame :=
  <["TRCK" := TextFrame 3 (Py.str_int (DataModels.track_number m))]>
    (<["TALB" := TextFrame 3 (DataModels.album m)]>
       (<["TIT2" := TextFrame 3 (DataModels.title m)]>
          (<["TPE1" := TextFrame 3 (DataModels.artist m)]> t))).

(** Lines 164-173: the loop over [existing_metadata.items()].  Each of its
    branches ends in [continue], so it leaves the tags as they are. *)
Definition preserve_existing (existing_metadata : gmap string string)
    (t : gmap string Frame) : gmap string Frame :=
  map_fold (λ _ _ acc, acc) t existing_metadata.

(** A string used as a condition: true when not empty. *)
Definition truthy (s : string) : bool := negb (String.eqb s "").

(** [backup_path and os.path.exists(backup_path)] *)
Definition backup_present (backup_path : string) : M bool :=
  if truthy backup_path then os_path_exists backup_path else ret false.

(** The second [try] block of [apply_metadata] (lines 147-186). *)
Definition apply_changes (file_path : string) (metadata_info : DataModels.MetadataInfo)
    (backup_path : string) : M bool :=
  let* existing_metadata := read_metadata file_path in
  let* audio_file := MP3 file_path in
  let t0 := match tags audio_file with None => ∅ | Some t => t end in
  let t1 := set_user_tags metadata_info t0 in
  let t2 := preserve_existing existing_metadata t1 in
  exec mutagen_save (mkAudio (info audio_file) (Some t2)) file_path in
  let* valid := validate_mp3_file file_path in
  if negb valid
  then raise (mkMetadataError "File became invalid after metadata application" None)
  else
  let* present := backup_present backup_path in
  exec (if present then os_remove backup_path else ret tt) in
  ret true.

Definition critical_message (e restore_error : Exn) : string :=
  "Critical error: Failed to restore backup after metadata failure. Original error: "
    +:+ str e +:+ ", Restore error: " +:+ str restore_error.

Definition failure_message (file_path : string) (e : Exn) : string :=
  "Error applying metadata to " +:+ file_path +:+ ": " +:+ str e.

(** The service raises one class, [MetadataError], for every failure; what
    distinguishes one failure from another is the text its message starts
    with. *)
Definition backup_failed (e : Exn) : bool :=
  Py.startswith (exn_message e) "Failed to create backup before metadata modification: ".

Definition mutation_failed (e : Exn) : bool :=
  Py.startswith (exn_message e) "Error applying metadata to ".

Definition restore_failed (e : Exn) : bool :=
  Py.startswith (exn_message e)
    "Critical error: Failed to restore backup after metadata failure.".

(** The handler of that block (lines 188-200). *)
Definition restore_backup (file_path backup_path : string) (e : Exn) : M bool :=
  let* present := backup_present backup_path in
  exec (if present
        then try_except (shutil_move backup_path file_path)
               (λ restore_error,
                  report_and_raise (critical_message e restore_error)
                                   file_path "apply_metadata")
        else ret tt) in
  report_and_raise (failure_message file_path e) file_path "apply_metadata".

(** [MetadataService.apply_metadata] *)
Definition apply_metadata (file_path : string)
    (metadata_info : DataModels.MetadataInfo) : M bool :=
  let* present := os_path_exists file_path in
  if negb present
  then report_and_raise ("File not found: " +:+ file_path) file_path "apply_metadata"
  else
  let* valid := validate_mp3_file file_path in
  if negb valid
  then report_and_raise ("Invalid MP3 file: " +:+ file_path) file_path "apply_metadata"
  else
  let validation_errors := DataModels.validate metadata_info in
  if negb (bool_decide (validation_errors = []))
  then report_and_raise ("Invalid metadata: " +:+ Py.join ", " validation_errors)
                        file_path "apply_metadata"
  else
  let* backup_path :=
    try_except (backup_original file_path)
      (λ e, report_and_raise
              ("Failed to create backup before metadata modification: " +:+ str e)
              file_path "apply_metadata") in
  try_except (apply_changes file_path metadata_info backup_path)
             (restore_backup file_path backup_path).

End MetadataService.

(** ** The download monitor (src/services/download_monitor.py) *)

Module DownloadMonitor.

(** The handler's [error_history], as (error, context) pairs. *)
Definition Log := list (Exn * string).

(** [self.error_handler.handle_error(DownloadError(msg, path), context)] *)
Definition handle_error (msg : string) (file_path : option string)
    (context : string) (h : Log) : Log :=
  (h ++ [(mkDownloadError msg file_path, context)])%list.

(** *** The stabilisation loop *)

(** What the file system answers at one attempt of the loop:
    [os.path.getsize(file_path)], and [open(file_path, 'rb')] followed by
    [read(1024)]. *)
Inductive SizeProbe :=
| SizeIs (n : Z)
| SizeRaises (e : Exn).

Inductive HeaderProbe :=
| HeaderIs (header : Py.bytes)
| HeaderRaises (e : Exn).

Record Poll := mkPoll {
  poll_size : SizeProbe;
  poll_header : HeaderProbe
}.

(** [len(header) >= 3 and (header[:3] == b'ID3' or header[:2] == b'\xff\xfb')] *)
Definition header_accepted (header : Py.bytes) : bool :=
  andb (Nat.leb 3 (length header))
       (orb (Py.bytes_eqb (take 3 header) Py.ID3_magic)
            (Py.bytes_eqb (take 2 header) Py.FFFB_magic)).

(** How one iteration of the [for] loop ends: at [time.sleep(1)] with the
    two loop variables, or at a [return]. *)
Inductive Step :=
| Continue (stable_count : nat) (last_size : Z)
| Return (b : bool).

Definition unexpected_error (file_path : string) (e : Exn) (h : Log) : Log :=
  handle_error ("Unexpected error waiting for file completion: " +:+ str e)
               (Some file_path) "wait_for_completion" h.

(** The body of the loop (lines 273-306) at attempt [attempt]. *)
Definition poll_once (completion_timeout attempt : nat) (file_path : string)
    (ob : Poll) (stable_count : nat) (last_size : Z) (h : Log) : Step * Log :=
  match poll_size ob with
  | SizeRaises e =>
      if is_OSError (exn_class e)
      then (Return false,
            handle_error ("File system error while waiting for completion: " +:+ str e)
                         (Some file_path) "wait_for_completion" h)
      else (Return false, unexpected_error file_path e h)
  | SizeIs current_size =>
      if andb (Z.eqb current_size last_size) (Z.ltb 0 current_size)
      then
        let stable_count := S stable_count in
        if Nat.leb 3 stable_count
        then
          match poll_header ob with
          | HeaderIs header =>
              if header_accepted header
              then (Return true, h)
              else (Continue 0 last_size, h)
          | HeaderRaises e =>
              if is_OSError (exn_class e)
              then (Continue stable_count last_size,
                    if Nat.eqb attempt (completion_timeout - 1)
                    then handle_error
                           ("File access error after "
                              +:+ pretty completion_timeout +:+ " attempts: " +:+ str e)
                           (Some file_path) "wait_for_completion" h
                    else h)
              else (Return false, unexpected_error file_path e h)
          end
        else (Continue stable_count last_size, h)
      else (Continue 0 current_size, h)
  end.

(** The outcome of [wait_for_completion]: the boolean it returns, the
    seconds it slept, and the handler's history. *)
Record Waited := mkWaited {
  stable : bool;
  slept : nat;
  history : Log
}.

(** [for attempt in range(self.completion_timeout)], from attempt [attempt]
    with [remaining] attempts left; [polls i] is what attempt [i] observes.
    One second is slept after every attempt that does not return. *)
Fixpoint poll_loop (completion_timeout : nat) (file_path : string)
    (polls : nat → Poll) (remaining attempt : nat)
    (stable_count : nat) (last_size : Z) (h : Log) : Waited :=
  match remaining with
  | O =>
      mkWaited false attempt
        (handle_error ("File did not stabilize within "
                         +:+ pretty completion_timeout +:+ " seconds")
                      (Some file_path) "wait_for_completion" h)
  | S remaining' =>
      match poll_once completion_timeout attempt file_path (polls attempt)
                      stable_count last_size h with
      | (Return b, h') => mkWaited b attempt h'
      | (Continue stable_count' last_size', h') =>
          poll_loop completion_timeout file_path polls remaining' (S attempt)
                    stable_count' last_size' h'
      end
  end.

(** [DownloadMonitor.wait_for_completion]; [present] is
    [os.path.exists(file_path)] at the call. *)
Definition wait_for_completion (completion_timeout : nat) (file_path : string)
    (present : bool) (polls : nat → Poll) (h : Log) : Waited :=
  if negb present then mkWaited false 0 h
  else poll_loop completion_timeout file_path polls completion_timeout 0 0 (-1) h.

(** *** The monitor object *)

(** An entry of [self.detected_files]. *)
Record FileInfo := mkFileInfo {
  path : string;
  detected_time : Z;
  completed : bool
}.

(** The watchdog observer held by the monitor. *)
Record Observer := mkObserver {
  watched : option string;   (* the directory passed to [schedule] *)
  started : bool
}.

Record Monitor := mkMonitor {
  downloads_path : string;
  observer : option Observer;
  event_handler : bool;               (* an [MP3FileHandler] is attached *)
  monitoring : bool;
  detected_files : list FileInfo;
  completion_timeout : nat;
  error_history : Log
}.

Definition with_history (h : Log) (m : Monitor) : Monitor :=
  mkMonitor (downloads_path m) (observer m) (event_handler m) (monitoring m)
            (detected_files m) (completion_timeout m) h.

Definition with_detected (fs : list FileInfo) (m : Monitor) : Monitor :=
  mkMonitor (downloads_path m) (observer m) (event_handler m) (monitoring m)
            fs (completion_timeout m) (error_history m).

(** *** The downloads folder *)

Record Dir := mkDir {
  is_dir : bool;
  readable : bool;    (* [os.access(path, os.R_OK)] *)
  writable : bool     (* files can be created in and removed from it *)
}.

(** File creations and removals performed by the write probe. *)
Inductive ProbeEvent :=
| Created (file : string)
| Deleted (file : string).

Record Host := mkHost {
  home : string;                   (* [os.path.expanduser("~")] *)
  user : string;                   (* [os.getenv("USER", "")] *)
  dirs : gmap string Dir;          (* the paths that exist *)
  entries : gset string;           (* files present in those directories *)
  observer_fault : option Exn;     (* what [schedule]/[start] raise, if anything *)
  probes : list ProbeEvent
}.

(** [os.path.join(a, b)] for a relative [b]. *)
Definition os_path_join (a b : string) : string :=
  if Py.endswith a "/" then a +:+ b else a +:+ "/" +:+ b.

(** [possible_paths] (lines 109-113); [~] expands to the home directory. *)
Definition possible_paths (host : Host) : list string :=
  [ home host +:+ "/Downloads";
    os_path_join (home host) "Downloads";
    "/Users/" +:+ user host +:+ "/Downloads" ].

(** Lines 119-126: create the marker file, write to it, remove it.  [Err]
    stands for the [OSError] caught by the inner handler. *)
Definition write_probe (host : Host) (path : string) : Result unit * Host :=
  let test_file := os_path_join path ".download_monitor_test" in
  match dirs host !! path with
  | Some d =>
      if writable d
      then (Ok tt,
            mkHost (home host) (user host) (dirs host)
                   (entries host ∖ {[test_file]}) (observer_fault host)
                   (probes host ++ [Created test_file; Deleted test_file]))
      else (Err (builtin PermissionError
                   ("[Errno 13] Permission denied: '" +:+ test_file +:+ "'")),
            host)
  | None => (Err (World.no_such_file test_file), host)
  end.

(** The loop of lines 115-128 over the candidate paths. *)
Fixpoint first_accessible (candidates : list string) (host : Host)
    : option string * Host :=
  match candidates with
  | [] => (None, host)
  | path :: rest =>
      match dirs host !! path with
      | Some d =>
          if is_dir d
          then match write_probe host path with
               | (Ok _, host') => (Some path, host')
               | (Err _, host') => first_accessible rest host'
               end
          else first_accessible rest host
      | None => first_accessible rest host
      end
  end.

(** [DownloadMonitor._get_downloads_path].  [error_handler] is the value of
    [self.error_handler] when the method runs: [None] while the attribute
    has not been assigned. *)
Definition _get_downloads_path (error_handler : option Log) (host : Host)
    : Result string * option Log * Host :=
  match first_accessible (possible_paths host) host with
  | (Some path, host') => (Ok path, error_handler, host')
  | (None, host') =>
      let error_msg :=
        "Could not locate or access macOS Downloads folder. Please check folder permissions." in
      match error_handler with
      | Some h =>
          (Err (mkDownloadError error_msg None),
           Some (handle_error error_msg None "downloads_path_detection" h), host')
      | None =>
          (Err (builtin AttributeError
                  "'DownloadMonitor' object has no attribute 'error_handler'"),
           None, host')
      end
  end.

(** [DownloadMonitor.__init__]: the path is looked up first (line 86), the
    error handler is assigned last (line 95). *)
Definition init (host : Host) : Result Monitor * Host :=
  match _get_downloads_path None host with
  | (Ok path, _, host') =>
      (Ok (mkMonitor path None false false [] 30 []), host')
  | (Err e, _, host') => (Err e, host')
  end.

(** [DownloadMonitor.start_monitoring] *)
Definition start_monitoring (host : Host) (m : Monitor) : Result bool * Monitor :=
  let failed (e : Exn) (m' : Monitor) :=
    let error_msg := "Error starting download monitoring: " +:+ str e in
    (Err (mkDownloadError error_msg None),
     with_history (handle_error error_msg None "start_monitoring" (error_history m')) m') in
  if monitoring m then (Ok true, m) else
  let accessible :=
    match dirs host !! downloads_path m with
    | Some d => readable d
    | None => false
    end in
  if negb accessible
  then
    let error_msg := "Downloads folder is not accessible: " +:+ downloads_path m in
    failed (mkDownloadError error_msg None)
           (with_history (handle_error error_msg None "start_monitoring"
                                       (error_history m)) m)
  else
    match observer_fault host with
    | Some e =>
        failed e (mkMonitor (downloads_path m) (Some (mkObserver None false)) true
                            false (detected_files m) (completion_timeout m)
                            (error_history m))
    | None =>
        (Ok true,
         mkMonitor (downloads_path m)
                   (Some (mkObserver (Some (downloads_path m)) true)) true
                   true (detected_files m) (completion_timeout m)
                   (error_history m))
    end.

(** *** Waiting for a new file *)

(** The file system over time (milliseconds), and the paths the observer
    hands to [_on_mp3_detected] while the waiting loop sleeps. *)
Record Env := mkEnv {
  exists_at : Z → string → bool;
  poll_at : Z → string → Poll;
  arrivals : nat → list string
}.

(** [DownloadMonitor._on_mp3_detected] at time [now]. *)
Definition _on_mp3_detected (now : Z) (file_path : string) (m : Monitor) : Monitor :=
  if bool_decide (file_path ∈ (path <$> detected_files m))
  then m
  else with_detected (detected_files m ++ [mkFileInfo file_path now false]) m.

(** [wait_for_completion(file_path)] called at time [now]: attempt [i]
    polls the file [i] seconds later. *)
Definition wait_at (env : Env) (now : Z) (file_path : string) (m : Monitor) : Waited :=
  wait_for_completion (completion_timeout m) file_path
    (exists_at env now file_path)
    (λ i, poll_at env (now + 1000 * Z.of_nat i) file_path)
    (error_history m).

(** The [for file_info in self.detected_files] loop (lines 234-239) over
    the entries not yet visited, [seen] being those already passed.  It
    gives the path returned, if any, the entries afterwards, the time and
    the handler's history. *)
Fixpoint scan (env : Env) (m : Monitor) (seen todo : list FileInfo)
    (now : Z) (h : Log) : option string * list FileInfo * Z * Log :=
  match todo with
  | [] => (None, seen, now, h)
  | file_info :: rest =>
      if completed file_info
      then scan env m (seen ++ [file_info]) rest now h
      else
        let w := wait_at env now (path file_info) (with_history h m) in
        let now' := now + 1000 * Z.of_nat (slept w) in
        if stable w
        then (Some (path file_info),
              seen ++ mkFileInfo (path file_info) (detected_time file_info) true :: rest,
              now', history w)
        else scan env m (seen ++ [file_info]) rest now' (history w)
  end.

(** The [while time.time() - start_time < timeout] loop (lines 231-246),
    at iteration [k] and time [now].  [None] when [fuel] iterations were
    not enough to leave the loop. *)
Fixpoint detect_loop (fuel : nat) (env : Env) (timeout start_time : Z)
    (k : nat) (now : Z) (m : Monitor) : option (option string * Monitor * Z) :=
  match fuel with
  | O => None
  | S fuel' =>
      if Z.ltb (now - start_time) (1000 * timeout)
      then
        match scan env m [] (detected_files m) now (error_history m) with
        | (Some file_path, fs, now', h) =>
            Some (Some file_path, with_history h (with_detected fs m), now')
        | (None, fs, now', h) =>
            let m1 := with_history h (with_detected fs m) in
            let m2 := foldl (λ acc p, _on_mp3_detected now' p acc) m1 (arrivals env k) in
            detect_loop fuel' env timeout start_time (S k) (now' + 500) m2
        end
      else
        Some (None,
              with_history
                (handle_error
                   ("Download timeout: No MP3 file detected within "
                      +:+ pretty timeout +:+ " seconds.")
                   None "detect_new_mp3" (error_history m)) m,
              now)
  end.

(** [DownloadMonitor.detect_new_mp3] called at time [now].  The loop raises
    nothing, so the handler of lines 248-251 has nothing to catch. *)
Definition detect_new_mp3 (fuel : nat) (env : Env) (now : Z) (timeout : Z)
    (m : Monitor) : option (Result (option string) * Monitor * Z) :=
  if negb (monitoring m)
  then
    let error_msg := "Download monitoring is not active. Call start_monitoring() first." in
    Some (Err (mkDownloadError error_msg None),
          with_history (handle_error error_msg None "detect_new_mp3" (error_history m)) m,
          now)
  else
    match detect_loop fuel env timeout now 0 now m with
    | Some (r, m', now') => Some (Ok r, m', now')
    | None => None
    end.



(** *** Stopping and cleaning up *)

(** What stopping the observer does: [observer.stop()] and
    [observer.join(timeout=5)] return, or one of them raises. *)
Inductive StopOutcome :=
| Stops
| StopRaises (e : Exn)
| JoinRaises (e : Exn).

(** [DownloadMonitor.stop_monitoring].  The handler of lines 190-192 prints
    the error and returns [False]. *)
Definition stop_monitoring (outcome : StopOutcome) (m : Monitor) : bool * Monitor :=
  match monitoring m, observer m with
  | true, Some ob =>
      match outcome with
      | Stops =>
          (true,
           mkMonitor (downloads_path m) None false false (detected_files m)
                     (completion_timeout m) (error_history m))
      | StopRaises _ => (false, m)
      | JoinRaises _ =>
          (false,
           mkMonitor (downloads_path m) (Some (mkObserver (watched ob) false))
                     (event_handler m) (monitoring m) (detected_files m)
                     (completion_timeout m) (error_history m))
      end
  | _, _ => (true, m)
  end.

(** [DownloadMonitor.cleanup] *)
Definition cleanup (outcome : StopOutcome) (m : Monitor) : Monitor :=
  with_detected [] (stop_monitoring outcome m).2.

(** *** Several downloads at once *)

(** The loop of [handle_concurrent_downloads] (lines 358-363) over the
    entries [todo], at time [now]: the paths completed, the entries
    afterwards, the time and the handler's history. *)
Fixpoint complete_each (env : Env) (m : Monitor) (todo : list FileInfo)
    (now : Z) (h : Log) : list string * list FileInfo * Z * Log :=
  match todo with
  | [] => ([], [], now, h)
  | file_info :: rest =>
      if completed file_info
      then
        let '(completed_files, fs, now', h') := complete_each env m rest now h in
        (completed_files, file_info :: fs, now', h')
      else
        let w := wait_at env now (path file_info) (with_history h m) in
        let '(completed_files, fs, now', h') :=
          complete_each env m rest (now + 1000 * Z.of_nat (slept w)) (history w) in
        if stable w
        then (path file_info :: completed_files,
              mkFileInfo (path file_info) (detected_time file_info) true :: fs,
              now', h')
        else (completed_files, file_info :: fs, now', h')
  end.

(** [DownloadMonitor.handle_concurrent_downloads] called at time [now].
    The lock is held throughout, so no file is announced meanwhile. *)
Definition handle_concurrent_downloads (env : Env) (now : Z) (m : Monitor)
    : list string * Monitor * Z :=
  let '(completed_files, fs, now', h) :=
    complete_each env m (detected_files m) now (error_history m) in
  (completed_files, with_history h (with_detected fs m), now').

(** *** Recent files *)

(** The downloads folder as [get_recent_mp3_files] sees it.  Times are in
    microseconds; the sort key is only compared. *)
Record Folder := mkFolder {
  listdir : Result (list string);   (* [os.listdir(self.downloads_path)] *)
  stat_ctime : string → Result Z;   (* [datetime.fromtimestamp(os.stat(p).st_ctime)] *)
  getctime : string → Result Z      (* [os.path.getctime(p)] *)
}.

(** The loop of lines 332-341 over the names listed. *)
Fixpoint recent_among (folder : Folder) (downloads_path : string)
    (cutoff_time : Z) (names : list string) : Result (list string) :=
  match names with
  | [] => Ok []
  | file_name :: rest =>
      if Py.endswith (Py.lower file_name) ".mp3"
      then
        let file_path := os_path_join downloads_path file_name in
        match stat_ctime folder file_path with
        | Ok creation_time =>
            recent_files ← recent_among folder downloads_path cutoff_time rest ;
            Ok (if Z.ltb cutoff_time creation_time
                then file_path :: recent_files
                else recent_files)
        | Err e =>
            if is_OSError (exn_class e)
            then recent_among folder downloads_path cutoff_time rest
            else Err e
        end
      else recent_among folder downloads_path cutoff_time rest
  end.

(** The keys [sorted] computes, one call of [key] per element, in order. *)
Fixpoint with_keys (key : string → Result Z) (xs : list string)
    : Result (list (Z * string)) :=
  match xs with
  | [] => Ok []
  | x :: rest =>
      k ← key x ;
      keyed ← with_keys key rest ;
      Ok ((k, x) :: keyed)
  end.

(** [sorted(..., reverse=True)] on the keyed elements: greatest key first,
    elements with equal keys in their original order. *)
Fixpoint insert_reverse (x : Z * string) (sorted : list (Z * string))
    : list (Z * string) :=
  match sorted with
  | [] => [x]
  | y :: rest =>
      if Z.leb y.1 x.1 then x :: y :: rest else y :: insert_reverse x rest
  end.

Fixpoint sorted_reverse (xs : list (Z * string)) : list (Z * string) :=
  match xs with
  | [] => []
  | x :: rest => insert_reverse x (sorted_reverse rest)
  end.

(** [DownloadMonitor.get_recent_mp3_files] called at time [now].  The
    handlers of lines 340 and 343 catch [OSError] only, and the sort of
    line 346 is outside them. *)
Definition get_recent_mp3_files (folder : Folder) (now : Z) (minutes : Z)
    (m : Monitor) : Result (list string) :=
  let cutoff_time := now - minutes * 60000000 in
  recent_files ←
    match listdir folder with
    | Ok names => recent_among folder (downloads_path m) cutoff_time names
    | Err e => if is_OSError (exn_class e) then Ok [] else Err e
    end ;
  keyed ← with_keys (getctime folder) recent_files ;
  Ok ((sorted_reverse keyed).*2).

(** *** The result of the monitoring *)

(** [DownloadMonitor.create_download_result] called at time [now];
    [present] is [os.path.exists]. *)
Definition create_download_result (present : string → bool) (now : Z)
    (file_path : option string) (error_message : option string)
    : DataModels.DownloadResult :=
  let success :=
    match file_path with
    | Some p => present p
    | None => false
    end in
  DataModels.mkDownloadResult success
    (if success then file_path else None)
    (if success then None else error_message)
    now.

(** *** The event handler (class [MP3FileHandler]) *)

Inductive EventClass :=
| FileCreatedEvent
| FileModifiedEvent
| DirCreatedEvent
| DirModifiedEvent
| OtherEvent.

Global Instance EventClass_eq_dec : EqDecision EventClass.
Proof. solve_decision. Defined.

Record FileSystemEvent := mkFileSystemEvent {
  event_class : EventClass;
  is_directory : bool;
  src_path : string
}.

Section Handler.

(** The handler holds [self.detected_files], a set of paths, and
    [self.callback], which acts on a state of the receiver's. *)
Context {Receiver : Type} (callback : string → Receiver → Receiver).

(** [MP3FileHandler.on_created] *)
Definition on_created (event : FileSystemEvent) (st : gset string * Receiver)
    : gset string * Receiver :=
  if andb (bool_decide (event_class event = FileCreatedEvent))
          (negb (is_directory event))
  then
    let file_path := src_path event in
    if andb (Py.endswith (Py.lower file_path) ".mp3")
            (negb (bool_decide (file_path ∈ st.1)))
    then ({[file_path]} ∪ st.1, callback file_path st.2)
    else st
  else st.

(** [MP3FileHandler.on_modified] called at time [now]; [stat] is what
    [datetime.fromtimestamp(os.stat(file_path).st_ctime)] gives.  Times are
    in microseconds. *)
Definition on_modified (stat : Result Z) (now : Z) (event : FileSystemEvent)
    (st : gset string * Receiver) : Result (gset string * Receiver) :=
  if andb (bool_decide (event_class event = FileModifiedEvent))
          (negb (is_directory event))
  then
    let file_path := src_path event in
    if andb (Py.endswith (Py.lower file_path) ".mp3")
            (negb (bool_decide (file_path ∈ st.1)))
    then
      match stat with
      | Ok creation_time =>
          if Z.ltb (now - creation_time) 300000000
          then Ok ({[file_path]} ∪ st.1, callback file_path st.2)
          else Ok st
      | Err e => if is_OSError (exn_class e) then Ok st else Err e
      end
    else Ok st
  else Ok st.

(** A call the observer makes on the handler. *)
Inductive HandlerCall :=
| OnCreated (event : FileSystemEvent)
| OnModified (stat : Result Z) (now : Z) (event : FileSystemEvent).

(** The handler after the call; a call that raises leaves it as it was. *)
Definition deliver (st : gset string * Receiver) (call : HandlerCall)
    : gset string * Receiver :=
  match call with
  | OnCreated event => on_created event st
  | OnModified stat now event =>
      match on_modified stat now event st with
      | Ok st' => st'
      | Err _ => st
      end
  end.

End Handler.

(** *** Calls on the monitor, in sequence *)

Inductive MonitorCall :=
| CallStart (host : Host)
| CallStop (outcome : StopOutcome)
| CallDetected (now : Z) (file_path : string)
| CallConcurrent (env : Env) (now : Z)
| CallCleanup (outcome : StopOutcome).

Definition call (m : Monitor) (c : MonitorCall) : Monitor :=
  match c with
  | CallStart host => (start_monitoring host m).2
  | CallStop outcome => (stop_monitoring outcome m).2
  | CallDetected now file_path => _on_mp3_detected now file_path m
  | CallConcurrent env now => (handle_concurrent_downloads env now m).1.2
  | CallCleanup outcome => cleanup outcome m
  end.

End DownloadMonitor.

(** ** The main controller (src/controllers/main_controller.py) *)

Module MainController.

(** The point a worker thread running [_execute_download_workflow] has
    reached.  A thread is [Spawned] between [processing_thread.start()] and
    its first statement. *)
Inductive Stage :=
| Spawned
| BrowserAutomation
| DownloadMonitoring
| MetadataApplication
| Cleanup
| Finished.

Global Instance Stage_eq_dec : EqDecision Stage.
Proof. solve_decision. Defined.

Record Controller := mkController {
  is_processing : bool;
  current_operation : option string;
  workers : list Stage;         (* the threads started so far *)
  remote_triggers : nat;        (* calls of [_execute_browser_automation] *)
  detector_starts : nat;        (* calls of [_execute_download_monitoring] *)
  metadata_applications : nat;  (* calls of [_execute_metadata_application] *)
  gui_errors : list string      (* messages given to [gui_controller.show_error] *)
}.

(** [MainController.__init__] *)
Definition init : Controller := mkController false None [] 0 0 0 [].

Definition already_running : string :=
  "A download is already in progress. Please wait for it to complete.".

(** [MainController._handle_download_request] *)
Definition _handle_download_request (c : Controller) : Controller :=
  if is_processing c
  then mkController (is_processing c) (current_operation c) (workers c)
                    (remote_triggers c) (detector_starts c) (metadata_applications c)
                    (gui_errors c ++ [already_running])
  else mkController (is_processing c) (current_operation c)
                    (workers c ++ [Spawned])
                    (remote_triggers c) (detector_starts c)
                    (metadata_applications c) (gui_errors c).

(** How the helper of a stage ends: [None] when it succeeds, [Some messages]
    when it fails, where [messages] is what it has given to [show_error]
    before it returns.  A helper that fails shows one message; it shows
    two when the failure is one it did not expect, the error handler's
    and its own (lines 214-218, 250-254, 299-303); and the monitoring
    stage shows none when [_execute_download_monitoring] returns a result
    whose [success] is [False], which makes the workflow return at lines
    137-138.  The calls of the GUI are taken to return, so that the handler
    of lines 152-156 has nothing to catch: the helpers catch what their
    own bodies raise. *)
Definition Outcome : Type := option (list string).

Definition show_outcome (outcome : Outcome) (errors : list string) : list string :=
  match outcome with
  | None => errors
  | Some messages => errors ++ messages
  end.

Definition next_stage (outcome : Outcome) (next : Stage) : Stage :=
  match outcome with
  | None => next
  | Some _ => Cleanup
  end.

(** One stage of [MainController._execute_download_workflow] run by a
    worker at [stage], with the [outcome] of the stage's helper. *)
Definition worker_step (outcome : Outcome) (stage : Stage) (c : Controller)
    : Stage * Controller :=
  match stage with
  | Spawned =>                                      (* lines 119-121 *)
      (BrowserAutomation,
       mkController true (current_operation c) (workers c)
                    (remote_triggers c) (detector_starts c)
                    (metadata_applications c) (gui_errors c))
  | BrowserAutomation =>                            (* lines 125-130 *)
      (next_stage outcome DownloadMonitoring,
       mkController (is_processing c) (Some "browser_automation") (workers c)
                    (S (remote_triggers c)) (detector_starts c)
                    (metadata_applications c)
                    (show_outcome outcome (gui_errors c)))
  | DownloadMonitoring =>                           (* lines 133-138 *)
      (next_stage outcome MetadataApplication,
       mkController (is_processing c) (Some "download_monitoring") (workers c)
                    (remote_triggers c) (S (detector_starts c))
                    (metadata_applications c)
                    (show_outcome outcome (gui_errors c)))
  | MetadataApplication =>                          (* lines 141-150 *)
      (Cleanup,
       mkController (is_processing c)
                    (match outcome with
                     | None => Some "completed"
                     | Some _ => Some "metadata_application"
                     end)
                    (workers c) (remote_triggers c) (detector_starts c)
                    (S (metadata_applications c))
                    (show_outcome outcome (gui_errors c)))
  | Cleanup =>                                      (* lines 158-162 *)
      (Finished,
       mkController false None (workers c)
                    (remote_triggers c) (detector_starts c)
                    (metadata_applications c) (gui_errors c))
  | Finished => (Finished, c)
  end.

(** What the scheduler lets happen next: the GUI thread submits a request,
    or worker [i] runs its next stage. *)
Inductive Action :=
| Submit
| Step (i : nat) (outcome : Outcome).

Definition perform (c : Controller) (a : Action) : Controller :=
  match a with
  | Submit => _handle_download_request c
  | Step i outcome =>
      match workers c !! i with
      | None => c
      | Some stage =>
          let '(stage', c') := worker_step outcome stage c in
          mkController (is_processing c') (current_operation c')
                       (<[i := stage']> (workers c'))
                       (remote_triggers c') (detector_starts c')
                       (metadata_applications c') (gui_errors c')
      end
  end.

Definition run (schedule : list Action) (c : Controller) : Controller :=
  foldl perform c schedule.

(** Workers started and not yet finished. *)
Definition active (c : Controller) : nat :=
  length (filter (λ s, s ≠ Finished) (workers c)).

(** [MainController.cancel_operation].  [_cleanup_resources] closes the
    browser and stops the monitor, which catch what they raise, so it
    leaves the controller's own state as it is.  [gui_fault] is what the
    update of the GUI (lines 366-367) raises, if anything; the handler of
    lines 371-376 reports it to the error handler, which shows it. *)
Definition cancel_operation (gui_fault : option Exn) (c : Controller)
    : bool * Controller :=
  if negb (is_processing c) then (true, c)
  else
    match gui_fault with
    | None =>
        (true,
         mkController false None (workers c) (remote_triggers c)
                      (detector_starts c) (metadata_applications c) (gui_errors c))
    | Some e =>
        (false,
         mkController false None (workers c) (remote_triggers c)
                      (detector_starts c) (metadata_applications c)
                      (gui_errors c ++
                         ["Application Error: Error canceling operation: " +:+ str e]))
    end.

(** [MainController.retry_current_operation] *)
Definition retry_current_operation (c : Controller) : Controller :=
  if is_processing c
  then mkController (is_processing c) (current_operation c) (workers c)
                    (remote_triggers c) (detector_starts c) (metadata_applications c)
                    (gui_errors c ++
                       ["Cannot retry while an operation is in progress."])
  else _handle_download_request c.

(** What can happen next, the calls of the two methods above included. *)
Inductive Command :=
| Do (a : Action)
| Cancel (gui_fault : option Exn)
| Retry.

Definition command (c : Controller) (x : Command) : Controller :=
  match x with
  | Do a => perform c a
  | Cancel gui_fault => (cancel_operation gui_fault c).2
  | Retry => retry_current_operation c
  end.

(** A worker between its first statement and the end of its [finally]. *)
Definition in_flight (stage : Stage) : bool :=
  match stage with
  | Spawned | Finished => false
  | _ => true
  end.

(** A worker that has called [_execute_browser_automation]. *)
Definition has_triggered (stage : Stage) : bool :=
  match stage with
  | Spawned | BrowserAutomation => false
  | _ => true
  end.

End MainController.

(** ** The metadata stage of the workflow (src/controllers/main_controller.py) *)

Module Workflow.
Import World.

(** What the controller's side of a stage leaves behind: the messages given
    to [gui_controller.show_error], and the history of the controller's
    own error handler. *)
Record Console := mkConsole {
  shown : list string;
  reported : list (Exn * string)
}.

Definition show_error (message : string) (k : Console) : Console :=
  mkConsole (shown k ++ [message]) (reported k).

(** [self.error_handler.handle_error(YouTubeDownloaderError(message), context)]:
    the controller's handler records the error and, its GUI callback being
    [show_error], shows [Application Error: message]. *)
Definition handle_application_error (message context : string) (k : Console)
    : Console :=
  mkConsole (shown k ++ ["Application Error: " +:+ message])
            (reported k ++ [(mkExn YouTubeDownloaderError message None None, context)]).

(** [MainController._execute_metadata_application] *)
Definition _execute_metadata_application (file_path : string)
    (user_input : DataModels.UserInput) (k : Console) (w : World)
    : bool * Console * World :=
  let metadata_info :=
    DataModels.mkMetadataInfo
      (DataModels.input_artist user_input) (DataModels.input_title user_input)
      (DataModels.input_album user_input) (DataModels.input_track_number user_input)
      file_path in
  let validation_errors := DataModels.validate metadata_info in
  if negb (bool_decide (validation_errors = []))
  then (false,
        show_error ("Invalid metadata: " +:+ Py.join ", " validation_errors) k, w)
  else
    match MetadataService.apply_metadata file_path metadata_info w with
    | (Ok true, w') => (true, k, w')
    | (Ok false, w') =>
        (false, show_error "Failed to apply metadata to the MP3 file." k, w')
    | (Err e, w') =>
        if bool_decide (exn_class e = MetadataError)
        then (false, show_error ("Metadata error: " +:+ exn_message e) k, w')
        else
          let error_msg :=
            "Unexpected error during metadata application: " +:+ str e in
          (false,
           show_error error_msg
             (handle_application_error error_msg "metadata_application" k),
           w')
    end.

(** The end of [_execute_download_monitoring]: what it returns, after the
    [finally] clause (line 260) has stopped the monitor. *)
Definition stop_after (stop : DownloadMonitor.StopOutcome)
    (r : option DataModels.DownloadResult) (k : Console)
    (m : DownloadMonitor.Monitor) (now : Z)
    : option DataModels.DownloadResult * Console * DownloadMonitor.Monitor * Z :=
  (r, k, (DownloadMonitor.stop_monitoring stop m).2, now).

(** The handlers of lines 248-256, for an exception raised in the body. *)
Definition monitoring_failed (e : Exn) (k : Console) : Console :=
  if bool_decide (exn_class e = DownloadError)
  then show_error ("Download error: " +:+ exn_message e) k
  else
    let error_msg := "Unexpected error during download monitoring: " +:+ str e in
    show_error error_msg (handle_application_error error_msg "download_monitoring" k).

(** [MainController._execute_download_monitoring] called at time [now]
    (milliseconds), with [self.download_timeout] seconds to wait.  [None]
    when [fuel] iterations were not enough for [detect_new_mp3]. *)
Definition _execute_download_monitoring (download_timeout : Z)
    (host : DownloadMonitor.Host) (env : DownloadMonitor.Env)
    (folder : DownloadMonitor.Folder) (stop : DownloadMonitor.StopOutcome)
    (fuel : nat) (now : Z) (k : Console) (m : DownloadMonitor.Monitor)
    : option (option DataModels.DownloadResult * Console *
              DownloadMonitor.Monitor * Z) :=
  match DownloadMonitor.start_monitoring host m with
  | (Err e, m1) => Some (stop_after stop None (monitoring_failed e k) m1 now)
  | (Ok false, m1) =>
      Some (stop_after stop None
              (show_error
                 "Failed to start download monitoring. Please check Downloads folder permissions."
                 k) m1 now)
  | (Ok true, m1) =>
      match DownloadMonitor.detect_new_mp3 fuel env now download_timeout m1 with
      | None => None
      | Some (Err e, m2, now') =>
          Some (stop_after stop None (monitoring_failed e k) m2 now')
      | Some (Ok detected, m2, now') =>
          let found (file_path : string) :=
            Some (stop_after stop
                    (Some (DownloadMonitor.create_download_result
                             (DownloadMonitor.exists_at env now') (1000 * now')
                             (Some file_path) None))
                    k m2 now') in
          let fallback :=                                   (* lines 238-243 *)
            match DownloadMonitor.get_recent_mp3_files folder (1000 * now') 10 m2 with
            | Err e => Some (stop_after stop None (monitoring_failed e k) m2 now')
            | Ok [] =>
                Some (stop_after stop None
                        (show_error
                           ("Download timeout: No MP3 file detected within "
                              +:+ Py.str_int (download_timeout / 60) +:+ " minutes.")
                           k) m2 now')
            | Ok (file_path :: _) => found file_path
            end in
          match detected with
          | Some file_path =>
              if MetadataService.truthy file_path then found file_path else fallback
          | None => fallback
          end
      end
  end.

End Workflow.

(** ** Concrete worlds *)

Module Examples.
Import World.

(** A 1024-byte file that starts with an ID3 header, tagged with a comment. *)
Definition song_bytes : Py.bytes := Py.ID3_magic ++ replicate 1021 Byte.x00.

Definition song_tags : gmap string Frame := {[ "COMM" := TextFrame 3 "hello" ]}.

Definition song : FileData :=
  mkFileData song_bytes (Ok (mkAudio (Some 180000) (Some song_tags))).

Definition fields : DataModels.MetadataInfo :=
  DataModels.mkMetadataInfo "A" "T" "AL" 3 "song.mp3".

(** A disk holding that file, with room to spare; [save] rewrites the tag
    block in place. *)
Definition disk : World :=
  mkWorld {[ "song.mp3" := song ]} 1000000 1700000000 (λ _ bs, bs) [] [] [].

Definition backup_path : string := "song.mp3.backup.1700000000".

(** What a failed [save] leaves behind. *)
Definition torn : FileData :=
  mkFileData (replicate 512 Byte.x00) (Err (builtin MutagenError "can't sync to MPEG frame")).

(** A downloads folder, first writable, then read-only; and the monitor
    built while it was writable. *)
Definition downloads : string := "/Users/u/Downloads".

Definition writable_host : DownloadMonitor.Host :=
  DownloadMonitor.mkHost "/Users/u" "u"
    {[ downloads := DownloadMonitor.mkDir true true true ]} ∅ None [].

Definition readonly_host : DownloadMonitor.Host :=
  DownloadMonitor.mkHost "/Users/u" "u"
    {[ downloads := DownloadMonitor.mkDir true true false ]} ∅ None [].

Definition watcher : DownloadMonitor.Monitor :=
  DownloadMonitor.mkMonitor downloads None false false [] 30 [].

(** Two requests submitted before the first worker has run its first
    statement, after which both workers run. *)
Definition two_quick_requests : list MainController.Action :=
  [ MainController.Submit; MainController.Submit;
    MainController.Step 0 None; MainController.Step 1 None;
    MainController.Step 0 None; MainController.Step 1 None;
    MainController.Step 0 None; MainController.Step 1 None ].

(** A request submitted once the first worker has set the flag. *)
Definition two_spaced_requests : list MainController.Action :=
  [ MainController.Submit; MainController.Step 0 None; MainController.Submit ].

Definition disk_full : Exn := builtin OSError "[Errno 28] No space left on device".
Definition denied : Exn := builtin PermissionError "[Errno 13] Permission denied".

(** The twelve primitives that run before [save()] go through; then
    [save()] fails midway; the restore goes through. *)
Definition disk_failing_save : World :=
  with_plan (replicate 12 NoFault ++ [RaisesAfterWriting torn disk_full]) disk.

(** The same, and the restore is refused as well. *)
Definition disk_failing_restore : World :=
  with_plan (replicate 12 NoFault ++ [RaisesAfterWriting torn disk_full; Raises denied])
            disk.

(** The same disk with less free space than twice the file. *)
Definition cramped_disk : World :=
  mkWorld (files disk) 2047 (clock disk) (mutagen_render disk) [] [] [].

(** The error [apply_metadata] raises when [save()] fails so. *)
Definition save_failure : Exn :=
  mkMetadataError (MetadataService.failure_message "song.mp3" disk_full)
                  (Some "song.mp3").

(** A file that appears empty, has grown to 4000 bytes two seconds later
    and keeps that size, with an ID3 header. *)
Definition growing_file (i : nat) : DownloadMonitor.Poll :=
  DownloadMonitor.mkPoll
    (DownloadMonitor.SizeIs (Z.min (2000 * Z.of_nat i) 4000))
    (DownloadMonitor.HeaderIs (take 1024 song_bytes)).


Definition waiting_monitor : DownloadMonitor.Monitor :=
  DownloadMonitor.mkMonitor downloads
    (Some (DownloadMonitor.mkObserver (Some downloads) true)) true true
    [DownloadMonitor.mkFileInfo "/Users/u/Downloads/song.mp3" 0 false] 30 [].

(** U+00A0, the no-break space, as its two bytes [C2 A0]. *)
Definition no_break_space : string := String "194"%char (String "160"%char "").

(** Fields whose artist is a no-break space and whose title is empty. *)
Definition blank_artist : DataModels.MetadataInfo :=
  DataModels.mkMetadataInfo no_break_space "" "AL" 3 "song.mp3".

(** The form filled in with that artist and no title. *)
Definition blank_input : DataModels.UserInput :=
  DataModels.mkUserInput "https://www.youtube.com/watch?v=abc123"
                         no_break_space "" "AL" 3.

(** A picture frame that cannot be printed. *)
Definition unreadable_frame : Frame :=
  OtherFrame (Err (builtin OtherException "unsupported picture type")).

Definition song_path : string := "/Users/u/Downloads/song.mp3".

(** The downloads folder twenty minutes into the hour, times in
    microseconds: a file from the start of the hour, one that is not an
    MP3, and two MP3 files written six and two minutes ago. *)
Definition recent_folder : DownloadMonitor.Folder :=
  let ctime (p : string) :=
    if String.eqb p "/Users/u/Downloads/old.mp3" then Ok 0
    else if String.eqb p "/Users/u/Downloads/first.mp3" then Ok 840000000
    else if String.eqb p "/Users/u/Downloads/second.MP3" then Ok 1080000000
    else if String.eqb p "/Users/u/Downloads/notes.txt" then Ok 1100000000
    else Err (no_such_file p) in
  DownloadMonitor.mkFolder
    (Ok ["old.mp3"; "first.mp3"; "notes.txt"; "second.MP3"]) ctime ctime.

(** A folder in which the song is announced during the first sleep of
    [detect_new_mp3], exists from then on, grows for two seconds and then
    keeps its size.  Times are in milliseconds. *)
Definition steady_folder : DownloadMonitor.Env :=
  DownloadMonitor.mkEnv
    (λ _ _, true)
    (λ t _, growing_file (Z.to_nat (t / 1000)))
    (λ k, match k with O => [song_path] | _ => [] end).

(** The monitor once the song has been detected and judged complete,
    monitoring and stopped. *)
Definition monitor_after_detection : DownloadMonitor.Monitor :=
  DownloadMonitor.mkMonitor downloads
    (Some (DownloadMonitor.mkObserver (Some downloads) true)) true true
    [DownloadMonitor.mkFileInfo song_path 0 true] 30 [].

Definition monitor_after_stage : DownloadMonitor.Monitor :=
  DownloadMonitor.mkMonitor downloads None false false
    [DownloadMonitor.mkFileInfo song_path 0 true] 30 [].

(** The result of the monitoring stage for the song, found at 5.5 s. *)
Definition song_result : DataModels.DownloadResult :=
  DownloadMonitor.create_download_result
    (DownloadMonitor.exists_at steady_folder 5500) (1000 * 5500)
    (Some song_path) None.

(** The controller with one request accepted and its worker not yet
    running. *)
Definition one_request : MainController.Controller :=
  MainController.run [MainController.Submit] MainController.init.

Definition quiet_console : Workflow.Console := Workflow.mkConsole [] [].

End Examples.

(** * Properties *)

(** ** What [strip] removes *)

Module PyFacts.
Import Py.

Lemma whitespace_characters_eq :
  whitespace_characters =
    ltac:(let l := eval vm_compute in whitespace_characters in exact l).
Proof. by vm_compute. Qed.

Lemma is_whitespace_spec c :
  is_whitespace c = true → String c "" ∈ whitespace_characters.
Proof.
  rewrite whitespace_characters_eq. intros H.
  destruct c as [[] [] [] [] [] [] [] []]; try discriminate H;
    by apply (bool_decide_unpack _).
Qed.

Lemma is_whitespace2_spec c1 c2 :
  is_whitespace2 c1 c2 = true → String c1 (String c2 "") ∈ whitespace_characters.
Proof.
  rewrite whitespace_characters_eq. intros H.
  destruct c1 as [[] [] [] [] [] [] [] []]; try discriminate H;
    destruct c2 as [[] [] [] [] [] [] [] []]; try discriminate H;
    by apply (bool_decide_unpack _).
Qed.

Lemma is_whitespace3_spec c1 c2 c3 :
  is_whitespace3 c1 c2 c3 = true →
  String c1 (String c2 (String c3 "")) ∈ whitespace_characters.
Proof.
  rewrite whitespace_characters_eq. intros H.
  destruct c1 as [[] [] [] [] [] [] [] []]; try discriminate H;
    destruct c2 as [[] [] [] [] [] [] [] []]; try discriminate H;
    destruct c3 as [[] [] [] [] [] [] [] []]; try discriminate H;
    by apply (bool_decide_unpack _).
Qed.

(** A whitespace character in front changes nothing. *)
Lemma strip_is_empty_skip c s :
  c ∈ whitespace_characters → strip_is_empty (c +:+ s) = strip_is_empty s.
Proof.
  rewrite whitespace_characters_eq. intros Hc.
  repeat (apply elem_of_cons in Hc as [-> | Hc]; [reflexivity |]).
  by apply elem_of_nil in Hc.
Qed.

(** [not s.strip()] holds exactly of the strings made of the characters
    that [str.isspace] holds of, and of nothing else. *)
Lemma strip_is_empty_spec s :
  strip_is_empty s = true ↔
  ∃ l, Forall (λ c, c ∈ whitespace_characters) l ∧ s = foldr String.append "" l.
Proof.
  split.
  - remember (String.length s) as n eqn:Hn. revert s Hn.
    induction n as [n IH] using lt_wf_ind. intros s Hn H.
    assert (Hnext : ∀ c s',
      c ∈ whitespace_characters → (String.length s' < n)%nat →
      strip_is_empty s' = true → s = c +:+ s' →
      ∃ l, Forall (λ c, c ∈ whitespace_characters) l ∧
           s = foldr String.append "" l).
    { intros c s' Hc Hlt Hs' ->.
      destruct (IH _ Hlt s' eq_refl Hs') as (l & Hl & ->).
      exists (c :: l). split; [by constructor | done]. }
    destruct s as [| c1 s1]; [by exists [] |]. simpl in H, Hn.
    destruct (is_whitespace c1) eqn:H1.
    { apply (Hnext (String c1 "") s1); [by apply is_whitespace_spec | lia | done..]. }
    destruct s1 as [| c2 s2]; [done |]. simpl in Hn.
    destruct (is_whitespace2 c1 c2) eqn:H2.
    { apply (Hnext (String c1 (String c2 "")) s2);
        [by apply is_whitespace2_spec | lia | done..]. }
    destruct s2 as [| c3 s3]; [done |]. simpl in Hn.
    destruct (is_whitespace3 c1 c2 c3) eqn:H3; [| done].
    apply (Hnext (String c1 (String c2 (String c3 ""))) s3);
      [by apply is_whitespace3_spec | lia | done..].
  - intros (l & Hl & ->). induction Hl as [| c l Hc _ IH]; [done |].
    simpl. by rewrite strip_is_empty_skip.
Qed.

End PyFacts.

(** ** Reasoning about the monad *)

Module MonadFacts.
Import World Frames.

Lemma bind_inv {A B} (m : M A) (k : A → M B) w r w' :
  bind m k w = (r, w') →
  (∃ a w1, m w = (Ok a, w1) ∧ k a w1 = (r, w')) ∨
  (∃ e, m w = (Err e, w') ∧ r = Err e).
Proof.
  unfold bind. destruct (m w) as [[a|e] w1] eqn:Hm; intros H.
  - left. eauto.
  - right. inversion H; subst. eauto.
Qed.

Lemma try_except_inv {A} (m : M A) (h : Exn → M A) w r w' :
  try_except m h w = (r, w') →
  (∃ a, m w = (Ok a, w') ∧ r = Ok a) ∨
  (∃ e w1, m w = (Err e, w1) ∧ h e w1 = (r, w')).
Proof.
  unfold try_except. destruct (m w) as [[a|e] w1] eqn:Hm; intros H.
  - left. inversion H; subst. eauto.
  - right. eauto.
Qed.

Section Keeps.
Context (R : World → World → Prop) `{!PreOrder R}.

Lemma keeps_ret {A} (a : A) : keeps R (ret a).
Proof. intros w r w' H. inversion H; subst. reflexivity. Qed.

Lemma keeps_raise {A} (e : Exn) : keeps R (@raise A e).
Proof. intros w r w' H. inversion H; subst. reflexivity. Qed.

Lemma keeps_bind {A B} (m : M A) (k : A → M B) :
  keeps R m → (∀ a, keeps R (k a)) → keeps R (bind m k).
Proof.
  intros Hm Hk w r w' H.
  destruct (bind_inv _ _ _ _ _ H) as [(a & w1 & H1 & H2) | (e & H1 & _)].
  - etransitivity; [eapply Hm | eapply Hk]; eauto.
  - eapply Hm; eauto.
Qed.

Lemma keeps_try_except {A} (m : M A) (h : Exn → M A) :
  keeps R m → (∀ e, keeps R (h e)) → keeps R (try_except m h).
Proof.
  intros Hm Hh w r w' H.
  destruct (try_except_inv _ _ _ _ _ H) as [(a & H1 & _) | (e & w1 & H1 & H2)].
  - eapply Hm; eauto.
  - etransitivity; [eapply Hm | eapply Hh]; eauto.
Qed.

Lemma keeps_if {A} (b : bool) (m1 m2 : M A) :
  keeps R m1 → keeps R m2 → keeps R (if b then m1 else m2).
Proof. destruct b; auto. Qed.

End Keeps.

Lemma same_disk_preorder : PreOrder same_disk.
Proof.
  split.
  - intros w. repeat split.
  - intros a b c (?&?&?&?&?) (?&?&?&?&?). repeat split; congruence.
Qed.

Lemma history_grows_preorder : PreOrder history_grows.
Proof.
  split.
  - intros w. exists []. by rewrite app_nil_r.
  - intros a b c [m1 H1] [m2 H2]. exists (m1 ++ m2).
    by rewrite H2, H1, app_assoc.
Qed.

Lemma trace_grows_preorder : PreOrder trace_grows.
Proof.
  split.
  - intros w. exists []. by rewrite app_nil_r.
  - intros a b c [m1 H1] [m2 H2]. exists (m1 ++ m2).
    by rewrite H2, H1, app_assoc.
Qed.

#[global] Existing Instance same_disk_preorder.
#[global] Existing Instance history_grows_preorder.
#[global] Existing Instance trace_grows_preorder.

Section Primitives.
Context (R : World → World → Prop) `{!PreOrder R}.
Context (R_plan : ∀ w p, R w (with_plan p w)).
Context (R_log : ∀ w x, R w (with_error_history (error_history w ++ [x]) w)).

Lemma keeps_handle_error e c : keeps R (handle_error e c).
Proof. intros w r w' H. inversion H; subst. apply R_log. Qed.

Lemma keeps_next_fault : keeps R next_fault.
Proof.
  intros w r w' H. unfold next_fault in H.
  destruct (plan w); inversion H; subst; [reflexivity | apply R_plan].
Qed.

Lemma keeps_lookup_file p : keeps R (lookup_file p).
Proof. intros w r w' H. inversion H; subst. reflexivity. Qed.

Lemma keeps_os_path_exists p : keeps R (os_path_exists p).
Proof.
  apply keeps_bind; [done | apply keeps_lookup_file | intros; by apply keeps_ret].
Qed.

Lemma keeps_os_path_getsize p : keeps R (os_path_getsize p).
Proof.
  apply keeps_bind; [done | apply keeps_next_fault |]. intros f.
  apply keeps_bind; [done | apply keeps_lookup_file |]. intros d.
  destruct f, d; first [by apply keeps_ret | by apply keeps_raise].
Qed.

Lemma keeps_MP3 p : keeps R (MP3 p).
Proof.
  apply keeps_bind; [done | apply keeps_next_fault |]. intros f.
  apply keeps_bind; [done | apply keeps_lookup_file |]. intros d.
  destruct f, d as [fd|]; try destruct (media fd);
    first [by apply keeps_ret | by apply keeps_raise].
Qed.

Lemma keeps_open_read p n : keeps R (open_read p n).
Proof.
  apply keeps_bind; [done | apply keeps_next_fault |]. intros f.
  apply keeps_bind; [done | apply keeps_lookup_file |]. intros d.
  destruct f, d; first [by apply keeps_ret | by apply keeps_raise].
Qed.

Lemma keeps_shutil_disk_usage_free : keeps R shutil_disk_usage_free.
Proof.
  apply keeps_bind; [done | apply keeps_next_fault |]. intros f.
  destruct f; try by apply keeps_raise.
  all: intros w r w' H; inversion H; subst; reflexivity.
Qed.

Lemma keeps_time_time : keeps R time_time.
Proof. intros w r w' H. inversion H; subst. reflexivity. Qed.

End Primitives.

Lemma same_disk_plan w p : same_disk w (with_plan p w).
Proof. by repeat split. Qed.

Lemma same_disk_history w h : same_disk w (with_error_history h w).
Proof. by repeat split. Qed.

Lemma same_disk_log w x :
  same_disk w (with_error_history (error_history w ++ [x]) w).
Proof. apply same_disk_history. Qed.

Lemma trace_grows_plan w p : trace_grows w (with_plan p w).
Proof. exists []. by rewrite app_nil_r. Qed.

Lemma trace_grows_log w x :
  trace_grows w (with_error_history (error_history w ++ [x]) w).
Proof. exists []. by rewrite app_nil_r. Qed.

Lemma history_grows_plan w p : history_grows w (with_plan p w).
Proof. exists []. by rewrite app_nil_r. Qed.

Lemma history_grows_log w x :
  history_grows w (with_error_history (error_history w ++ [x]) w).
Proof. by exists [x]. Qed.

End MonadFacts.

(** ** The metadata service *)

Module MetadataFacts.
Import World Frames MonadFacts MetadataService.

Lemma os_path_exists_eq p w :
  os_path_exists p w = (Ok (bool_decide (is_Some (files w !! p))), w).
Proof. reflexivity. Qed.

(** *** Operations that only read the disk *)

Section ReadOnly.
Context (R : World → World → Prop) `{!PreOrder R}.
Context (R_plan : ∀ w p, R w (with_plan p w)).
Context (R_log : ∀ w x, R w (with_error_history (error_history w ++ [x]) w)).

Lemma keeps_report_and_raise {A} msg p c : keeps R (@report_and_raise A msg p c).
Proof.
  apply keeps_bind; [done | by apply keeps_handle_error |].
  intros _. by apply keeps_raise.
Qed.

Lemma keeps_validate_checks p : keeps R (validate_checks p).
Proof.
  apply keeps_bind; [done | by apply keeps_os_path_getsize |]. intros sz.
  apply keeps_if; [by apply keeps_ret |].
  apply keeps_bind; [done | by apply keeps_MP3 |]. intros a.
  destruct (info a); [| by apply keeps_ret].
  apply keeps_if; [by apply keeps_ret |].
  apply keeps_bind; [done | by apply keeps_open_read |]. intros h.
  apply keeps_if; by apply keeps_ret.
Qed.

Lemma keeps_validate_mp3_file p : keeps R (validate_mp3_file p).
Proof.
  apply keeps_bind; [done | by apply keeps_os_path_exists |]. intros present.
  apply keeps_if; [by apply keeps_ret |].
  apply keeps_if; [by apply keeps_ret |].
  apply keeps_try_except; [done | by apply keeps_validate_checks |].
  intros e. apply keeps_bind; [done | by apply keeps_handle_error |].
  intros _. by apply keeps_ret.
Qed.

Lemma keeps_read_tags p : keeps R (read_tags p).
Proof.
  apply keeps_bind; [done | by apply keeps_MP3 |]. intros a.
  intros w r w' H. inversion H; subst. reflexivity.
Qed.

Lemma keeps_read_metadata p : keeps R (read_metadata p).
Proof.
  apply keeps_bind; [done | by apply keeps_os_path_exists |]. intros present.
  apply keeps_if; [by apply keeps_report_and_raise |].
  apply keeps_bind; [done | by apply keeps_validate_mp3_file |]. intros valid.
  apply keeps_if; [by apply keeps_report_and_raise |].
  apply keeps_try_except; [done | by apply keeps_read_tags |].
  intros e. apply keeps_if; by apply keeps_report_and_raise.
Qed.

Lemma keeps_backup_present bp : keeps R (backup_present bp).
Proof.
  apply keeps_if; [by apply keeps_os_path_exists | by apply keeps_ret].
Qed.

End ReadOnly.

(** *** validate_mp3_file always returns *)

Lemma validate_mp3_file_returns p w :
  ∃ b w', validate_mp3_file p w = (Ok b, w').
Proof.
  unfold validate_mp3_file, bind. rewrite os_path_exists_eq.
  destruct (negb _); [by eexists _, _ |].
  destruct (negb _); [by eexists _, _ |].
  unfold try_except. destruct (validate_checks p w) as [[b|e] w1]; by eexists _, _.
Qed.

Lemma validate_mp3_file_same_disk p w r w' :
  validate_mp3_file p w = (r, w') → same_disk w w'.
Proof.
  apply (keeps_validate_mp3_file same_disk same_disk_plan same_disk_log).
Qed.

(** What the reading primitives return when they return. *)
Lemma next_fault_inv w r w' :
  next_fault w = (r, w') → (∃ f, r = Ok f) ∧ same_disk w w'.
Proof.
  unfold next_fault. destruct (plan w); inversion 1; subst; split; eauto.
  - reflexivity.
  - apply same_disk_plan.
Qed.

Lemma os_path_getsize_ok p w n w' :
  os_path_getsize p w = (Ok n, w') →
  ∃ fd, files w !! p = Some fd ∧ n = Z.of_nat (length (raw fd)).
Proof.
  unfold os_path_getsize, bind, lookup_file.
  destruct (next_fault w) as [r w1] eqn:H1.
  apply next_fault_inv in H1 as [[f ->] (Hf & _)]. rewrite Hf.
  destruct f, (files w !! p) as [fd|]; inversion 1; eauto.
Qed.

Lemma MP3_ok p w a w' :
  MP3 p w = (Ok a, w') → ∃ fd, files w !! p = Some fd ∧ media fd = Ok a.
Proof.
  unfold MP3, bind, lookup_file.
  destruct (next_fault w) as [r w1] eqn:H1.
  apply next_fault_inv in H1 as [[f ->] (Hf & _)]. rewrite Hf.
  destruct f, (files w !! p) as [fd|]; try by inversion 1.
  all: destruct (media fd) eqn:Hm; inversion 1; subst; eauto.
Qed.

Lemma open_read_ok p n w bs w' :
  open_read p n w = (Ok bs, w') →
  ∃ fd, files w !! p = Some fd ∧ bs = take n (raw fd).
Proof.
  unfold open_read, bind, lookup_file.
  destruct (next_fault w) as [r w1] eqn:H1.
  apply next_fault_inv in H1 as [[f ->] (Hf & _)]. rewrite Hf.
  destruct f, (files w !! p) as [fd|]; inversion 1; eauto.
Qed.

Ltac bind_ok H :=
  let a := fresh "a" in
  let w1 := fresh "w" in
  let H1 := fresh "Hstep" in
  apply bind_inv in H as [(a & w1 & H1 & H) | (? & ? & ?)]; [| discriminate].

Ltac ret_inv H := unfold ret, raise in H; inversion H; subst; clear H.

(** What a [True] answer of the validation establishes. *)
Lemma validate_checks_true p w w' :
  validate_checks p w = (Ok true, w') →
  ∃ fd a len,
    files w !! p = Some fd ∧
    (1024 ≤ length (raw fd))%nat ∧
    media fd = Ok a ∧ info a = Some len ∧ 0 < len ∧
    header_has_signature (take 10 (raw fd)) = true.
Proof.
  intros H. unfold validate_checks in H.
  bind_ok H. rename a into sz.
  pose proof (keeps_os_path_getsize same_disk same_disk_plan _ _ _ _ Hstep)
    as (Hf1 & _).
  apply os_path_getsize_ok in Hstep as (fd & Hfd & ->).
  destruct (Z.ltb_spec (Z.of_nat (length (raw fd))) 1024); [by ret_inv H |].
  bind_ok H.
  pose proof (keeps_MP3 same_disk same_disk_plan _ _ _ _ Hstep) as (Hf2 & _).
  apply MP3_ok in Hstep as (fd' & Hfd' & Hmedia).
  rewrite Hf1, Hfd in Hfd'. inversion Hfd'; subst fd'; clear Hfd'.
  destruct (info a) as [len|] eqn:Hinfo; [| by ret_inv H].
  destruct (Z.leb_spec len 0); [by ret_inv H |].
  bind_ok H. rename a0 into header.
  apply open_read_ok in Hstep as (fd' & Hfd' & ->).
  rewrite Hf2, Hf1, Hfd in Hfd'. inversion Hfd'; subst fd'; clear Hfd'.
  destruct (header_has_signature _) eqn:Hsig.
  - exists fd, a, len. repeat split; try done; lia.
  - rewrite andb_true_r in H. rewrite length_take in H.
    destruct (Nat.leb_spec 3 (10 `min` length (raw fd))); [by ret_inv H | lia].
Qed.

Lemma validate_mp3_file_true p w w' :
  validate_mp3_file p w = (Ok true, w') →
  ∃ fd a len,
    files w !! p = Some fd ∧
    Py.endswith (Py.lower p) ".mp3" = true ∧
    (1024 ≤ length (raw fd))%nat ∧
    media fd = Ok a ∧ info a = Some len ∧ 0 < len ∧
    header_has_signature (take 10 (raw fd)) = true.
Proof.
  unfold validate_mp3_file, bind. rewrite os_path_exists_eq.
  destruct (files w !! p) as [fd|] eqn:Hfd; simpl; [| by inversion 1].
  destruct (Py.endswith _ _) eqn:Hext; simpl; [| by inversion 1].
  intros H. apply try_except_inv in H as [(b & H & Hb) | (e & w1 & _ & H)].
  - inversion Hb; subst b.
    apply validate_checks_true in H as (fd' & a & len & Hfd' & ?).
    rewrite Hfd in Hfd'. inversion Hfd'; subst fd'. exists fd, a, len. tauto.
  - unfold bind, handle_error, ret in H. inversion H.
Qed.

(** *** Strings *)

Lemma length_append s1 s2 :
  String.length (s1 +:+ s2) = (String.length s1 + String.length s2)%nat.
Proof. induction s1 as [|c s1 IH]; simpl; [done | by rewrite IH]. Qed.

Lemma backup_path_of_ne p t : backup_path_of p t ≠ p.
Proof.
  unfold backup_path_of. intros H. apply (f_equal String.length) in H.
  rewrite !length_append in H. simpl in H. lia.
Qed.

(** *** The primitives that write *)

Lemma report_and_raise_eq {A} msg p c w :
  @report_and_raise A msg p c w =
  (Err (mkMetadataError msg (Some p)),
   with_error_history (error_history w ++ [(mkMetadataError msg (Some p), c)]) w).
Proof. reflexivity. Qed.

Lemma shutil_copy2_inv src dst w r w' :
  shutil_copy2 src dst w = (r, w') →
  trace w' = trace w ++ [Copied src dst] ∧
  disk_free w' = disk_free w ∧ clock w' = clock w ∧
  mutagen_render w' = mutagen_render w ∧
  error_history w' = error_history w ∧
  match r with
  | Ok _ =>
      ∃ fd d, files w !! src = Some fd ∧ files w' = <[dst := d]> (files w) ∧
              (d = fd ∨ (length (raw d) < length (raw fd))%nat)
  | Err _ => files w' = files w ∨ ∃ d, files w' = <[dst := d]> (files w)
  end.
Proof.
  unfold shutil_copy2, bind, emit, next_fault, lookup_file, write_file, raise.
  simpl. destruct (plan w) as [|f rest]; simpl.
  - destruct (files w !! src) as [fd|] eqn:Hfd; inversion 1; subst; simpl;
      repeat split; eauto 8.
  - destruct f as [| e | part e | n m]; simpl;
      destruct (files w !! src) as [fd|] eqn:Hfd; simpl;
      try (inversion 1; subst; simpl; repeat split; eauto 8; fail).
    destruct (Nat.ltb_spec n (length (raw fd))); inversion 1; subst; simpl;
      repeat split; eauto 8.
    eexists fd, _. repeat split; eauto. right. simpl. rewrite length_take. lia.
Qed.

Lemma mutagen_save_inv audio p w r w' :
  mutagen_save audio p w = (r, w') →
  trace w' = trace w ++ [Saved p] ∧
  error_history w' = error_history w ∧
  match r with
  | Ok _ =>
      ∃ fd, files w !! p = Some fd ∧
            files w' = <[p := mkFileData (mutagen_render w audio (raw fd)) (Ok audio)]>
                         (files w)
  | Err _ => files w' = files w ∨ ∃ d, files w' = <[p := d]> (files w)
  end.
Proof.
  unfold mutagen_save, bind, emit, next_fault, lookup_file, write_file, raise.
  simpl. destruct (plan w) as [|f rest]; simpl.
  - destruct (files w !! p) as [fd|] eqn:Hfd; inversion 1; subst; simpl;
      repeat split; eauto 8.
  - destruct f as [| e | part e | n m]; simpl;
      destruct (files w !! p) as [fd|] eqn:Hfd; simpl;
      inversion 1; subst; simpl; repeat split; eauto 8.
Qed.

Lemma os_remove_inv p w r w' :
  os_remove p w = (r, w') →
  trace w' = trace w ++ [Removed p] ∧
  error_history w' = error_history w ∧
  match r with
  | Ok _ => files w' = delete p (files w)
  | Err _ => files w' = files w
  end.
Proof.
  unfold os_remove, bind, emit, next_fault, lookup_file, delete_file, raise.
  simpl. destruct (plan w) as [|f rest]; simpl.
  - destruct (files w !! p) as [fd|] eqn:Hfd; inversion 1; subst; simpl;
      repeat split; eauto 8.
  - destruct f as [| e | part e | n m]; simpl;
      destruct (files w !! p) as [fd|] eqn:Hfd; simpl;
      inversion 1; subst; simpl; repeat split; eauto 8.
Qed.

Lemma shutil_move_inv src dst w r w' :
  shutil_move src dst w = (r, w') →
  trace w' = trace w ++ [Moved src dst] ∧
  error_history w' = error_history w ∧
  match r with
  | Ok _ =>
      ∃ fd, files w !! src = Some fd ∧
            files w' = delete src (<[dst := fd]> (files w))
  | Err _ => files w' = files w ∨ ∃ d, files w' = <[dst := d]> (files w)
  end.
Proof.
  unfold shutil_move, bind, emit, next_fault, lookup_file, write_file,
    delete_file, raise.
  simpl. destruct (plan w) as [|f rest]; simpl.
  - destruct (files w !! src) as [fd|] eqn:Hfd; inversion 1; subst; simpl;
      repeat split; eauto 8.
  - destruct f as [| e | part e | n m]; simpl;
      destruct (files w !! src) as [fd|] eqn:Hfd; simpl;
      inversion 1; subst; simpl; repeat split; eauto 8.
Qed.

(** *** backup_original *)

Lemma shutil_disk_usage_free_ok w n w' :
  shutil_disk_usage_free w = (Ok n, w') → n = disk_free w.
Proof.
  unfold shutil_disk_usage_free, bind, next_fault.
  destruct (plan w) as [|f rest]; [by inversion 1 |].
  destruct f; by inversion 1.
Qed.

Tactic Notation "bind_any" hyp(H) "as" ident(a) ident(w1) ident(H1) :=
  let e := fresh "e" in
  let Heq := fresh "Heq" in
  apply bind_inv in H as [(a & w1 & H1 & H) | (e & H1 & Heq)];
    [| first [discriminate Heq | (inversion Heq; subst; try clear Heq)]].

(** The outcome of the [try] block of [backup_original]: a backup that is
    the original, byte for byte, or a failure that has written nothing
    except, possibly, the backup file. *)
Lemma backup_checks_inv p bp w r w1 :
  bp ≠ p →
  backup_checks p bp w = (r, w1) →
  match r with
  | Ok bp' =>
      bp' = bp ∧
      ∃ d0, files w !! p = Some d0 ∧ files w1 = <[bp := d0]> (files w) ∧
            trace w1 = trace w ++ [Copied p bp] ∧
            (2 * Z.of_nat (length (raw d0)) ≤ disk_free w)%Z
  | Err _ =>
      (files w1 = files w ∧ trace w1 = trace w) ∨
      (trace w1 = trace w ++ [Copied p bp] ∧
       (∃ d0, files w !! p = Some d0 ∧
              (2 * Z.of_nat (length (raw d0)) ≤ disk_free w)%Z) ∧
       (files w1 = files w ∨ ∃ d, files w1 = <[bp := d]> (files w)))
  end.
Proof.
  intros Hne H. unfold backup_checks in H.
  bind_any H as sz wa Hsz.
  2: { apply (keeps_os_path_getsize same_disk same_disk_plan) in Hsz
         as (? & ? & _). by left. }
  pose proof (keeps_os_path_getsize same_disk same_disk_plan _ _ _ _ Hsz)
    as (Hf1 & Ht1 & Hd1 & _).
  apply os_path_getsize_ok in Hsz as (d0 & Hd0 & ->).
  bind_any H as avail wb Hfree.
  2: { apply (keeps_shutil_disk_usage_free same_disk same_disk_plan) in Hfree
         as (? & ? & _). left. split; congruence. }
  pose proof (keeps_shutil_disk_usage_free same_disk same_disk_plan _ _ _ Hfree)
    as (Hf2 & Ht2 & _).
  apply shutil_disk_usage_free_ok in Hfree as ->.
  destruct (Z.ltb_spec (disk_free wa) (Z.of_nat (length (raw d0)) * 2)).
  { rewrite report_and_raise_eq in H. inversion H; subst; simpl.
    left. split; congruence. }
  assert (Hroom : ∃ d, files w !! p = Some d ∧
                      (2 * Z.of_nat (length (raw d)) ≤ disk_free w)%Z).
  { exists d0. split; [done |]. rewrite <- Hd1. lia. }
  bind_any H as u wc Hcopy.
  2: { apply shutil_copy2_inv in Hcopy as (Ht3 & _ & _ & _ & _ & Hf3).
       right. split; [congruence |]. split; [done |].
       destruct Hf3 as [Hf3 | [d Hf3]]; [left | right; exists d]; congruence. }
  apply shutil_copy2_inv in Hcopy as (Ht3 & _ & _ & _ & _ & fd & d & Hfd & Hf3 & Hd).
  assert (fd = d0) as -> by (rewrite Hf2, Hf1, Hd0 in Hfd; congruence).
  unfold bind at 1 in H. rewrite os_path_exists_eq in H.
  assert (Hbp : files wc !! bp = Some d) by (rewrite Hf3; apply lookup_insert_eq).
  rewrite Hbp in H. simpl in H.
  bind_any H as mismatch wd Hverify.
  2: { bind_any Hverify as sz' we Hsz'; [ret_inv Hverify |].
       apply (keeps_os_path_getsize same_disk same_disk_plan) in Hsz'
         as (Hf4 & Ht4 & _).
       right. split; [congruence |]. split; [done |]. right; exists d. congruence. }
  bind_any Hverify as sz' we Hsz'. ret_inv Hverify.
  pose proof (keeps_os_path_getsize same_disk same_disk_plan _ _ _ _ Hsz')
    as (Hf4 & Ht4 & _).
  apply os_path_getsize_ok in Hsz' as (d' & Hd' & ->).
  assert (d' = d) as -> by congruence.
  destruct (Z.eqb_spec (Z.of_nat (length (raw d))) (Z.of_nat (length (raw d0))))
    as [Heq | Hneq]; simpl in H.
  - ret_inv H. split; [done |]. exists d0.
    destruct Hd as [-> | Hlt]; [| lia].
    repeat split; try congruence. lia.
  - rewrite report_and_raise_eq in H. inversion H; subst; simpl.
    right. split; [congruence |]. split; [done |]. right; exists d. congruence.
Qed.

Lemma backup_original_inv p w r w1 :
  backup_original p w = (r, w1) →
  let bp := backup_path_of p (clock w) in
  match r with
  | Ok bp' =>
      bp' = bp ∧
      ∃ d0, files w !! p = Some d0 ∧ files w1 = <[bp := d0]> (files w) ∧
            trace w1 = trace w ++ [Copied p bp] ∧
            (2 * Z.of_nat (length (raw d0)) ≤ disk_free w)%Z
  | Err _ =>
      (files w1 = files w ∧ trace w1 = trace w) ∨
      (trace w1 = trace w ++ [Copied p bp] ∧
       (∃ d0, files w !! p = Some d0 ∧
              (2 * Z.of_nat (length (raw d0)) ≤ disk_free w)%Z) ∧
       (files w1 = files w ∨ ∃ d, files w1 = <[bp := d]> (files w)))
  end.
Proof.
  intros H bp. unfold backup_original in H.
  unfold bind at 1 in H. rewrite os_path_exists_eq in H.
  destruct (negb _).
  { rewrite report_and_raise_eq in H. inversion H; subst. by left. }
  unfold bind at 1, time_time in H.
  apply try_except_inv in H as [(a & H & ->) | (e & w2 & H & Hh)].
  - by apply backup_checks_inv in H; [| apply backup_path_of_ne].
  - apply backup_checks_inv in H; [| apply backup_path_of_ne].
    assert (files w1 = files w2 ∧ trace w1 = trace w2 ∧ ∃ e', r = Err e')
      as (-> & -> & e' & ->); [| done].
    destruct (is_OSError _); rewrite report_and_raise_eq in Hh;
      inversion Hh; subst; eauto.
Qed.

(** *** The anatomy of apply_metadata *)

(** A run is rejected before the backup, or fails in the backup, or enters
    the block that mutates the file with the backup made. *)
Lemma apply_metadata_inv p info w r w' :
  apply_metadata p info w = (r, w') →
  let v := validate_mp3_file p w in
  ((∃ e, r = Err e) ∧ same_disk w w' ∧
   ¬ (v.1 = Ok true ∧ DataModels.validate info = [])) ∨
  (v.1 = Ok true ∧ DataModels.validate info = [] ∧
   ∃ rb w1, backup_original p v.2 = (rb, w1) ∧
     match rb with
     | Err e =>
         let error :=
           mkMetadataError
             ("Failed to create backup before metadata modification: " +:+ str e)
             (Some p) in
         r = Err error ∧
         w' = with_error_history (error_history w1 ++ [(error, "apply_metadata")]) w1
     | Ok bp =>
         try_except (apply_changes p info bp) (restore_backup p bp) w1 = (r, w')
     end).
Proof.
  intros H v. unfold apply_metadata in H.
  unfold bind at 1 in H. rewrite os_path_exists_eq in H.
  destruct (files w !! p) as [fd|] eqn:Hfd; simpl in H.
  2: { rewrite report_and_raise_eq in H. inversion H; subst. left.
       split; [eauto |]. split; [apply same_disk_log |]. intros [Hv _].
       pose proof (validate_mp3_file_returns p w) as (b & w0 & Hb).
       destruct b; [| subst v; rewrite Hb in Hv; discriminate].
       apply validate_mp3_file_true in Hb as (? & ? & ? & ? & _). congruence. }
  unfold bind at 1 in H. subst v.
  destruct (validate_mp3_file p w) as [[b|e] w0] eqn:Hv; simpl.
  2: { inversion H; subst. left. split; [eauto |].
       split; [by eapply validate_mp3_file_same_disk |]. by intros [? _]. }
  pose proof (validate_mp3_file_same_disk _ _ _ _ Hv) as Hsame.
  destruct b; simpl in H.
  2: { rewrite report_and_raise_eq in H. inversion H; subst. left.
       split; [eauto |]. split; [| by intros [? _]].
       etransitivity; [exact Hsame | apply same_disk_log]. }
  destruct (bool_decide_reflect (DataModels.validate info = [])) as [Hinfo | Hinfo];
    simpl in H.
  2: { rewrite report_and_raise_eq in H. inversion H; subst. left.
       split; [eauto |]. split; [| by intros [_ ?]].
       etransitivity; [exact Hsame | apply same_disk_log]. }
  right. split; [done |]. split; [done |].
  unfold bind at 1 in H. unfold try_except at 1 in H.
  destruct (backup_original p w0) as [[bp|e] w1] eqn:Hb.
  - exists (Ok bp), w1. done.
  - exists (Err e), w1. rewrite report_and_raise_eq in H. inversion H; subst. done.
Qed.

Lemma truthy_backup_path_of p t : truthy (backup_path_of p t) = true.
Proof.
  unfold truthy, backup_path_of. destruct (String.eqb_spec (p +:+ ".backup." +:+ Py.str_int t) "") as [H|]; [| done].
  apply (f_equal String.length) in H. rewrite !length_append in H.
  simpl in H. lia.
Qed.

(** The handler, when the backup is on disk: the move is attempted, and the
    outcome is the ordinary failure (the target holding the backup's
    content) or the critical one. *)
Lemma restore_backup_inv p bp e w r w' d :
  bp ≠ p → truthy bp = true → files w !! bp = Some d →
  restore_backup p bp e w = (r, w') →
  trace w' = trace w ++ [Moved bp p] ∧
  ((r = Err (mkMetadataError (failure_message p e) (Some p)) ∧
    files w' = delete bp (<[p := d]> (files w)) ∧
    error_history w' =
      error_history w ++ [(mkMetadataError (failure_message p e) (Some p), "apply_metadata")]) ∨
   (∃ restore_error,
      r = Err (mkMetadataError (critical_message e restore_error) (Some p)) ∧
      (files w' = files w ∨ ∃ d', files w' = <[p := d']> (files w)) ∧
      error_history w' =
        error_history w ++
          [(mkMetadataError (critical_message e restore_error) (Some p), "apply_metadata")])).
Proof.
  intros Hne Ht Hd H. unfold restore_backup, backup_present in H. rewrite Ht in H.
  unfold bind at 1 in H. rewrite os_path_exists_eq, Hd in H. simpl in H.
  unfold bind at 1, try_except at 1 in H.
  destruct (shutil_move bp p w) as [[u|er] w1] eqn:Hm.
  - apply shutil_move_inv in Hm as (Htr & Hh & fd & Hfd & Hf).
    rewrite report_and_raise_eq in H. inversion H; subst; simpl.
    split; [done |]. left. repeat split; congruence.
  - apply shutil_move_inv in Hm as (Htr & Hh & Hf).
    rewrite report_and_raise_eq in H. inversion H; subst; simpl.
    split; [done |]. right. exists er. repeat split; [done | congruence].
Qed.

(** *** The mutation block *)

Lemma preserve_existing_id existing t : preserve_existing existing t = t.
Proof.
  unfold preserve_existing.
  by apply (map_fold_weak_ind (λ r _, r = t)).
Qed.

Lemma read_tags_ok p w m w' :
  read_tags p w = (Ok m, w') →
  ∃ fd a, files w !! p = Some fd ∧ media fd = Ok a ∧
          metadata_of_tags (tags a) = Ok m.
Proof.
  intros H. unfold read_tags in H. bind_any H as a wa Hmp3.
  apply MP3_ok in Hmp3 as (fd & Hfd & Hmedia).
  unfold lift in H. inversion H; subst. eauto.
Qed.

Lemma read_metadata_ok p w m w' :
  read_metadata p w = (Ok m, w') →
  ∃ fd a, files w !! p = Some fd ∧ media fd = Ok a ∧
          metadata_of_tags (tags a) = Ok m.
Proof.
  intros H. unfold read_metadata in H.
  unfold bind at 1 in H. rewrite os_path_exists_eq in H.
  destruct (negb _); [by rewrite report_and_raise_eq in H |].
  bind_any H as valid wa Hv.
  apply validate_mp3_file_same_disk in Hv as (Hf & _).
  destruct (negb valid); [by rewrite report_and_raise_eq in H |].
  apply try_except_inv in H as [(m' & H & Hm) | (e & wb & _ & H)].
  - inversion Hm; subst m'. apply read_tags_ok in H as (fd & a & ? & ? & ?).
    exists fd, a. rewrite <- Hf. done.
  - destruct (is_MutagenError _); by rewrite report_and_raise_eq in H.
Qed.

Lemma read_metadata_same_disk p w r w' :
  read_metadata p w = (r, w') → same_disk w w'.
Proof. apply (keeps_read_metadata same_disk same_disk_plan same_disk_log). Qed.

(** Every way the mutation block can end.  [bs] stands for the bytes that
    [save()] wrote. *)
Lemma apply_changes_inv p fields bp w r w' :
  bp ≠ p →
  apply_changes p fields bp w = (r, w') →
  (∃ e, r = Err e ∧ files w' = files w ∧ trace w' = trace w) ∨
  (∃ e, r = Err e ∧ trace w' = trace w ++ [Saved p] ∧
        (files w' = files w ∨ ∃ d, files w' = <[p := d]> (files w))) ∨
  (∃ fd a existing bs,
     files w !! p = Some fd ∧ media fd = Ok a ∧
     metadata_of_tags (tags a) = Ok existing ∧
     let saved :=
       mkFileData bs
         (Ok (mkAudio (info a) (Some (set_user_tags fields (default ∅ (tags a)))))) in
     ((r = Err (mkMetadataError "File became invalid after metadata application" None) ∧
       files w' = <[p := saved]> (files w) ∧ trace w' = trace w ++ [Saved p]) ∨
      ((Py.endswith (Py.lower p) ".mp3" = true ∧ (1024 ≤ length bs)%nat ∧
        (∃ len, info a = Some len ∧ 0 < len) ∧
        header_has_signature (take 10 bs) = true) ∧
       ((∃ e, r = Err e ∧ files w' = <[p := saved]> (files w) ∧
              trace w' = trace w ++ [Saved p; Removed bp]) ∨
        (r = Ok true ∧ (truthy bp = false ∨ files w !! bp = None) ∧
         files w' = <[p := saved]> (files w) ∧ trace w' = trace w ++ [Saved p]) ∨
        (r = Ok true ∧ files w' = delete bp (<[p := saved]> (files w)) ∧
         trace w' = trace w ++ [Saved p; Removed bp]))))).
Proof.
  intros Hne H. unfold apply_changes in H.
  bind_any H as existing wa Hread.
  2: { left. apply read_metadata_same_disk in Hread as (? & ? & _). eauto. }
  pose proof (read_metadata_same_disk _ _ _ _ Hread) as (Hf1 & Ht1 & _).
  apply read_metadata_ok in Hread as (fd & a & Hfd & Hmedia & Hex).
  bind_any H as a' wb Hmp3.
  2: { left. apply (keeps_MP3 same_disk same_disk_plan) in Hmp3 as (? & ? & _).
       exists e. split; [done |]. split; congruence. }
  pose proof (keeps_MP3 same_disk same_disk_plan _ _ _ _ Hmp3) as (Hf2 & Ht2 & _).
  apply MP3_ok in Hmp3 as (fd' & Hfd' & Hmedia').
  assert (fd' = fd) as -> by congruence.
  assert (a' = a) as -> by congruence.
  rewrite preserve_existing_id in H.
  bind_any H as u wc Hsave.
  2: { right; left. apply mutagen_save_inv in Hsave as (Ht3 & _ & Hf3).
       exists e. split; [done |]. split; [congruence |].
       destruct Hf3 as [Hf3 | [d Hf3]]; [left | right; exists d]; congruence. }
  apply mutagen_save_inv in Hsave as (Ht3 & _ & fd' & Hfd'' & Hf3).
  assert (fd' = fd) as -> by congruence.
  right; right.
  exists fd, a, existing, (mutagen_render wb
    {| info := info a;
       tags := Some (set_user_tags fields match tags a with Some t => t | None => ∅ end) |}
    (raw fd)).
  split; [done |]. split; [done |]. split; [done |].
  assert (Hdef : default ∅ (tags a) = match tags a with Some t => t | None => ∅ end)
    by (by destruct (tags a)).
  simpl. rewrite Hdef. clear Hdef.
  set (saved := mkFileData _ _) in *.
  assert (Hfc : files wc = <[p := saved]> (files w)) by congruence.
  assert (Htc : trace wc = trace w ++ [Saved p]) by congruence.
  clear Hf3 Ht3 Hfd'' Hfd' Hf2 Ht2 Hf1 Ht1 Hmedia'.
  bind_any H as valid wd Hv.
  2: { destruct (validate_mp3_file_returns p wc) as (? & ? & Hv'). congruence. }
  pose proof (validate_mp3_file_same_disk _ _ _ _ Hv) as (Hf4 & Ht4 & _).
  destruct valid; simpl in H.
  2: { left. ret_inv H. repeat split; congruence. }
  right.
  apply validate_mp3_file_true in Hv
    as (fs & a2 & len & Hfs & Hext & Hlen & Hm2 & Hinfo & Hpos & Hsig).
  rewrite Hfc, lookup_insert_eq in Hfs. inversion Hfs; subst fs; clear Hfs.
  simpl in *. inversion Hm2; subst a2; clear Hm2. simpl in Hinfo.
  split; [eauto 10 |].
  unfold backup_present in H. unfold bind at 1 in H.
  destruct (truthy bp) eqn:Htruthy.
  - rewrite os_path_exists_eq in H.
    destruct (files wd !! bp) as [dbp|] eqn:Hbp; simpl in H.
    + bind_any H as u' we Hrm.
      * apply os_remove_inv in Hrm as (Ht5 & _ & Hf5). ret_inv H.
        right; right. repeat split; try congruence.
        by rewrite Ht5, Ht4, Htc, <- app_assoc.
      * apply os_remove_inv in Hrm as (Ht5 & _ & Hf5).
        left. exists e. repeat split; try congruence.
        by rewrite Ht5, Ht4, Htc, <- app_assoc.
    + unfold bind, ret in H. inversion H; subst.
      right; left. repeat split; try congruence.
      right. rewrite Hf4, Hfc, lookup_insert_ne in Hbp by done. done.
  - unfold ret, bind in H. inversion H; subst.
    right; left. repeat split; try congruence. by left.
Qed.

Lemma prefix_append pre x : String.prefix pre (pre +:+ x) = true.
Proof.
  induction pre as [|c pre IH]; simpl; [by destruct x |].
  destruct (ascii_dec c c); [done | congruence].
Qed.

(** The block and its handler together, entered with the backup [d] on
    disk: the call succeeds, or fails with the target restored from the
    backup, or fails with the restore itself having failed. *)
Lemma mutation_block_inv p fields bp w d r w' :
  bp ≠ p → truthy bp = true → files w !! bp = Some d →
  try_except (apply_changes p fields bp) (restore_backup p bp) w = (r, w') →
  (r = Ok true ∧ apply_changes p fields bp w = (Ok true, w')) ∨
  (∃ events,
     trace w' = trace w ++ events ++ [Moved bp p] ∧
     (events = [] ∨ events = [Saved p] ∨ events = [Saved p; Removed bp]) ∧
     ((∃ e,
         r = Err (mkMetadataError (failure_message p e) (Some p)) ∧
         files w' !! p = Some d ∧ files w' !! bp = None ∧
         (∀ q, q ≠ p → q ≠ bp → files w' !! q = files w !! q) ∧
         last (error_history w') =
           Some (mkMetadataError (failure_message p e) (Some p), "apply_metadata")) ∨
      (∃ e restore_error,
         r = Err (mkMetadataError (critical_message e restore_error) (Some p)) ∧
         files w' !! bp = Some d ∧
         (∀ q, q ≠ p → files w' !! q = files w !! q) ∧
         last (error_history w') =
           Some (mkMetadataError (critical_message e restore_error) (Some p),
                 "apply_metadata")))).
Proof.
  intros Hne Ht Hd H.
  apply try_except_inv in H as [(b & H & ->) | (e & w2 & H & Hh)].
  { left. pose proof H as H'.
    apply apply_changes_inv in H' as
      [(? & ? & _) | [(? & ? & _) | (? & ? & ? & ? & _ & _ & _ & Hc)]];
      try discriminate; [| done].
    simpl in Hc.
    destruct Hc as [(? & _) | (_ & [(? & ? & _) | [(Hb & _) | (Hb & _)]])];
      try discriminate; inversion Hb; by subst. }
  right.
  assert (Hw2 : ∃ events,
    trace w2 = trace w ++ events ∧
    (events = [] ∨ events = [Saved p] ∨ events = [Saved p; Removed bp]) ∧
    (files w2 = files w ∨ ∃ x, files w2 = <[p := x]> (files w))).
  { apply apply_changes_inv in H as
      [(? & _ & Hf & Htr) | [(? & _ & Htr & Hf) | (? & ? & ? & bs & _ & _ & _ & Hc)]];
      [| | | done].
    - exists []. rewrite app_nil_r. split_and!; eauto.
    - exists [Saved p]. split_and!; eauto.
    - simpl in Hc.
      destruct Hc as [(_ & Hf & Htr) | (_ & [(? & _ & Hf & Htr) | [(? & _) | (? & _)]])];
        try discriminate.
      + exists [Saved p]. split_and!; eauto.
      + exists [Saved p; Removed bp]. split_and!; eauto. }
  destruct Hw2 as (events & Htr & Hev & Hf).
  assert (Hd2 : files w2 !! bp = Some d).
  { destruct Hf as [-> | [x ->]]; [done | by rewrite lookup_insert_ne]. }
  assert (Hother : ∀ q, q ≠ p → files w2 !! q = files w !! q).
  { intros q Hq. destruct Hf as [-> | [x ->]]; [done | by rewrite lookup_insert_ne]. }
  apply (restore_backup_inv _ _ _ _ _ _ d) in Hh as (Htr' & Hcases); [| done..].
  exists events. split; [by rewrite Htr', Htr, <- app_assoc |]. split; [done |].
  destruct Hcases as [(-> & Hf' & Hlog) | (er & -> & Hf' & Hlog)].
  - left. exists e. split; [done |]. rewrite Hf'.
    split; [by rewrite lookup_delete_ne, lookup_insert_eq |].
    split; [by rewrite lookup_delete_eq |].
    split; [| by rewrite Hlog, last_snoc].
    intros q Hq Hq'. rewrite lookup_delete_ne, lookup_insert_ne by done. auto.
  - right. exists e, er. split; [done |].
    split; [| split; [| by rewrite Hlog, last_snoc]].
    + destruct Hf' as [-> | [x ->]]; [done | by rewrite lookup_insert_ne].
    + intros q Hq.
      destruct Hf' as [-> | [x ->]]; [auto | rewrite lookup_insert_ne by done; auto].
Qed.

Lemma validate_mp3_file_run p w :
  same_disk w (validate_mp3_file p w).2.
Proof.
  destruct (validate_mp3_file p w) as [r w0] eqn:Hv.
  by eapply validate_mp3_file_same_disk.
Qed.

(** C4.  When the free space on the volume is less than twice the size of
    the target file, [apply_metadata] raises, the disk is left exactly as
    it was and no write has been attempted: the check precedes the copy.
    When the file and the fields are valid, the error raised is the
    backup failure. *)
Theorem insufficient_space_fails_before_copy
    (file_path : string) (fields : DataModels.MetadataInfo) (w : World)
    (fd : FileData) :
  files w !! file_path = Some fd →
  (disk_free w < 2 * Z.of_nat (length (raw fd)))%Z →
  ∃ e w',
    apply_metadata file_path fields w = (Err e, w') ∧
    files w' = files w ∧ trace w' = trace w ∧
    ((validate_mp3_file file_path w).1 = Ok true →
     DataModels.validate fields = [] →
     exn_class e = MetadataError ∧ backup_failed e = true).
Proof.
  intros Hfd Hfree.
  destruct (apply_metadata file_path fields w) as [r w'] eqn:H.
  apply apply_metadata_inv in H
    as [([e ->] & (Hf & Ht & _) & Hnot) | (Hv & Hfields & rb & w1 & Hb & Hrb)].
  { exists e, w'. split_and!; try done. intros ? ?. by destruct Hnot. }
  pose proof (validate_mp3_file_run file_path w) as (Hf0 & Ht0 & Hd0 & _).
  apply backup_original_inv in Hb. simpl in Hb.
  assert (Hroom : ∀ d0, files (validate_mp3_file file_path w).2 !! file_path = Some d0 →
    (2 * Z.of_nat (length (raw d0)) ≤ disk_free (validate_mp3_file file_path w).2)%Z →
    False).
  { intros d0 Hd Hle. rewrite Hf0, Hfd in Hd. inversion Hd; subst. lia. }
  destruct rb as [bp | e].
  { destruct Hb as (_ & d0 & Hd & _ & _ & Hle). by destruct (Hroom d0). }
  destruct Hrb as (-> & ->). eexists _, _. split; [done |]. simpl.
  destruct Hb as [(Hf1 & Ht1) | (_ & (d0 & Hd & Hle) & _)];
    [| by destruct (Hroom d0)].
  split_and!; try congruence. intros _ _. split; [done |].
  unfold backup_failed. simpl. apply prefix_append.
Qed.

Ltac elem_of_events H :=
  repeat first
    [ apply elem_of_cons in H as [H | H]
    | apply elem_of_app in H as [H | H]
    | (apply elem_of_nil in H; destruct H) ];
  try (inversion H; subst); done.

(** C3.  In every run of [apply_metadata], whatever faults are injected:
    a write of the target's tags ([save]) only ever follows, in the trace
    of the run, the copy made by a [backup_original] that returned, with
    the backup on disk at the size of the original and the target still
    untouched; and when [backup_original] raises, the call raises, no
    write of the tags has been attempted and the target is as it was. *)
Theorem backup_precedes_write
    (file_path : string) (fields : DataModels.MetadataInfo) (w : World)
    (r : Result bool) (w' : World) :
  apply_metadata file_path fields w = (r, w') →
  let w0 := (validate_mp3_file file_path w).2 in
  ∃ events,
    trace w' = trace w ++ events ∧
    (∀ q, Saved q ∈ events →
       q = file_path ∧
       ∃ backup_path w1 original copy rest,
         backup_original file_path w0 = (Ok backup_path, w1) ∧
         events = Copied file_path backup_path :: rest ∧
         files w !! file_path = Some original ∧
         files w1 !! file_path = Some original ∧
         files w1 !! backup_path = Some copy ∧
         length (raw copy) = length (raw original)) ∧
    (∀ e w1,
       backup_original file_path w0 = (Err e, w1) →
       (∃ e', r = Err e') ∧
       (∀ q, Saved q ∉ events) ∧
       files w' !! file_path = files w !! file_path).
Proof.
  intros H w0.
  pose proof (validate_mp3_file_run file_path w) as (Hf0 & Ht0 & _).
  fold w0 in Hf0, Ht0.
  apply apply_metadata_inv in H
    as [([e ->] & (Hf & Ht & _) & Hnot) | (Hv & Hfields & rb & w1 & Hb & Hrb)].
  { exists []. rewrite app_nil_r. split; [done |]. split.
    - intros q Hq. by apply elem_of_nil in Hq.
    - intros _ _ _. split_and!; [eauto | | by rewrite Hf].
      intros q Hq. by apply elem_of_nil in Hq. }
  fold w0 in Hb. pose proof Hb as Hb'. apply backup_original_inv in Hb'.
  simpl in Hb'. set (bp := backup_path_of file_path (clock w0)) in *.
  assert (Hne : bp ≠ file_path) by apply backup_path_of_ne.
  destruct rb as [bp' | e].
  - destruct Hb' as (-> & d0 & Hd0 & Hf1 & Ht1 & _).
    assert (Hbp : files w1 !! bp = Some d0) by (rewrite Hf1; apply lookup_insert_eq).
    apply (mutation_block_inv _ _ _ _ d0) in Hrb
      as [(-> & Hok) | (events & Htr & Hev & _)];
      [| | done | apply truthy_backup_path_of | done].
    + apply apply_changes_inv in Hok
        as [(? & ? & _) | [(? & ? & _) | (? & ? & ? & ? & _ & _ & _ & Hc)]];
        try discriminate; [| done].
      simpl in Hc.
      assert (Hevents : ∃ rest, trace w' = trace w1 ++ rest ∧
                (rest = [Saved file_path] ∨ rest = [Saved file_path; Removed bp])).
      { destruct Hc as [(? & _) | (_ & [(? & ? & _) | [(_ & _ & _ & Htr) | (_ & _ & Htr)]])];
          try discriminate; eauto. }
      destruct Hevents as (rest & Htr & Hrest).
      exists (Copied file_path bp :: rest). split.
      { rewrite Htr, Ht1, Ht0, <- app_assoc. done. }
      split; [| intros; congruence].
      intros q Hq. split.
      { destruct Hrest as [-> | ->]; elem_of_events Hq. }
      exists bp, w1, d0, d0, rest. split_and!; try done.
      * by rewrite <- Hf0.
      * by rewrite Hf1, lookup_insert_ne.
    + exists (Copied file_path bp :: events ++ [Moved bp file_path]). split.
      { rewrite Htr, Ht1, Ht0, <- !app_assoc. done. }
      split; [| intros; congruence].
      intros q Hq. split.
      { destruct Hev as [-> | [-> | ->]]; elem_of_events Hq. }
      exists bp, w1, d0, d0, (events ++ [Moved bp file_path]). split_and!; try done.
      * by rewrite <- Hf0.
      * by rewrite Hf1, lookup_insert_ne.
  - destruct Hrb as (-> & ->). simpl.
    destruct Hb' as [(Hf1 & Ht1) | (Ht1 & _ & Hf1)].
    + exists []. rewrite app_nil_r. split; [congruence |]. split.
      * intros q Hq. by apply elem_of_nil in Hq.
      * intros _ _ _. split_and!; [eauto | | by rewrite Hf1, Hf0].
        intros q Hq. by apply elem_of_nil in Hq.
    + exists [Copied file_path bp]. split; [congruence |]. split.
      * intros q Hq. elem_of_events Hq.
      * intros _ _ _. split_and!; [eauto | intros q Hq; elem_of_events Hq |].
        destruct Hf1 as [-> | [d ->]]; [by rewrite Hf0 |].
        by rewrite lookup_insert_ne, Hf0.
Qed.

Lemma restore_failed_critical e restore_error fp :
  restore_failed (mkMetadataError (critical_message e restore_error) fp) = true.
Proof. reflexivity. Qed.

Lemma mutation_failed_critical e restore_error fp :
  mutation_failed (mkMetadataError (critical_message e restore_error) fp) = false.
Proof. reflexivity. Qed.

Lemma mutation_failed_failure p e fp :
  mutation_failed (mkMetadataError (failure_message p e) fp) = true.
Proof. apply prefix_append. Qed.

Lemma restore_failed_failure p e fp :
  restore_failed (mkMetadataError (failure_message p e) fp) = false.
Proof. reflexivity. Qed.

(** The handler when the move raises: the critical error is reported and
    raised, and nothing more is written. *)
Lemma restore_backup_move_raises p bp e w d restore_error w1 :
  truthy bp = true → files w !! bp = Some d →
  shutil_move bp p w = (Err restore_error, w1) →
  let critical := mkMetadataError (critical_message e restore_error) (Some p) in
  restore_backup p bp e w =
    (Err critical,
     with_error_history (error_history w1 ++ [(critical, "apply_metadata")]) w1).
Proof.
  intros Ht Hd Hm. unfold restore_backup, backup_present. rewrite Ht.
  unfold bind at 1. rewrite os_path_exists_eq, Hd. simpl.
  unfold bind at 1, try_except at 1. by rewrite Hm.
Qed.

(** C1, as amended.  When the file and the fields are valid, the backup
    has been created, and [apply_metadata] then raises an error other than
    the failure of the restore, the target holds what it held before the
    call: the backup has been moved over it, which is the last write of
    the run, and the backup path is gone.  The error is the ordinary
    mutation failure. *)
Theorem rollback_restores_target
    (file_path : string) (fields : DataModels.MetadataInfo) (w : World)
    (e : Exn) (w' : World) (backup_path : string) (w1 : World) :
  apply_metadata file_path fields w = (Err e, w') →
  (validate_mp3_file file_path w).1 = Ok true →
  DataModels.validate fields = [] →
  backup_original file_path (validate_mp3_file file_path w).2 = (Ok backup_path, w1) →
  restore_failed e = false →
  files w' !! file_path = files w !! file_path ∧
  files w' !! backup_path = None ∧
  (∃ events, trace w' = trace w1 ++ events ++ [Moved backup_path file_path]) ∧
  mutation_failed e = true.
Proof.
  intros H Hvalid Hfields Hbackup Hnot.
  pose proof (validate_mp3_file_run file_path w) as (Hf0 & _).
  apply apply_metadata_inv in H
    as [(_ & _ & Hrej) | (_ & _ & rb & w1' & Hb & Hrb)]; [by destruct Hrej |].
  rewrite Hbackup in Hb. inversion Hb; subst rb w1'; clear Hb.
  apply backup_original_inv in Hbackup as (-> & d0 & Hd0 & Hf1 & _).
  set (bp := backup_path_of _ _) in *.
  assert (Hne : bp ≠ file_path) by apply backup_path_of_ne.
  apply (mutation_block_inv _ _ _ _ d0) in Hrb
    as [(? & _) | (events & Htr & _ & Hcases)];
    [discriminate | | done | apply truthy_backup_path_of
    | rewrite Hf1; apply lookup_insert_eq].
  destruct Hcases as [(e0 & He & Hp & Hbp & _) | (e0 & er & He & _)].
  - inversion He; subst e.
    split_and!; eauto using mutation_failed_failure. by rewrite Hp, <- Hf0.
  - inversion He; subst e. by rewrite restore_failed_critical in Hnot.
Qed.

(** C8, as amended.  Take any run of [apply_metadata] whose last write is
    the move of the backup over the target while the backup is still on
    disk, that is, a run in which the restore itself failed.  The call
    raises: overall failure.  The error raised is the last one given to
    the error handler, under the context of [apply_metadata]: it is
    reported, and the ordinary failure is not reported after it.  Its
    message is the critical one, which quotes the original and the
    restore error, and is the message of no ordinary mutation failure.
    That message is all that tells the two apart: class, error code, file
    path, the level at which the handler logs and whether it lets the user
    retry are those of an ordinary mutation failure.  The backup still
    holds the bytes the target had before the call. *)
Theorem restore_failure_differs_by_message_only
    (file_path : string) (fields : DataModels.MetadataInfo) (w : World)
    (r : Result bool) (w' : World) (events : list Event) (backup_path : string) :
  apply_metadata file_path fields w = (r, w') →
  trace w' = trace w ++ events →
  last events = Some (Moved backup_path file_path) →
  is_Some (files w' !! backup_path) →
  ∃ e restore_error,
    let critical :=
      mkMetadataError (critical_message e restore_error) (Some file_path) in
    r = Err critical ∧
    last (error_history w') = Some (critical, "apply_metadata") ∧
    exn_message critical =
      "Critical error: Failed to restore backup after metadata failure. Original error: "
        +:+ str e +:+ ", Restore error: " +:+ str restore_error ∧
    files w' !! backup_path = files w !! file_path ∧
    ∀ e',
      let ordinary :=
        mkMetadataError (failure_message file_path e') (Some file_path) in
      exn_message critical ≠ exn_message ordinary ∧
      exn_class critical = exn_class ordinary ∧
      exn_error_code critical = exn_error_code ordinary ∧
      exn_file_path critical = exn_file_path ordinary ∧
      ErrorHandler.log_level critical = ErrorHandler.log_level ordinary ∧
      ErrorHandler.is_recoverable_error critical =
        ErrorHandler.is_recoverable_error ordinary.
Proof.
  intros H Htrace Hlast Hstill.
  pose proof (validate_mp3_file_run file_path w) as (Hf0 & Ht0 & _).
  apply apply_metadata_inv in H
    as [(_ & (_ & Ht & _) & _) | (_ & _ & rb & w1 & Hb & Hrb)].
  { rewrite Ht in Htrace. rewrite <- (app_nil_r (trace w)) in Htrace at 1.
    apply app_inv_head in Htrace. by subst events. }
  apply backup_original_inv in Hb. simpl in Hb.
  set (bp := backup_path_of _ _) in *.
  assert (Hne : bp ≠ file_path) by apply backup_path_of_ne.
  destruct rb as [bp' | e].
  2: { destruct Hrb as (_ & ->). simpl in Htrace.
       destruct Hb as [(_ & Ht1) | (Ht1 & _)]; rewrite Ht1, Ht0 in Htrace.
       - rewrite <- (app_nil_r (trace w)) in Htrace at 1.
         apply app_inv_head in Htrace. by subst events.
       - apply app_inv_head in Htrace. by subst events. }
  destruct Hb as (-> & d0 & Hd0 & Hf1 & Ht1 & _).
  apply (mutation_block_inv _ _ _ _ d0) in Hrb
    as [(-> & Hok) | (events' & Htr & _ & Hcases)];
    [| | done | apply truthy_backup_path_of
     | rewrite Hf1; apply lookup_insert_eq].
  { apply apply_changes_inv in Hok
      as [(? & ? & _) | [(? & ? & _) | (? & ? & ? & ? & _ & _ & _ & Hc)]];
      try discriminate; [| done].
    simpl in Hc.
    destruct Hc as [(? & _) | (_ & [(? & ? & _) | [(_ & _ & _ & Htr) | (_ & _ & Htr)]])];
      try discriminate; rewrite Htr, Ht1, Ht0, <- app_assoc in Htrace;
      apply app_inv_head in Htrace; by subst events. }
  rewrite Htr, Ht1, Ht0, <- app_assoc in Htrace.
  apply app_inv_head in Htrace. subst events.
  rewrite app_assoc, last_snoc in Hlast. inversion Hlast; subst backup_path.
  destruct Hcases as [(e0 & _ & _ & Hgone & _) | (e0 & er & -> & Hkept & _ & Hlog)].
  { rewrite Hgone in Hstill. by destruct Hstill. }
  exists e0, er. split_and!; try done.
  rewrite Hkept. rewrite Hf0 in Hd0. by rewrite Hd0.
Qed.

(** *** What a later read returns *)

Lemma read_key_other t key m m' k :
  read_key t key m = Ok m' → k ≠ key → m' !! k = m !! k.
Proof.
  unfold read_key. destruct (t !! key) as [f|]; [| by inversion 1].
  destruct (frame_str f); inversion 1; subst. intros ?.
  by rewrite lookup_insert_ne.
Qed.

Lemma other_tags_user_key t k : k ∈ user_keys → other_tags t !! k = None.
Proof.
  intros Hk. unfold other_tags. rewrite lookup_omap.
  rewrite (proj2 (map_lookup_filter_None _ _ _)); [done |].
  right. intros x _ Hnot. by apply Hnot.
Qed.

Lemma other_tags_set_user_tags fields t :
  other_tags (set_user_tags fields t) = other_tags t.
Proof.
  unfold other_tags, set_user_tags. f_equal.
  rewrite !map_filter_insert_not; [done | ..];
    intros y Hy; apply Hy; simpl; unfold user_keys; set_solver.
Qed.

Lemma read_key_text t key enc text m :
  t !! key = Some (TextFrame enc text) →
  read_key t key m = Ok (<[key := text]> m).
Proof. intros H. unfold read_key. by rewrite H. Qed.

(** The dictionary read from the tags after the four assignments is the
    dictionary read before them with the four keys set to the new values. *)
Lemma metadata_of_tags_set_user_tags fields t existing :
  metadata_of_tags t = Ok existing →
  metadata_of_tags (Some (set_user_tags fields (default ∅ t))) =
  Ok (<["TRCK" := Py.str_int (DataModels.track_number fields)]>
        (<["TALB" := DataModels.album fields]>
           (<["TIT2" := DataModels.title fields]>
              (<["TPE1" := DataModels.artist fields]> existing)))).
Proof.
  intros Hex. unfold metadata_of_tags at 1.
  rewrite bool_decide_eq_false_2 by (unfold set_user_tags; apply insert_non_empty).
  set (t0 := default ∅ t).
  rewrite (read_key_text _ "TPE1" 3 (DataModels.artist fields))
    by (unfold set_user_tags; by simplify_map_eq).
  unfold mbind, Result_bind.
  rewrite (read_key_text _ "TIT2" 3 (DataModels.title fields))
    by (unfold set_user_tags; by simplify_map_eq).
  rewrite (read_key_text _ "TALB" 3 (DataModels.album fields))
    by (unfold set_user_tags; by simplify_map_eq).
  rewrite (read_key_text _ "TRCK" 3 (Py.str_int (DataModels.track_number fields)))
    by (unfold set_user_tags; by simplify_map_eq).
  rewrite other_tags_set_user_tags. f_equal.
  assert (Hother : ∀ k, k ∉ user_keys → existing !! k = other_tags t0 !! k).
  { intros k Hk. unfold metadata_of_tags in Hex. subst t0.
    destruct t as [t|]; simpl; [| by inversion Hex].
    destruct (bool_decide_reflect (t = ∅)) as [-> | _]; [by inversion Hex |].
    unfold mbind, Result_bind in Hex.
    destruct (read_key t "TPE1" ∅) as [m1|] eqn:H1; [| done].
    destruct (read_key t "TIT2" m1) as [m2|] eqn:H2; [| done].
    destruct (read_key t "TALB" m2) as [m3|] eqn:H3; [| done].
    destruct (read_key t "TRCK" m3) as [m4|] eqn:H4; [| done].
    inversion Hex; subst existing.
    assert (m4 !! k = None) as Hm4.
    { unfold user_keys in Hk.
      rewrite (read_key_other _ _ _ _ _ H4) by set_solver.
      rewrite (read_key_other _ _ _ _ _ H3) by set_solver.
      rewrite (read_key_other _ _ _ _ _ H2) by set_solver.
      rewrite (read_key_other _ _ _ _ _ H1) by set_solver.
      done. }
    by rewrite lookup_union_r. }
  apply map_eq. intros k.
  destruct (decide (k ∈ user_keys)) as [Hk | Hk].
  - rewrite lookup_union_l'.
    + unfold user_keys in Hk.
      repeat (apply elem_of_cons in Hk as [-> | Hk]; [by simplify_map_eq |]).
      by apply elem_of_nil in Hk.
    + unfold user_keys in Hk.
      repeat (apply elem_of_cons in Hk as [-> | Hk]; [by simplify_map_eq |]).
      by apply elem_of_nil in Hk.
  - assert (k ≠ "TPE1" ∧ k ≠ "TIT2" ∧ k ≠ "TALB" ∧ k ≠ "TRCK") as (? & ? & ? & ?)
      by (unfold user_keys in Hk; set_solver).
    rewrite lookup_union_r by (by simplify_map_eq).
    rewrite !lookup_insert_ne by done. by rewrite Hother.
Qed.

(** *** Runs without faults *)

Lemma os_path_getsize_no_faults p w fd :
  plan w = [] → files w !! p = Some fd →
  os_path_getsize p w = (Ok (Z.of_nat (length (raw fd))), w).
Proof.
  intros Hp Hf. unfold os_path_getsize, bind, next_fault, lookup_file.
  by rewrite Hp, Hf.
Qed.

Lemma MP3_no_faults p w fd a :
  plan w = [] → files w !! p = Some fd → media fd = Ok a →
  MP3 p w = (Ok a, w).
Proof.
  intros Hp Hf Hm. unfold MP3, bind, next_fault, lookup_file.
  by rewrite Hp, Hf, Hm.
Qed.

Lemma open_read_no_faults p n w fd :
  plan w = [] → files w !! p = Some fd →
  open_read p n w = (Ok (take n (raw fd)), w).
Proof.
  intros Hp Hf. unfold open_read, bind, next_fault, lookup_file.
  by rewrite Hp, Hf.
Qed.

Lemma validate_mp3_file_no_faults p w fd a len :
  plan w = [] → files w !! p = Some fd →
  Py.endswith (Py.lower p) ".mp3" = true →
  (1024 ≤ length (raw fd))%nat →
  media fd = Ok a → info a = Some len → 0 < len →
  header_has_signature (take 10 (raw fd)) = true →
  validate_mp3_file p w = (Ok true, w).
Proof.
  intros Hp Hf Hext Hlen Hm Hinfo Hpos Hsig.
  unfold validate_mp3_file, bind. rewrite os_path_exists_eq, Hf, Hext. simpl.
  unfold try_except, validate_checks, bind.
  rewrite (os_path_getsize_no_faults _ _ _ Hp Hf).
  destruct (Z.ltb_spec (Z.of_nat (length (raw fd))) 1024); [lia |].
  rewrite (MP3_no_faults _ _ _ _ Hp Hf Hm), Hinfo.
  destruct (Z.leb_spec len 0); [lia |].
  rewrite (open_read_no_faults _ _ _ _ Hp Hf), Hsig.
  by rewrite andb_false_r.
Qed.

Lemma read_metadata_no_faults p w fd a len m :
  plan w = [] → files w !! p = Some fd →
  Py.endswith (Py.lower p) ".mp3" = true →
  (1024 ≤ length (raw fd))%nat →
  media fd = Ok a → info a = Some len → 0 < len →
  header_has_signature (take 10 (raw fd)) = true →
  metadata_of_tags (tags a) = Ok m →
  read_metadata p w = (Ok m, w).
Proof.
  intros Hp Hf Hext Hlen Hm Hinfo Hpos Hsig Htags.
  unfold read_metadata, bind at 1. rewrite os_path_exists_eq, Hf. simpl.
  unfold bind at 1.
  rewrite (validate_mp3_file_no_faults _ _ _ _ _ Hp Hf Hext Hlen Hm Hinfo Hpos Hsig).
  simpl. unfold try_except, read_tags, bind.
  rewrite (MP3_no_faults _ _ _ _ Hp Hf Hm). unfold lift. by rewrite Htags.
Qed.


(** C10.  [validate_mp3_file] is total: for every path and every world,
    whatever faults are injected, it returns a boolean and raises nothing.
    It returns [False] for a path that does not exist, for a path that does
    not end in [.mp3], for a file shorter than 1024 bytes, for a file that
    mutagen fails to parse, and whenever the size check, the parse or the
    header read raises. *)
Theorem validate_mp3_file_total (file_path : string) (w : World) :
  (∃ b w', validate_mp3_file file_path w = (Ok b, w')) ∧
  (files w !! file_path = None →
   (validate_mp3_file file_path w).1 = Ok false) ∧
  (Py.endswith (Py.lower file_path) ".mp3" = false →
   (validate_mp3_file file_path w).1 = Ok false) ∧
  (∀ fd, files w !! file_path = Some fd → (length (raw fd) < 1024)%nat →
   (validate_mp3_file file_path w).1 = Ok false) ∧
  (∀ fd e, files w !! file_path = Some fd → media fd = Err e →
   (validate_mp3_file file_path w).1 = Ok false) ∧
  (∀ e w1, validate_checks file_path w = (Err e, w1) →
   (validate_mp3_file file_path w).1 = Ok false).
Proof.
  assert (Hfalse : ∀ P : Prop,
    (∀ w', validate_mp3_file file_path w = (Ok true, w') → P → False) →
    P → (validate_mp3_file file_path w).1 = Ok false).
  { intros P HP HPw.
    destruct (validate_mp3_file_returns file_path w) as (b & w' & Hv).
    rewrite Hv. destruct b; [| done]. exfalso. eauto. }
  split; [apply validate_mp3_file_returns |].
  split; [| split; [| split; [| split]]].
  - apply Hfalse. intros w' Hv Hnone.
    apply validate_mp3_file_true in Hv as (fd & _ & _ & Hfd & _). congruence.
  - apply Hfalse. intros w' Hv Hext.
    apply validate_mp3_file_true in Hv as (_ & _ & _ & _ & Hext' & _). congruence.
  - intros fd Hfd Hlen. revert Hlen. apply Hfalse. intros w' Hv Hlen.
    apply validate_mp3_file_true in Hv as (fd' & _ & _ & Hfd' & _ & Hlen' & _).
    rewrite Hfd in Hfd'. inversion Hfd'; subst. lia.
  - intros fd e Hfd Hmedia. revert Hmedia. apply Hfalse. intros w' Hv Hmedia.
    apply validate_mp3_file_true in Hv as (fd' & a & ? & Hfd' & _ & _ & Hm & _).
    rewrite Hfd in Hfd'. inversion Hfd'; subst. congruence.
  - intros e w1 Hraise.
    unfold validate_mp3_file, bind. rewrite os_path_exists_eq.
    destruct (negb _); [done |]. destruct (negb _); [done |].
    unfold try_except. by rewrite Hraise.
Qed.

End MetadataFacts.

(** ** The contracts of the metadata service's methods *)

Module MetadataContracts.
Import World Frames MonadFacts MetadataService MetadataFacts.

(** Every way [read_metadata] fails is a [MetadataError] that carries the
    path and was handed to the error handler just before. *)
Lemma read_metadata_err p w e w' :
  read_metadata p w = (Err e, w') →
  exn_class e = MetadataError ∧ exn_file_path e = Some p ∧
  last (error_history w') = Some (e, "read_metadata").
Proof.
  intros H. unfold read_metadata in H.
  unfold bind at 1 in H. rewrite os_path_exists_eq in H.
  destruct (negb _).
  { rewrite report_and_raise_eq in H. inversion H; subst; simpl.
    by rewrite last_snoc. }
  bind_any H as valid wa Hv.
  2: { destruct (validate_mp3_file_returns p w) as (? & ? & ?). congruence. }
  destruct (negb valid).
  { rewrite report_and_raise_eq in H. inversion H; subst; simpl.
    by rewrite last_snoc. }
  apply try_except_inv in H as [(m' & _ & ?) | (e0 & wb & _ & H)]; [done |].
  destruct (is_MutagenError _); rewrite report_and_raise_eq in H;
    inversion H; subst; simpl; by rewrite last_snoc.
Qed.

(** X1.  [read_metadata] only reads.  Whatever faults are injected, the disk
    and the trace of writes are as before; a dictionary returned is the one
    built from the tags of the file on disk; a failure is a
    [MetadataError] carrying the path, reported to the error handler under
    the context [read_metadata] before it is raised. *)
Theorem read_metadata_reads_only
    (file_path : string) (w : World) (r : Result (gmap string string))
    (w' : World) :
  read_metadata file_path w = (r, w') →
  files w' = files w ∧ trace w' = trace w ∧
  match r with
  | Ok metadata =>
      ∃ fd a, files w !! file_path = Some fd ∧ media fd = Ok a ∧
              metadata_of_tags (tags a) = Ok metadata
  | Err e =>
      exn_class e = MetadataError ∧ exn_file_path e = Some file_path ∧
      last (error_history w') = Some (e, "read_metadata")
  end.
Proof.
  intros H.
  pose proof (read_metadata_same_disk _ _ _ _ H) as (Hf & Ht & _).
  split; [done |]. split; [done |].
  destruct r as [metadata | e].
  - by apply read_metadata_ok in H.
  - by apply read_metadata_err in H.
Qed.

Lemma read_key_agree t t' key m :
  t !! key = t' !! key → read_key t key m = read_key t' key m.
Proof. intros H. unfold read_key. by rewrite H. Qed.

Lemma read_key_raises t key f e m :
  t !! key = Some f → frame_str f = Err e → read_key t key m = Err e.
Proof. intros Ht Hf. unfold read_key. by rewrite Ht, Hf. Qed.

(** X2.  A frame whose [str] raises.  Under a key other than the four the
    service writes, it is skipped: the dictionary read is the one read
    without that frame, and has no entry for the key.  Under one of the
    four keys it makes the whole read fail. *)
Theorem unreadable_frame_skipped_or_fatal
    (t : gmap string Frame) (key : string) (f : Frame) (e : Exn) :
  frame_str f = Err e →
  (key ∉ user_keys →
   metadata_of_tags (Some (<[key := f]> t)) = metadata_of_tags (Some (delete key t)) ∧
   ∀ metadata, metadata_of_tags (Some (<[key := f]> t)) = Ok metadata →
               metadata !! key = None) ∧
  (key ∈ user_keys → ∃ e', metadata_of_tags (Some (<[key := f]> t)) = Err e').
Proof.
  intros Hf. split.
  - intros Hkey.
    assert (key ≠ "TPE1" ∧ key ≠ "TIT2" ∧ key ≠ "TALB" ∧ key ≠ "TRCK")
      as (H1 & H2 & H3 & H4) by (unfold user_keys in Hkey; set_solver).
    assert (Hother : other_tags (<[key := f]> t) = other_tags (delete key t)).
    { unfold other_tags.
      rewrite map_filter_insert_True by done.
      rewrite map_filter_delete, omap_delete.
      apply omap_insert_None. by rewrite Hf. }
    assert (Hkeys : ∀ k m, k ≠ key →
              read_key (<[key := f]> t) k m = read_key (delete key t) k m).
    { intros k m Hk. apply read_key_agree.
      by rewrite lookup_insert_ne, lookup_delete_ne. }
    assert (Heq : ∀ t1 t2 : gmap string Frame,
              (∀ k m, k ≠ key → read_key t1 k m = read_key t2 k m) →
              other_tags t1 = other_tags t2 →
              (m1 ← read_key t1 "TPE1" ∅ ;
               m2 ← read_key t1 "TIT2" m1 ;
               m3 ← read_key t1 "TALB" m2 ;
               m4 ← read_key t1 "TRCK" m3 ;
               Ok (m4 ∪ other_tags t1)) =
              (m1 ← read_key t2 "TPE1" ∅ ;
               m2 ← read_key t2 "TIT2" m1 ;
               m3 ← read_key t2 "TALB" m2 ;
               m4 ← read_key t2 "TRCK" m3 ;
               Ok (m4 ∪ other_tags t2))).
    { intros t1 t2 Hk Ho. rewrite Ho.
      rewrite (Hk "TPE1") by done.
      destruct (read_key t2 "TPE1" ∅) as [m1 |]; simpl; [| done].
      rewrite (Hk "TIT2") by done.
      destruct (read_key t2 "TIT2" m1) as [m2 |]; simpl; [| done].
      rewrite (Hk "TALB") by done.
      destruct (read_key t2 "TALB" m2) as [m3 |]; simpl; [| done].
      by rewrite (Hk "TRCK") by done. }
    assert (Hmain : metadata_of_tags (Some (<[key := f]> t)) =
                    metadata_of_tags (Some (delete key t))).
    { unfold metadata_of_tags.
      rewrite bool_decide_eq_false_2 by apply insert_non_empty.
      destruct (bool_decide_reflect (delete key t = ∅)) as [Hempty | _];
        [| by apply Heq].
      rewrite (Heq _ (delete key t)) by done. rewrite Hempty.
      unfold read_key, other_tags. rewrite !lookup_empty. simpl.
      rewrite map_filter_empty, omap_empty. by rewrite (left_id_L ∅ (∪)). }
    split; [done |]. intros metadata Hm. rewrite Hmain in Hm.
    unfold metadata_of_tags in Hm.
    destruct (bool_decide (delete key t = ∅)); [by inversion Hm |].
    unfold mbind, Result_bind in Hm.
    destruct (read_key (delete key t) "TPE1" ∅) as [m1 |] eqn:Hm1; [| done].
    destruct (read_key (delete key t) "TIT2" m1) as [m2 |] eqn:Hm2; [| done].
    destruct (read_key (delete key t) "TALB" m2) as [m3 |] eqn:Hm3; [| done].
    destruct (read_key (delete key t) "TRCK" m3) as [m4 |] eqn:Hm4; [| done].
    inversion Hm; subst metadata. apply lookup_union_None. split.
    + rewrite (read_key_other _ _ _ _ _ Hm4) by done.
      rewrite (read_key_other _ _ _ _ _ Hm3) by done.
      rewrite (read_key_other _ _ _ _ _ Hm2) by done.
      by rewrite (read_key_other _ _ _ _ _ Hm1) by done.
    + unfold other_tags. rewrite lookup_omap, map_lookup_filter, lookup_delete_eq.
      done.
  - intros Hkey. unfold metadata_of_tags.
    rewrite bool_decide_eq_false_2 by apply insert_non_empty.
    unfold mbind, Result_bind.
    set (t' := <[key := f]> t).
    assert (Hk : t' !! key = Some f) by apply lookup_insert_eq.
    destruct (read_key t' "TPE1" ∅) as [m1 |] eqn:Hm1; [| eauto].
    destruct (read_key t' "TIT2" m1) as [m2 |] eqn:Hm2; [| eauto].
    destruct (read_key t' "TALB" m2) as [m3 |] eqn:Hm3; [| eauto].
    destruct (read_key t' "TRCK" m3) as [m4 |] eqn:Hm4; [| eauto].
    exfalso. unfold user_keys in Hkey.
    repeat (apply elem_of_cons in Hkey as [-> | Hkey];
            [ first [ by rewrite (read_key_raises _ _ _ _ _ Hk Hf) in Hm1
                    | by rewrite (read_key_raises _ _ _ _ _ Hk Hf) in Hm2
                    | by rewrite (read_key_raises _ _ _ _ _ Hk Hf) in Hm3
                    | by rewrite (read_key_raises _ _ _ _ _ Hk Hf) in Hm4 ] |]).
    by apply elem_of_nil in Hkey.
Qed.



(** A call that is turned away before the backup: the error and the world
    it leaves. *)
Lemma apply_metadata_rejected p fields w :
  (validate_mp3_file p w).1 ≠ Ok true ∨ DataModels.validate fields ≠ [] →
  ∃ msg w0,
    same_disk w w0 ∧
    apply_metadata p fields w =
      (Err (mkMetadataError msg (Some p)),
       with_error_history
         (error_history w0 ++ [(mkMetadataError msg (Some p), "apply_metadata")]) w0) ∧
    ((validate_mp3_file p w).1 = Ok true →
     msg = "Invalid metadata: " +:+ Py.join ", " (DataModels.validate fields)).
Proof.
  intros Hbad. unfold apply_metadata.
  unfold bind at 1. rewrite os_path_exists_eq.
  destruct (files w !! p) as [fd |] eqn:Hfd; simpl.
  2: { rewrite report_and_raise_eq. eexists _, w. split; [reflexivity |].
       split; [done |]. intros Hv.
       destruct (validate_mp3_file p w) as [rv wv] eqn:Hvalid. simpl in Hv. subst rv.
       apply validate_mp3_file_true in Hvalid as (? & ? & ? & ? & _). congruence. }
  unfold bind at 1.
  destruct (validate_mp3_file p w) as [[b | e] w0] eqn:Hv; simpl in *.
  2: { destruct (validate_mp3_file_returns p w) as (? & ? & ?). congruence. }
  pose proof (validate_mp3_file_same_disk _ _ _ _ Hv) as Hsame.
  destruct b; simpl.
  2: { rewrite report_and_raise_eq. eexists _, w0. by split_and!. }
  destruct Hbad as [? | Hfields]; [done |].
  rewrite bool_decide_eq_false_2 by done. simpl.
  rewrite report_and_raise_eq. eexists _, w0. by split_and!.
Qed.

(** X4.  Fields that do not pass [MetadataInfo.validate] are refused before
    anything is written: [apply_metadata] raises a [MetadataError], which
    it has reported, the disk is exactly as it was and no write has been
    attempted, so no backup is made.  On a file that passes the
    validation the message lists the validation errors. *)
Theorem invalid_fields_rejected_before_backup
    (file_path : string) (fields : DataModels.MetadataInfo) (w : World) :
  DataModels.validate fields ≠ [] →
  ∃ e w',
    apply_metadata file_path fields w = (Err e, w') ∧
    files w' = files w ∧ trace w' = trace w ∧
    exn_class e = MetadataError ∧
    last (error_history w') = Some (e, "apply_metadata") ∧
    ((validate_mp3_file file_path w).1 = Ok true →
     exn_message e =
       "Invalid metadata: " +:+ Py.join ", " (DataModels.validate fields)).
Proof.
  intros Hfields.
  destruct (apply_metadata_rejected file_path fields w (or_intror Hfields))
    as (msg & w0 & (Hf & Ht & _) & -> & Hmsg).
  eexists _, _. split; [reflexivity |]. simpl.
  split_and!; [done | done | done | by rewrite last_snoc | done].
Qed.

(** A successful call, in full: the backup is made, the tags are saved,
    the backup is removed. *)
Lemma apply_metadata_ok_inv p fields w b w' :
  apply_metadata p fields w = (Ok b, w') →
  let bp := backup_path_of p (clock w) in
  b = true ∧
  DataModels.validate fields = [] ∧
  Py.endswith (Py.lower p) ".mp3" = true ∧
  ∃ fd a len existing bs,
    files w !! p = Some fd ∧ media fd = Ok a ∧
    (1024 ≤ length (raw fd))%nat ∧
    info a = Some len ∧ 0 < len ∧
    header_has_signature (take 10 (raw fd)) = true ∧
    metadata_of_tags (tags a) = Ok existing ∧
    (1024 ≤ length bs)%nat ∧
    header_has_signature (take 10 bs) = true ∧
    let saved :=
      mkFileData bs
        (Ok (mkAudio (info a) (Some (set_user_tags fields (default ∅ (tags a)))))) in
    files w' = delete bp (<[p := saved]> (<[bp := fd]> (files w))) ∧
    trace w' = trace w ++ [Copied p bp; Saved p; Removed bp].
Proof.
  intros H bp.
  pose proof (validate_mp3_file_run p w) as (Hf0 & Ht0 & _ & Hc0 & _).
  apply apply_metadata_inv in H
    as [([? ?] & _) | (Hv & Hfields & rb & w1 & Hb & Hrb)]; [discriminate |].
  destruct rb as [bp' | e]; [| by destruct Hrb].
  apply backup_original_inv in Hb as (-> & d0 & Hd0 & Hf1 & Ht1 & _).
  rewrite Hc0 in *. fold bp in Hf1, Ht1, Hrb |- *.
  assert (Hne : bp ≠ p) by apply backup_path_of_ne.
  assert (Hbp : files w1 !! bp = Some d0) by (rewrite Hf1; apply lookup_insert_eq).
  apply (mutation_block_inv _ _ _ _ d0) in Hrb
    as [(Hb & Hok) | (? & _ & _ & [(? & ? & _) | (? & ? & ? & _)])];
    [| discriminate | discriminate | done | apply truthy_backup_path_of | done].
  inversion Hb; subst b.
  apply apply_changes_inv in Hok
    as [(? & ? & _) | [(? & ? & _) | (fd & a & existing & bs & Hfd & Hm & Hex & Hc)]];
    try discriminate; [| done].
  simpl in Hc.
  destruct Hc as [(? & _) | ((Hext & Hlen & (len & Hinfo & Hpos) & Hsig) & Hc)];
    [discriminate |].
  assert (fd = d0) as ->.
  { rewrite Hf1, lookup_insert_ne in Hfd by done. congruence. }
  destruct (validate_mp3_file p w) as [rv wv] eqn:Hvalid. simpl in *.
  subst rv. apply validate_mp3_file_true in Hvalid
    as (fd' & a' & len' & Hfd' & _ & Hlen' & Hm' & Hinfo' & Hpos' & Hsig').
  assert (fd' = d0) as -> by congruence.
  assert (a' = a) as -> by congruence.
  assert (len' = len) as -> by congruence.
  split_and!; [done | done | done |].
  exists d0, a, len, existing, bs.
  split_and!; try done.
  - destruct Hc as [(? & ? & _) | [(_ & [Ht | Hnone] & _) | (_ & -> & _)]];
      [discriminate | | congruence |].
    + unfold bp in Ht. by rewrite truthy_backup_path_of in Ht.
    + by rewrite Hf1, Hf0.
  - destruct Hc as [(? & ? & _) | [(_ & [Ht | Hnone] & _) | (_ & _ & ->)]];
      [discriminate | | congruence |].
    + unfold bp in Ht. by rewrite truthy_backup_path_of in Ht.
    + by rewrite Ht1, Ht0, <- app_assoc.
Qed.

(** X5.  What a successful [apply_metadata] leaves.  The value returned is
    [True]: the method never returns [False].  The writes of the call are
    the copy to the backup, the save of the tags and the removal of the
    backup, in that order.  Afterwards nothing is left at the backup path,
    the target holds the saved file, which has at least 1024 bytes, and
    every other path holds what it held. *)
Theorem apply_metadata_success_leaves_no_backup
    (file_path : string) (fields : DataModels.MetadataInfo) (w : World)
    (b : bool) (w' : World) :
  apply_metadata file_path fields w = (Ok b, w') →
  let backup_path := backup_path_of file_path (clock w) in
  b = true ∧
  trace w' = trace w ++ [Copied file_path backup_path; Saved file_path;
                         Removed backup_path] ∧
  files w' !! backup_path = None ∧
  (∃ saved, files w' !! file_path = Some saved ∧ (1024 ≤ length (raw saved))%nat) ∧
  (∀ q, q ≠ file_path → q ≠ backup_path → files w' !! q = files w !! q).
Proof.
  intros H bp.
  apply apply_metadata_ok_inv in H
    as (-> & _ & _ & fd & a & len & existing & bs & _ & _ & _ & _ & _ & _ & _ &
        Hlen & _ & Hf & Ht).
  fold bp in Hf, Ht. assert (Hne : bp ≠ file_path) by apply backup_path_of_ne.
  split_and!; [done | done | by rewrite Hf, lookup_delete_eq | |].
  - eexists. rewrite Hf, lookup_delete_ne, lookup_insert_eq by done. done.
  - intros q Hq Hq'. by rewrite Hf, lookup_delete_ne, !lookup_insert_ne.
Qed.

(** Every way [apply_metadata] fails. *)
Lemma apply_metadata_err file_path fields w e w' :
  apply_metadata file_path fields w = (Err e, w') →
  exn_class e = MetadataError ∧
  exn_error_code e = Some "METADATA_ERROR" ∧
  exn_file_path e = Some file_path ∧
  last (error_history w') = Some (e, "apply_metadata").
Proof.
  intros H.
  assert (Hrej : (validate_mp3_file file_path w).1 ≠ Ok true ∨
                 DataModels.validate fields ≠ [] →
                 exn_class e = MetadataError ∧
                 exn_error_code e = Some "METADATA_ERROR" ∧
                 exn_file_path e = Some file_path ∧
                 last (error_history w') = Some (e, "apply_metadata")).
  { intros Hbad.
    destruct (apply_metadata_rejected file_path fields w Hbad)
      as (msg & w0 & _ & Heq & _).
    rewrite Heq in H. inversion H; subst; simpl. by rewrite last_snoc. }
  destruct (validate_mp3_file_returns file_path w) as (valid & wv & Hvalid).
  destruct valid; [| apply Hrej; left; by rewrite Hvalid].
  destruct (decide (DataModels.validate fields = [])) as [Hfields | ?];
    [| apply Hrej; by right].
  clear Hrej.
  apply apply_metadata_inv in H
    as [(_ & _ & Hnot) | (_ & _ & rb & w1 & Hb & Hrb)];
    [destruct Hnot; by rewrite Hvalid |].
  destruct rb as [bp | eb].
  2: { destruct Hrb as (Heq & ->). inversion Heq; subst; simpl.
       by rewrite last_snoc. }
  apply backup_original_inv in Hb as (-> & d0 & Hd0 & Hf1 & _).
  apply (mutation_block_inv _ _ _ _ d0) in Hrb
    as [(? & _) | (events & _ & _ & Hcases)];
    [discriminate | | apply backup_path_of_ne | apply truthy_backup_path_of
    | rewrite Hf1; apply lookup_insert_eq].
  destruct Hcases as [(e0 & He & _ & _ & _ & Hlast) | (e0 & er & He & _ & _ & Hlast)];
    inversion He; subst e; done.
Qed.

(** X6.  Every failure of [apply_metadata] is a [MetadataError] with the
    error code [METADATA_ERROR] and the path of the file, and it is the
    last error the handler was given, under the context [apply_metadata]:
    nothing is raised that was not reported, and no other exception class
    leaves the method.  Whatever went wrong, no path other than the
    target's and the backup's holds anything else than before. *)
Theorem apply_metadata_failure_is_reported
    (file_path : string) (fields : DataModels.MetadataInfo) (w : World)
    (e : Exn) (w' : World) :
  apply_metadata file_path fields w = (Err e, w') →
  exn_class e = MetadataError ∧
  exn_error_code e = Some "METADATA_ERROR" ∧
  exn_file_path e = Some file_path ∧
  last (error_history w') = Some (e, "apply_metadata") ∧
  (∀ q, q ≠ file_path → q ≠ backup_path_of file_path (clock w) →
        files w' !! q = files w !! q).
Proof.
  intros H.
  destruct (apply_metadata_err _ _ _ _ _ H) as (Hclass & Hcode & Hpath & Hlast).
  split_and!; [done | done | done | done |].
  intros q Hq Hq'.
  pose proof (validate_mp3_file_run file_path w) as (Hf0 & _ & _ & Hc0 & _).
  apply apply_metadata_inv in H
    as [(_ & (Hf & _) & _) | (_ & _ & rb & w1 & Hb & Hrb)]; [by rewrite Hf |].
  apply backup_original_inv in Hb. simpl in Hb. rewrite Hc0 in Hb.
  set (bp := backup_path_of file_path (clock w)) in *.
  destruct rb as [bp' | eb].
  - destruct Hb as (-> & d0 & Hd0 & Hf1 & _).
    apply (mutation_block_inv _ _ _ _ d0) in Hrb
      as [(? & _) | (events & _ & _ & Hcases)];
      [discriminate | | apply backup_path_of_ne | apply truthy_backup_path_of
      | rewrite Hf1; apply lookup_insert_eq].
    destruct Hcases as [(? & _ & _ & _ & Hother & _) | (? & ? & _ & _ & Hother & _)];
      rewrite Hother by done; by rewrite Hf1, lookup_insert_ne, Hf0.
  - destruct Hrb as (_ & ->). simpl.
    destruct Hb as [(-> & _) | (_ & _ & [-> | [d ->]])];
      [by rewrite Hf0 | by rewrite Hf0 | by rewrite lookup_insert_ne, Hf0].
Qed.

(** X7.  What [apply_metadata] writes is what [MetadataInfo.to_id3_dict] gives:
    after a successful call, [read_metadata] returns the dictionary of
    [to_id3_dict] completed by what it returned before the call under
    every other key. *)
Theorem apply_metadata_writes_to_id3_dict
    (file_path : string) (fields : DataModels.MetadataInfo) (w w' : World)
    (b : bool) :
  apply_metadata file_path fields w = (Ok b, w') →
  ∃ before,
    (read_metadata file_path (with_plan [] w)).1 = Ok before ∧
    (read_metadata file_path (with_plan [] w')).1 =
      Ok (DataModels.to_id3_dict fields ∪ before).
Proof.
  intros H.
  apply apply_metadata_ok_inv in H
    as (_ & _ & Hext & fd & a & len & existing & bs & Hfd & Hm & Hlen & Hinfo &
        Hpos & Hsig & Hex & Hlen' & Hsig' & Hf & _).
  set (bp := backup_path_of _ _) in *.
  assert (Hne : bp ≠ file_path) by apply backup_path_of_ne.
  set (saved := mkFileData bs _) in *.
  assert (Hsaved : files w' !! file_path = Some saved).
  { rewrite Hf, lookup_delete_ne, lookup_insert_eq by done. done. }
  exists existing. split.
  { by rewrite (read_metadata_no_faults _ (with_plan [] w) fd a len existing
                  eq_refl Hfd Hext Hlen Hm Hinfo Hpos Hsig Hex). }
  rewrite (read_metadata_no_faults _ (with_plan [] w') saved _ len
             _ eq_refl Hsaved Hext Hlen' eq_refl Hinfo Hpos Hsig'
             (metadata_of_tags_set_user_tags fields _ _ Hex)).
  simpl. f_equal. unfold DataModels.to_id3_dict.
  apply map_eq. intros k.
  destruct (decide (k = "TPE1")) as [-> |]; [by simplify_map_eq |].
  destruct (decide (k = "TIT2")) as [-> |]; [by simplify_map_eq |].
  destruct (decide (k = "TALB")) as [-> |]; [by simplify_map_eq |].
  destruct (decide (k = "TRCK")) as [-> |]; [by simplify_map_eq |].
  rewrite lookup_union_r by (by simplify_map_eq).
  by rewrite !lookup_insert_ne.
Qed.

End MetadataContracts.

(** ** The download monitor *)

Module MonitorFacts.
Import DownloadMonitor.

(** *** The stabilisation loop *)

Section Loop.
Context (completion_timeout : nat) (file_path : string) (polls : nat → Poll).

#[local] Abbreviation loop := (poll_loop completion_timeout file_path polls).
#[local] Abbreviation step := (poll_once completion_timeout).

(** The loop returns [True] only from the branch that found the size
    unchanged. *)
Lemma poll_once_true attempt ob stable_count last_size h h' :
  step attempt file_path ob stable_count last_size h = (Return true, h') →
  poll_size ob = SizeIs last_size ∧ 0 < last_size.
Proof.
  unfold poll_once. destruct (poll_size ob) as [n | e].
  - destruct (Z.eqb_spec n last_size) as [-> |], (Z.ltb_spec 0 last_size);
      cbn [andb]; by inversion 1.
  - destruct (is_OSError _); by inversion 1.
Qed.

Lemma poll_once_continue attempt ob stable_count last_size h c l h' :
  step attempt file_path ob stable_count last_size h = (Continue c l, h') →
  poll_size ob = SizeIs l.
Proof.
  unfold poll_once. destruct (poll_size ob) as [n | e].
  - destruct (Z.eqb_spec n last_size) as [-> |], (Z.ltb_spec 0 last_size);
      cbn [andb]; try by inversion 1.
    destruct (Nat.leb 3 (S stable_count)); [| by inversion 1].
    destruct (poll_header ob) as [header | e].
    + destruct (header_accepted header); by inversion 1.
    + destruct (is_OSError _); by inversion 1.
  - destruct (is_OSError _); by inversion 1.
Qed.

(** While the size differs from one poll to the next, the loop never
    returns [True]. *)
Lemma loop_changing_size remaining attempt stable_count last_size h :
  (∀ i a b, poll_size (polls i) = SizeIs a →
            poll_size (polls (S i)) = SizeIs b → a ≠ b) →
  last_size = -1 ∨
    (∃ j, attempt = S j ∧ poll_size (polls j) = SizeIs last_size) →
  stable (loop remaining attempt stable_count last_size h) = false.
Proof.
  intros Hchange. revert attempt stable_count last_size h.
  induction remaining as [| remaining IH]; intros attempt c l h Hinv; [done |].
  simpl.
  destruct (step attempt file_path (polls attempt) c l h) as [[c' l' | b] h'] eqn:Hs.
  - apply IH. right. exists attempt. split; [done |].
    by eapply poll_once_continue.
  - simpl. destruct b; [| done].
    apply poll_once_true in Hs as [Hsize Hpos].
    destruct Hinv as [-> | (j & -> & Hj)]; [lia |].
    by destruct (Hchange j l l).
Qed.

(** A poll that finds the size changed restarts the count. *)
Lemma poll_once_changed attempt ob stable_count last_size h n :
  poll_size ob = SizeIs n → n ≠ last_size ∨ (n ≤ 0)%Z →
  step attempt file_path ob stable_count last_size h = (Continue 0 n, h).
Proof.
  intros Hsize Hn. unfold poll_once. rewrite Hsize.
  destruct (Z.eqb_spec n last_size) as [-> |], (Z.ltb_spec 0 last_size);
    cbn [andb]; try done.
  destruct Hn; [done | lia].
Qed.

(** A poll that finds the size unchanged counts it, and on the third such
    poll in a row looks at the header. *)
Lemma poll_once_unchanged attempt ob stable_count n h :
  poll_size ob = SizeIs n → 0 < n →
  step attempt file_path ob stable_count n h =
    if Nat.leb 3 (S stable_count)
    then match poll_header ob with
         | HeaderIs header =>
             if header_accepted header then (Return true, h)
             else (Continue 0 n, h)
         | HeaderRaises e =>
             if is_OSError (exn_class e)
             then (Continue (S stable_count) n,
                   if Nat.eqb attempt (completion_timeout - 1)
                   then handle_error
                          ("File access error after "
                             +:+ pretty completion_timeout +:+ " attempts: " +:+ str e)
                          (Some file_path) "wait_for_completion" h
                   else h)
             else (Return false, unexpected_error file_path e h)
         end
    else (Continue (S stable_count) n, h).
Proof.
  intros Hsize Hpos. unfold poll_once. rewrite Hsize, Z.eqb_refl.
  destruct (Z.ltb_spec 0 n); [done | lia].
Qed.

(** With the size unchanged and an accepted header at each of the next
    polls, the loop returns [True] as soon as it has counted three polls,
    whatever it had counted before. *)
Lemma loop_stable_size j remaining attempt stable_count n h :
  (3 ≤ stable_count + S j)%nat → (S j ≤ remaining)%nat → 0 < n →
  (∀ i, (attempt ≤ i ≤ attempt + j)%nat →
        poll_size (polls i) = SizeIs n ∧
        ∃ header, poll_header (polls i) = HeaderIs header ∧
                  header_accepted header = true) →
  let outcome := loop remaining attempt stable_count n h in
  stable outcome = true ∧ (slept outcome ≤ attempt + j)%nat ∧
  history outcome = h.
Proof.
  revert remaining attempt stable_count.
  induction j as [| j IH]; intros remaining attempt c Hc Hrem Hn Hpolls;
    (destruct remaining as [| remaining]; [lia |]);
    destruct (Hpolls attempt ltac:(lia)) as (Hsize & header & Hheader & Hok);
    simpl; rewrite (poll_once_unchanged _ _ _ _ _ Hsize Hn), Hheader, Hok.
  - destruct (Nat.leb_spec 3 (S c)); [| lia]. simpl. split_and!; [done | lia | done].
  - destruct (Nat.leb_spec 3 (S c)).
    + simpl. split_and!; [done | lia | done].
    + destruct (IH remaining (S attempt) (S c)) as (? & ? & ?); try lia.
      { intros i Hi. apply Hpolls. lia. }
      split_and!; [done | lia | done].
Qed.

(** The loop while the size changes at every poll: it goes on, with the
    count at zero. *)
Lemma loop_changing_prefix k remaining attempt stable_count last_size h :
  (k - attempt < remaining)%nat → (attempt ≤ k)%nat →
  (∀ i, (i ≤ k)%nat → ∃ a, poll_size (polls i) = SizeIs a) →
  (∀ i a b, (i < k)%nat → poll_size (polls i) = SizeIs a →
            poll_size (polls (S i)) = SizeIs b → a ≠ b) →
  last_size = -1 ∨
    (∃ j, attempt = S j ∧ poll_size (polls j) = SizeIs last_size) →
  ∀ n, poll_size (polls k) = SizeIs n → 0 < n →
  loop remaining attempt stable_count last_size h =
  loop (remaining - S (k - attempt)) (S k) 0 n h.
Proof.
  intros Hrem Hle Hsizes Hchange Hinv n Hk Hn.
  remember (k - attempt)%nat as steps eqn:Hsteps.
  revert remaining attempt stable_count last_size Hrem Hle Hinv Hsteps.
  induction steps as [| steps IH];
    intros remaining attempt c l Hrem Hle Hinv Hsteps;
    (destruct remaining as [| remaining]; [lia |]).
  - assert (attempt = k) as -> by lia. simpl.
    rewrite (poll_once_changed _ _ _ _ _ n Hk).
    + by rewrite Nat.sub_0_r.
    + destruct Hinv as [-> | (j & -> & Hj)]; [left; lia |].
      left. intros ->. by destruct (Hchange j l l ltac:(lia) Hj Hk).
  - destruct (Hsizes attempt ltac:(lia)) as [a Ha]. simpl.
    rewrite (poll_once_changed _ _ _ _ _ a Ha).
    + rewrite (IH remaining (S attempt) 0%nat a); try lia; [done |].
      right. by exists attempt.
    + destruct Hinv as [-> | (j & -> & Hj)].
      * destruct (decide (a = -1)) as [-> | ?]; [right; lia | by left].
      * left. intros ->. by destruct (Hchange j l l ltac:(lia) Hj Ha).
Qed.

(** The loop accepts fewer headers than [validate_mp3_file]: a frame sync
    other than FF FB passes the validation and is not accepted here. *)
Lemma header_accepted_is_narrower :
  let header := [Byte.xff; Byte.xf3; Byte.x00] in
  MetadataService.header_has_signature header = true ∧
  header_accepted header = false.
Proof. by vm_compute. Qed.

(** C5.  The stabilisation loop of [wait_for_completion], one poll a
    second.  (1) A file whose size differs between every two consecutive
    polls is never judged stable.  (2) A file whose size changes up to
    poll [k], is then positive and unchanged at the three polls that
    follow, and whose header is accepted at the third of them, is judged
    stable at that poll: three seconds after its size stopped changing,
    which is the least the loop allows.  (3) From any state of the loop,
    three more polls with the size unchanged and an accepted header end
    it with [True].  (4) When the header is not accepted at a poll that
    completes three unchanged polls, the count goes back to zero and the
    loop goes on to the next poll. *)
Theorem stabilisation (h : Log) :
  ((∀ i a b, poll_size (polls i) = SizeIs a →
             poll_size (polls (S i)) = SizeIs b → a ≠ b) →
   ∀ present,
     stable (wait_for_completion completion_timeout file_path present polls h)
       = false) ∧
  (∀ k n,
     (k + 3 < completion_timeout)%nat → 0 < n →
     (∀ i, (i ≤ k)%nat → ∃ a, poll_size (polls i) = SizeIs a) →
     (∀ i a b, (i < k)%nat → poll_size (polls i) = SizeIs a →
               poll_size (polls (S i)) = SizeIs b → a ≠ b) →
     (∀ i, (k ≤ i ≤ k + 3)%nat → poll_size (polls i) = SizeIs n) →
     (∃ header, poll_header (polls (k + 3)) = HeaderIs header ∧
                header_accepted header = true) →
     wait_for_completion completion_timeout file_path true polls h =
       mkWaited true (k + 3) h) ∧
  (∀ remaining attempt stable_count n h',
     (3 ≤ remaining)%nat → 0 < n →
     (∀ i, (attempt ≤ i ≤ attempt + 2)%nat →
           poll_size (polls i) = SizeIs n ∧
           ∃ header, poll_header (polls i) = HeaderIs header ∧
                     header_accepted header = true) →
     let outcome := loop remaining attempt stable_count n h' in
     stable outcome = true ∧ (slept outcome ≤ attempt + 2)%nat) ∧
  (∀ attempt stable_count n header h',
     0 < n → (3 ≤ S stable_count)%nat → header_accepted header = false →
     step attempt file_path (mkPoll (SizeIs n) (HeaderIs header))
          stable_count n h' = (Continue 0 n, h')).
Proof.
  split_and!.
  - intros Hchange present. unfold wait_for_completion.
    destruct present; [| done]. simpl. apply loop_changing_size; auto.
  - intros k n Hk Hn Hsizes Hchange Hstable (header & Hheader & Hok).
    unfold wait_for_completion. simpl.
    rewrite (loop_changing_prefix k completion_timeout 0 0 (-1) h
               ltac:(lia) ltac:(lia)
               Hsizes Hchange (or_introl eq_refl) n (Hstable k ltac:(lia)) Hn).
    destruct (completion_timeout - S (k - 0))%nat as [| [| [| remaining]]] eqn:Hr;
      try lia.
    simpl.
    rewrite (poll_once_unchanged _ _ _ _ _ (Hstable (S k) ltac:(lia)) Hn). simpl.
    rewrite (poll_once_unchanged _ _ _ _ _ (Hstable (S (S k)) ltac:(lia)) Hn). simpl.
    rewrite (poll_once_unchanged _ _ _ _ _ (Hstable (S (S (S k))) ltac:(lia)) Hn).
    simpl. replace (S (S (S k))) with (k + 3)%nat by lia.
    by rewrite Hheader, Hok.
  - intros remaining attempt c n h' Hrem Hn Hpolls.
    destruct (loop_stable_size 2 remaining attempt c n h') as (? & ? & _);
      try done; lia.
  - intros attempt c n header h' Hn Hc Hbad.
    rewrite (poll_once_unchanged _ _ _ n) by done.
    destruct (Nat.leb_spec 3 (S c)); [| lia]. simpl. by rewrite Hbad.
Qed.

End Loop.

(** *** Waiting for a new file *)

Lemma scan_time env m seen todo now h :
  (now ≤ (scan env m seen todo now h).1.2)%Z.
Proof.
  revert seen now h. induction todo as [| file_info rest IH]; intros seen now h;
    simpl; [lia |].
  destruct (completed file_info); [apply IH |].
  destruct (stable _); simpl; [lia |].
  etransitivity; [| apply IH]. lia.
Qed.


(** The scan returns the path of the first entry, not yet completed, for
    which the wait returns [True], at the end of that wait. *)
Lemma scan_some env m seen todo now h p fs now' h' :
  scan env m seen todo now h = (Some p, fs, now', h') →
  ∃ pre file_info post t h0,
    todo = pre ++ file_info :: post ∧
    path file_info = p ∧ completed file_info = false ∧
    fs = seen ++ pre ++ mkFileInfo p (detected_time file_info) true :: post ∧
    (now ≤ t)%Z ∧
    let w := wait_at env t p (with_history h0 m) in
    stable w = true ∧ now' = t + 1000 * Z.of_nat (slept w) ∧ h' = history w.
Proof.
  revert seen now h. induction todo as [| file_info rest IH]; intros seen now h;
    simpl; [by inversion 1 |].
  assert (Hnext : ∀ now1 h1,
    (now ≤ now1)%Z →
    scan env m (seen ++ [file_info]) rest now1 h1 = (Some p, fs, now', h') →
    ∃ pre file_info0 post t h0,
      file_info :: rest = pre ++ file_info0 :: post ∧
      path file_info0 = p ∧ completed file_info0 = false ∧
      fs = seen ++ pre ++ mkFileInfo p (detected_time file_info0) true :: post ∧
      (now ≤ t)%Z ∧
      let w := wait_at env t p (with_history h0 m) in
      stable w = true ∧ now' = t + 1000 * Z.of_nat (slept w) ∧ h' = history w).
  { intros now1 h1 Hle H.
    apply IH in H as (pre & x & post & t & h0 & -> & ? & ? & -> & ? & ?).
    exists (file_info :: pre), x, post, t, h0.
    split_and!; [done | done | done | by rewrite <- app_assoc | lia | done]. }
  destruct (completed file_info) eqn:Hc; [apply Hnext; lia |].
  destruct (stable (wait_at env now (path file_info) (with_history h m))) eqn:Hs.
  - inversion 1; subst.
    exists [], file_info, rest, now, h. split_and!; try done; lia.
  - apply Hnext. lia.
Qed.

Lemma scan_none_entries env m seen todo now h fs now' h' :
  scan env m seen todo now h = (None, fs, now', h') → fs = seen ++ todo.
Proof.
  revert seen now h. induction todo as [| file_info rest IH]; intros seen now h;
    simpl.
  { inversion 1. by rewrite app_nil_r. }
  assert (Hnext : ∀ now1 h1,
    scan env m (seen ++ [file_info]) rest now1 h1 = (None, fs, now', h') →
    fs = seen ++ file_info :: rest).
  { intros now1 h1 H. apply IH in H. by rewrite <- app_assoc in H. }
  destruct (completed file_info); [apply Hnext |].
  destruct (stable _); [by inversion 1 | apply Hnext].
Qed.

Lemma announced_paths now l m p :
  p ∈ path <$> detected_files (foldl (λ acc q, _on_mp3_detected now q acc) m l) →
  p ∈ path <$> detected_files m ∨ p ∈ l.
Proof.
  revert m. induction l as [| q l IH]; intros m; simpl; [by left |].
  intros H. apply IH in H as [H | H]; [| right; by right].
  unfold _on_mp3_detected in H. destruct (bool_decide _); [by left |].
  simpl in H. rewrite fmap_app in H. apply elem_of_app in H as [H | H]; [by left |].
  apply list_elem_of_singleton in H. subst. right. by left.
Qed.

Lemma announced_timeout now l m :
  completion_timeout (foldl (λ acc q, _on_mp3_detected now q acc) m l) =
  completion_timeout m.
Proof.
  revert m. induction l as [| q l IH]; intros m; simpl; [done |].
  rewrite IH. unfold _on_mp3_detected. by destruct (bool_decide _).
Qed.







(** *** The downloads folder *)

Lemma write_probe_inv host path r host' :
  write_probe host path = (r, host') →
  match r with
  | Ok _ =>
      ∃ d, dirs host !! path = Some d ∧ writable d = true ∧
           let marker := os_path_join path ".download_monitor_test" in
           probes host' = probes host ++ [Created marker; Deleted marker] ∧
           marker ∉ entries host'
  | Err _ =>
      host' = host ∧ ∀ d, dirs host !! path = Some d → writable d = false
  end.
Proof.
  unfold write_probe. destruct (dirs host !! path) as [d |] eqn:Hd.
  - destruct (writable d) eqn:Hw; inversion 1; subst; simpl.
    + exists d. split_and!; [done | done | done |].
      rewrite elem_of_difference, elem_of_singleton. by intros [_ ?].
    + split; [done |]. intros d' Hd'. congruence.
  - inversion 1; subst. split; [done |]. intros d' Hd'. congruence.
Qed.

Lemma first_accessible_some candidates host path host' :
  first_accessible candidates host = (Some path, host') →
  path ∈ candidates ∧
  ∃ d, dirs host !! path = Some d ∧ is_dir d = true ∧ writable d = true ∧
       let marker := os_path_join path ".download_monitor_test" in
       probes host' = probes host ++ [Created marker; Deleted marker] ∧
       marker ∉ entries host'.
Proof.
  induction candidates as [| c rest IH]; simpl; [by inversion 1 |].
  intros H.
  destruct (dirs host !! c) as [d |] eqn:Hd;
    [| apply IH in H as [? ?]; split; [by right | done]].
  destruct (is_dir d) eqn:Hdir;
    [| apply IH in H as [? ?]; split; [by right | done]].
  destruct (write_probe host c) as [[u | e] host1] eqn:Hprobe.
  - inversion H; subst. apply write_probe_inv in Hprobe as (d' & Hd' & Hw & Hp).
    assert (d' = d) as -> by congruence. destruct Hp as [? ?].
    split; [by left |]. exists d. by split_and!.
  - apply write_probe_inv in Hprobe as [-> _].
    apply IH in H as [? ?]; split; [by right | done].
Qed.

Lemma first_accessible_none candidates host :
  (∀ p d, p ∈ candidates → dirs host !! p = Some d → is_dir d = true →
          writable d = false) →
  first_accessible candidates host = (None, host).
Proof.
  induction candidates as [| c rest IH]; simpl; [done |]. intros Hall.
  assert (Hrest : first_accessible rest host = (None, host)).
  { apply IH. intros p d Hp. apply Hall. by right. }
  destruct (dirs host !! c) as [d |] eqn:Hd; [| done].
  destruct (is_dir d) eqn:Hdir; [| done].
  unfold write_probe. rewrite Hd, (Hall c d); [done | by left | done..].
Qed.

(** C7, as amended.  The write probe belongs to the construction of the
    monitor: [DownloadMonitor()] settles on a candidate directory in which
    the marker file was created and then deleted, and raises, so that no
    monitor exists, when no candidate is a writable directory.
    [start_monitoring] looks only at existence and read access: on a
    missing or unreadable directory it raises [DownloadError] and leaves
    the monitor inactive with the observer it had; on a readable directory
    it starts the observer and returns [True], writable or not. *)
Theorem write_probe_at_construction (host : Host) :
  (∀ m host',
     init host = (Ok m, host') →
     monitoring m = false ∧
     downloads_path m ∈ possible_paths host ∧
     ∃ d, dirs host !! downloads_path m = Some d ∧
          is_dir d = true ∧ writable d = true ∧
          let marker := os_path_join (downloads_path m) ".download_monitor_test" in
          probes host' = probes host ++ [Created marker; Deleted marker] ∧
          marker ∉ entries host') ∧
  ((∀ p d, p ∈ possible_paths host → dirs host !! p = Some d →
           is_dir d = true → writable d = false) →
   ∃ e, init host = (Err e, host)) ∧
  (∀ m,
     monitoring m = false →
     (dirs host !! downloads_path m = None ∨
      (∃ d, dirs host !! downloads_path m = Some d ∧ readable d = false) →
      ∃ e m', start_monitoring host m = (Err e, m') ∧
              exn_class e = DownloadError ∧
              monitoring m' = false ∧ observer m' = observer m) ∧
     (∀ d, dirs host !! downloads_path m = Some d → readable d = true →
           observer_fault host = None →
           ∃ m', start_monitoring host m = (Ok true, m') ∧
                 monitoring m' = true ∧
                 observer m' = Some (mkObserver (Some (downloads_path m)) true))).
Proof.
  split_and!.
  - intros m host' H. unfold init, _get_downloads_path in H.
    destruct (first_accessible (possible_paths host) host) as [[path |] host1] eqn:Hfa;
      [| inversion H].
    inversion H; subst; simpl.
    apply first_accessible_some in Hfa as (? & ?). by split_and!.
  - intros Hall. unfold init, _get_downloads_path.
    rewrite (first_accessible_none _ _ Hall). eauto.
  - intros m Hoff. split.
    + intros Hbad. unfold start_monitoring. rewrite Hoff.
      assert (Hna : match dirs host !! downloads_path m with
                    | Some d => readable d
                    | None => false
                    end = false).
      { destruct Hbad as [-> | (d & -> & ->)]; done. }
      rewrite Hna. simpl. eauto 10.
    + intros d Hd Hr Hfault. unfold start_monitoring.
      rewrite Hoff, Hd, Hr, Hfault. simpl. eauto.
Qed.

(** C7, a counterexample to the claim as stated: the monitor was built
    while the downloads folder was writable; the folder is now readable
    but not writable; [start_monitoring] succeeds and the monitor is
    active. *)
Lemma start_monitoring_on_read_only_folder :
  (init Examples.writable_host).1 = Ok Examples.watcher ∧
  dirs Examples.readonly_host !! downloads_path Examples.watcher
    = Some (mkDir true true false) ∧
  ∃ m', start_monitoring Examples.readonly_host Examples.watcher = (Ok true, m') ∧
        monitoring m' = true.
Proof.
  split_and!; [by vm_compute | by vm_compute |].
  eexists. split; [vm_compute; reflexivity | done].
Qed.

End MonitorFacts.

(** ** The contracts of the download monitor's methods *)

Module MonitorContracts.
Import DownloadMonitor MonitorFacts.

(** *** Announced files *)

Lemma on_mp3_detected_known now p m :
  p ∈ path <$> detected_files m → _on_mp3_detected now p m = m.
Proof. intros H. unfold _on_mp3_detected. by rewrite bool_decide_eq_true_2. Qed.

Lemma on_mp3_detected_new now p m :
  p ∉ path <$> detected_files m →
  _on_mp3_detected now p m =
  with_detected (detected_files m ++ [mkFileInfo p now false]) m.
Proof. intros H. unfold _on_mp3_detected. by rewrite bool_decide_eq_false_2. Qed.

(** Announcing a path keeps the paths pairwise distinct. *)
Lemma on_mp3_detected_nodup now p m :
  NoDup (path <$> detected_files m) →
  NoDup (path <$> detected_files (_on_mp3_detected now p m)).
Proof.
  intros Hnodup.
  destruct (decide (p ∈ path <$> detected_files m)) as [Hin | Hnew].
  - by rewrite on_mp3_detected_known.
  - rewrite on_mp3_detected_new by done. simpl. rewrite fmap_app.
    apply NoDup_app. split_and!; [done | | apply NoDup_singleton].
    intros x Hx Hx'. apply list_elem_of_singleton in Hx'. by subst.
Qed.

(** X8.  [_on_mp3_detected] keeps the paths of [detected_files] pairwise
    distinct.  After the call the path is listed; the entries there were
    are still there, in front; the only entry that can have been added is
    the one for the path, not completed, stamped with the time of the
    call; and announcing the same path again changes nothing. *)
Theorem on_mp3_detected_no_duplicates (now : Z) (file_path : string) (m : Monitor) :
  NoDup (path <$> detected_files m) →
  let m' := _on_mp3_detected now file_path m in
  NoDup (path <$> detected_files m') ∧
  file_path ∈ path <$> detected_files m' ∧
  (detected_files m) `prefix_of` (detected_files m') ∧
  (∀ file_info, file_info ∈ detected_files m' → file_info ∉ detected_files m →
                file_info = mkFileInfo file_path now false) ∧
  (∀ later, _on_mp3_detected later file_path m' = m').
Proof.
  intros Hnodup m'. subst m'.
  split; [by apply on_mp3_detected_nodup |].
  destruct (decide (file_path ∈ path <$> detected_files m)) as [Hin | Hnew].
  - rewrite on_mp3_detected_known by done.
    split_and!; [done | done | by intros ? ? ? |].
    intros later. by apply on_mp3_detected_known.
  - rewrite on_mp3_detected_new by done. simpl.
    assert (Hpaths : path <$> detected_files m ++ [mkFileInfo file_path now false]
                     = (path <$> detected_files m) ++ [file_path])
      by (by rewrite fmap_app).
    split_and!.
    + rewrite Hpaths. apply elem_of_app. right. by apply list_elem_of_singleton.
    + by apply prefix_app_r.
    + intros file_info Hin Hnot. apply elem_of_app in Hin as [? | Hin]; [done |].
      by apply list_elem_of_singleton in Hin.
    + intros later. apply on_mp3_detected_known. simpl. rewrite Hpaths.
      apply elem_of_app. right. by apply list_elem_of_singleton.
Qed.

(** *** The event handler *)

Section HandlerFacts.

(** The receiver records the paths it is called back with. *)
#[local] Abbreviation record := (λ (p : string) (l : list string), l ++ [p]).

Lemma on_created_inv event st st' :
  on_created record event st = st' →
  st' = st ∨
  (event_class event = FileCreatedEvent ∧ is_directory event = false ∧
   Py.endswith (Py.lower (src_path event)) ".mp3" = true ∧
   (src_path event ∉ st.1) ∧
   st' = ({[src_path event]} ∪ st.1, st.2 ++ [src_path event])).
Proof.
  unfold on_created.
  destruct (bool_decide_reflect (event_class event = FileCreatedEvent)); simpl; [| auto].
  destruct (is_directory event); simpl; [auto |].
  destruct (Py.endswith _ _); simpl; [| auto].
  destruct (bool_decide_reflect (src_path event ∈ st.1)); simpl; [auto |].
  intros <-. right. by split_and!.
Qed.

Lemma on_modified_inv stat now event st st' :
  on_modified record stat now event st = Ok st' →
  st' = st ∨
  (event_class event = FileModifiedEvent ∧ is_directory event = false ∧
   Py.endswith (Py.lower (src_path event)) ".mp3" = true ∧
   (src_path event ∉ st.1) ∧
   (∃ creation_time, stat = Ok creation_time ∧ now - creation_time < 300000000) ∧
   st' = ({[src_path event]} ∪ st.1, st.2 ++ [src_path event])).
Proof.
  unfold on_modified.
  destruct (bool_decide_reflect (event_class event = FileModifiedEvent)); simpl;
    [| inversion 1; auto].
  destruct (is_directory event); simpl; [inversion 1; auto |].
  destruct (Py.endswith _ _); simpl; [| inversion 1; auto].
  destruct (bool_decide_reflect (src_path event ∈ st.1)); simpl; [inversion 1; auto |].
  destruct stat as [creation_time | err].
  - destruct (Z.ltb_spec (now - creation_time) 300000000); inversion 1; subst; [| auto].
    right. split_and!; eauto.
  - destruct (is_OSError _); inversion 1; auto.
Qed.

(** X9.  The handler calls back at most once for a path.  Whatever calls
    the observer makes, in whatever order: the paths handed to the
    callback are pairwise distinct and are exactly the paths in the
    handler's set; each one ends in [.mp3], whatever the case of the
    letters, and comes from an event on a file, not a directory: a
    creation, or a modification of a file created less than five minutes
    before. *)
Theorem handler_calls_back_once (calls : list HandlerCall) :
  let st := foldl (deliver record) (∅, []) calls in
  NoDup st.2 ∧
  (∀ p, p ∈ st.2 ↔ p ∈ st.1) ∧
  ∀ p, p ∈ st.2 →
    Py.endswith (Py.lower p) ".mp3" = true ∧
    ∃ event,
      src_path event = p ∧ is_directory event = false ∧
      ((event_class event = FileCreatedEvent ∧ OnCreated event ∈ calls) ∨
       (event_class event = FileModifiedEvent ∧
        ∃ creation_time now,
          OnModified (Ok creation_time) now event ∈ calls ∧
          now - creation_time < 300000000)).
Proof.
  induction calls as [| c calls IH] using rev_ind.
  { simpl. split_and!; [apply NoDup_nil_2 | set_solver |].
    intros p Hp. by apply elem_of_nil in Hp. }
  rewrite foldl_app. simpl.
  set (st := foldl (deliver record) (∅, []) calls) in *.
  destruct IH as (Hnodup & Hsame & Hfrom).
  assert (Hkeep : ∀ p, p ∈ st.2 →
    Py.endswith (Py.lower p) ".mp3" = true ∧
    ∃ event,
      src_path event = p ∧ is_directory event = false ∧
      ((event_class event = FileCreatedEvent ∧ OnCreated event ∈ calls ++ [c]) ∨
       (event_class event = FileModifiedEvent ∧
        ∃ creation_time now,
          OnModified (Ok creation_time) now event ∈ calls ++ [c] ∧
          now - creation_time < 300000000))).
  { intros p Hp. destruct (Hfrom p Hp) as (Hext & event & ? & ? & Hcases).
    split; [done |]. exists event. split_and!; [done | done |].
    destruct Hcases as [(? & ?) | (? & t & now & ? & ?)].
    - left. split; [done |]. apply elem_of_app. by left.
    - right. split; [done |]. exists t, now. split; [| done].
      apply elem_of_app. by left. }
  assert (Hadd : ∀ event,
    Py.endswith (Py.lower (src_path event)) ".mp3" = true →
    src_path event ∉ st.1 → is_directory event = false →
    ((event_class event = FileCreatedEvent ∧ OnCreated event ∈ calls ++ [c]) ∨
     (event_class event = FileModifiedEvent ∧
      ∃ creation_time now,
        OnModified (Ok creation_time) now event ∈ calls ++ [c] ∧
        now - creation_time < 300000000)) →
    let st' := ({[src_path event]} ∪ st.1, st.2 ++ [src_path event]) in
    NoDup st'.2 ∧ (∀ p, p ∈ st'.2 ↔ p ∈ st'.1) ∧
    ∀ p, p ∈ st'.2 →
      Py.endswith (Py.lower p) ".mp3" = true ∧
      ∃ event,
        src_path event = p ∧ is_directory event = false ∧
        ((event_class event = FileCreatedEvent ∧ OnCreated event ∈ calls ++ [c]) ∨
         (event_class event = FileModifiedEvent ∧
          ∃ creation_time now,
            OnModified (Ok creation_time) now event ∈ calls ++ [c] ∧
            now - creation_time < 300000000))).
  { intros event Hext Hnew Hfile Hcall. simpl. split_and!.
    - apply NoDup_app. split_and!; [done | | apply NoDup_singleton].
      intros x Hx Hx'. apply list_elem_of_singleton in Hx'. subst x.
      by apply Hnew, Hsame.
    - intros p. rewrite elem_of_app, list_elem_of_singleton, elem_of_union,
        elem_of_singleton, Hsame. tauto.
    - intros p Hp. apply elem_of_app in Hp as [Hp | Hp]; [by apply Hkeep |].
      apply list_elem_of_singleton in Hp. subst p. split; [done |].
      exists event. by split_and!. }
  destruct c as [event | stat now event]; simpl.
  - destruct (on_created_inv event st _ eq_refl)
      as [-> | (Hclass & Hfile & Hext & Hnew & ->)]; [by split_and! |].
    apply Hadd; try done. left. split; [done |].
    apply elem_of_app. right. by apply list_elem_of_singleton.
  - destruct (on_modified record stat now event st) as [st' | e] eqn:Hmod;
      [| by split_and!].
    apply on_modified_inv in Hmod
      as [-> | (Hclass & Hfile & Hext & Hnew & (t & -> & Hrecent) & ->)];
      [by split_and! |].
    apply Hadd; try done. right. split; [done |]. exists t, now. split; [| done].
    apply elem_of_app. right. by apply list_elem_of_singleton.
Qed.

End HandlerFacts.

(** *** Starting, stopping, cleaning up *)

Lemma start_monitoring_fields host m :
  let m' := (start_monitoring host m).2 in
  downloads_path m' = downloads_path m ∧
  completion_timeout m' = completion_timeout m ∧
  detected_files m' = detected_files m ∧
  (monitoring m' = true → is_Some (observer m') ∧ event_handler m' = true ∨ m' = m).
Proof.
  unfold start_monitoring. destruct (monitoring m) eqn:Hm; [by auto |].
  destruct (negb _); simpl.
  { split_and!; try done. intros ?. congruence. }
  destruct (observer_fault host); simpl; split_and!; try done.
  intros _. left. eauto.
Qed.

Lemma stop_monitoring_fields outcome m :
  let m' := (stop_monitoring outcome m).2 in
  downloads_path m' = downloads_path m ∧
  completion_timeout m' = completion_timeout m ∧
  detected_files m' = detected_files m ∧
  error_history m' = error_history m ∧
  (monitoring m' = true → monitoring m = true ∧ event_handler m' = event_handler m ∧
                          (is_Some (observer m) → is_Some (observer m'))).
Proof.
  intros m'. subst m'. unfold stop_monitoring.
  destruct (monitoring m) eqn:Hm;
    [destruct (observer m) as [ob |] eqn:Ho; [destruct outcome |] |];
    simpl; rewrite ?Hm, ?Ho; split_and!; try done; intros; try congruence;
    split_and!; eauto.
Qed.

(** What [complete_each] does to the entries and which paths it gives. *)
Lemma complete_each_inv env m todo now h :
  let r := complete_each env m todo now h in
  path <$> r.1.1.2 = path <$> todo ∧
  (∀ file_info, file_info ∈ todo → completed file_info = true →
                file_info ∈ r.1.1.2) ∧
  (∀ p, p ∈ r.1.1.1 →
     (∃ file_info, file_info ∈ todo ∧ path file_info = p ∧
                   completed file_info = false) ∧
     (∃ file_info, file_info ∈ r.1.1.2 ∧ path file_info = p ∧
                   completed file_info = true)) ∧
  (∀ file_info, file_info ∈ r.1.1.2 → completed file_info = true →
                file_info ∈ todo ∨ path file_info ∈ r.1.1.1) ∧
  (∀ file_info, file_info ∈ r.1.1.2 → completed file_info = false →
                file_info ∈ todo).
Proof.
  revert now h. induction todo as [| file_info rest IH]; intros now h.
  { simpl. split_and!; [done | done | | |]; intros ? H; by apply elem_of_nil in H. }
  simpl. destruct (completed file_info) eqn:Hc.
  - specialize (IH now h).
    destruct (complete_each env m rest now h) as [[[done fs] now'] h'].
    simpl in *. destruct IH as (Hp & Hkept & Hdone & Hnew & Hold).
    split_and!.
    + f_equal. apply Hp.
    + intros x Hx Hxc. apply elem_of_cons in Hx as [-> | Hx]; [by left |].
      right. by apply Hkept.
    + intros p Hin. destruct (Hdone p Hin) as ((x & ? & ? & ?) & (y & ? & ? & ?)).
      split; [exists x | exists y]; split_and!; try done; by right.
    + intros x Hx Hxc. apply elem_of_cons in Hx as [-> | Hx]; [left; by left |].
      destruct (Hnew x Hx Hxc); [left; by right | by right].
    + intros x Hx Hxc. apply elem_of_cons in Hx as [-> | Hx]; [by left |].
      right. by apply Hold.
  - set (w := wait_at env now (path file_info) (with_history h m)).
    specialize (IH (now + 1000 * Z.of_nat (slept w)) (history w)).
    destruct (complete_each env m rest _ (history w)) as [[[done fs] now'] h'].
    simpl in IH. destruct IH as (Hp & Hkept & Hdone & Hnew & Hold).
    destruct (stable w); simpl.
    + split_and!.
      * f_equal. apply Hp.
      * intros x Hx Hxc. apply elem_of_cons in Hx as [-> | Hx]; [congruence |].
        right. by apply Hkept.
      * intros p Hin. apply elem_of_cons in Hin as [-> | Hin].
        -- split; [exists file_info; split_and!; [by left | done | done] |].
           eexists. split_and!; [by left | done | done].
        -- destruct (Hdone p Hin) as ((x & ? & ? & ?) & (y & ? & ? & ?)).
           split; [exists x | exists y]; split_and!; try done; by right.
      * intros x Hx Hxc. apply elem_of_cons in Hx as [-> | Hx]; [right; by left |].
        destruct (Hnew x Hx Hxc); [left; by right | right; by right].
      * intros x Hx Hxc. apply elem_of_cons in Hx as [-> | Hx]; [done |].
        right. by apply Hold.
    + split_and!.
      * f_equal. apply Hp.
      * intros x Hx Hxc. apply elem_of_cons in Hx as [-> | Hx]; [by left |].
        right. by apply Hkept.
      * intros p Hin. destruct (Hdone p Hin) as ((x & ? & ? & ?) & (y & ? & ? & ?)).
        split; [exists x | exists y]; split_and!; try done; by right.
      * intros x Hx Hxc. apply elem_of_cons in Hx as [-> | Hx]; [left; by left |].
        destruct (Hnew x Hx Hxc); [left; by right | by right].
      * intros x Hx Hxc. apply elem_of_cons in Hx as [-> | Hx]; [by left |].
        right. by apply Hold.
Qed.

Lemma handle_concurrent_downloads_fields env now m :
  let r := handle_concurrent_downloads env now m in
  downloads_path r.1.2 = downloads_path m ∧
  completion_timeout r.1.2 = completion_timeout m ∧
  monitoring r.1.2 = monitoring m ∧
  observer r.1.2 = observer m ∧
  event_handler r.1.2 = event_handler m ∧
  detected_files r.1.2 =
    (complete_each env m (detected_files m) now (error_history m)).1.1.2 ∧
  r.1.1 = (complete_each env m (detected_files m) now (error_history m)).1.1.1.
Proof.
  unfold handle_concurrent_downloads.
  by destruct (complete_each _ _ _ _ _) as [[[done fs] now'] h'].
Qed.

(** Entries with pairwise distinct paths are told apart by their path. *)
Lemma same_path_same_entry (fs : list FileInfo) x y :
  NoDup (path <$> fs) → x ∈ fs → y ∈ fs → path x = path y → x = y.
Proof.
  induction fs as [| z fs IH]; intros Hnodup Hx Hy Hp; [by apply elem_of_nil in Hx |].
  rewrite fmap_cons in Hnodup. apply NoDup_cons in Hnodup as [Hz Hnodup].
  apply elem_of_cons in Hx as [-> | Hx], Hy as [-> | Hy]; [done | | | by apply IH].
  - destruct Hz. rewrite Hp. by apply list_elem_of_fmap_2.
  - destruct Hz. rewrite <- Hp. by apply list_elem_of_fmap_2.
Qed.

(** X10.  [handle_concurrent_downloads] returns the paths of the entries it
    has just marked completed.  The entries keep their paths and their
    order; an entry that was completed stays as it is; every path returned
    belonged to an entry that was not completed and now is; an entry that
    is completed afterwards was so before or has its path returned.  When
    the paths are pairwise distinct, a path returned once is never
    returned by a later call. *)
Theorem handle_concurrent_downloads_marks_completed
    (env : Env) (now : Z) (m : Monitor) :
  let r := handle_concurrent_downloads env now m in
  let completed_files := r.1.1 in
  let m' := r.1.2 in
  path <$> detected_files m' = path <$> detected_files m ∧
  (∀ file_info, file_info ∈ detected_files m → completed file_info = true →
                file_info ∈ detected_files m') ∧
  (∀ p, p ∈ completed_files →
     (∃ file_info, file_info ∈ detected_files m ∧ path file_info = p ∧
                   completed file_info = false) ∧
     (∃ file_info, file_info ∈ detected_files m' ∧ path file_info = p ∧
                   completed file_info = true)) ∧
  (∀ file_info, file_info ∈ detected_files m' → completed file_info = true →
                file_info ∈ detected_files m ∨ path file_info ∈ completed_files) ∧
  (NoDup (path <$> detected_files m) →
   ∀ env2 now2 p, p ∈ completed_files →
                  p ∉ (handle_concurrent_downloads env2 now2 m').1.1).
Proof.
  intros r completed_files m'. subst completed_files m' r.
  destruct (handle_concurrent_downloads_fields env now m)
    as (_ & _ & _ & _ & _ & -> & ->).
  destruct (complete_each_inv env m (detected_files m) now (error_history m))
    as (Hp & Hkept & Hdone & Hnew & _).
  split_and!; [done | done | done | done |].
  intros Hnodup env2 now2 p Hin Hin2.
  set (m' := (handle_concurrent_downloads env now m).1.2).
  assert (Hfs : detected_files m' =
    (complete_each env m (detected_files m) now (error_history m)).1.1.2)
    by apply handle_concurrent_downloads_fields.
  destruct (handle_concurrent_downloads_fields env2 now2 m')
    as (_ & _ & _ & _ & _ & _ & Heq).
  fold m' in Hin2. rewrite Heq in Hin2.
  destruct (complete_each_inv env2 m' (detected_files m') now2 (error_history m'))
    as (_ & _ & Hdone2 & _).
  destruct (Hdone2 p Hin2) as ((x & Hx & Hxp & Hxc) & _).
  destruct (Hdone p Hin) as (_ & (y & Hy & Hyp & Hyc)).
  rewrite <- Hfs in Hy.
  assert (x = y); [| congruence].
  apply (same_path_same_entry (detected_files m')); [| done | done | congruence].
  by rewrite Hfs, Hp.
Qed.

(** One call on the monitor keeps what [__init__] set up. *)
Lemma call_preserves m c :
  (monitoring m = true → is_Some (observer m) ∧ event_handler m = true) →
  NoDup (path <$> detected_files m) →
  let m' := call m c in
  (monitoring m' = true → is_Some (observer m') ∧ event_handler m' = true) ∧
  NoDup (path <$> detected_files m') ∧
  downloads_path m' = downloads_path m ∧
  completion_timeout m' = completion_timeout m.
Proof.
  intros Hobs Hnodup. destruct c as [host | outcome | now p | env now | outcome]; simpl.
  - destruct (start_monitoring_fields host m) as (Hd & Ht & Hf & Hm).
    split_and!; [| by rewrite Hf | done | done].
    intros Hon. destruct (Hm Hon) as [? | Heq]; [done |].
    rewrite Heq in *. auto.
  - destruct (stop_monitoring_fields outcome m) as (Hd & Ht & Hf & _ & Hm).
    split_and!; [| by rewrite Hf | done | done].
    intros Hon. destruct (Hm Hon) as (Hon' & -> & Hsome).
    destruct (Hobs Hon'). auto.
  - pose proof (on_mp3_detected_nodup now p m Hnodup) as Hnodup'.
    split; [| split; [done |]];
      unfold _on_mp3_detected; by destruct (bool_decide _).
  - destruct (handle_concurrent_downloads_fields env now m)
      as (Hd & Ht & Hm & Ho & He & Hf & _).
    rewrite Hm, Ho, He, Hf.
    destruct (complete_each_inv env m (detected_files m) now (error_history m))
      as (-> & _).
    by split_and!.
  - unfold cleanup. simpl.
    destruct (stop_monitoring_fields outcome m) as (Hd & Ht & Hf & _ & Hm).
    split_and!; [| apply NoDup_nil_2 | done | done].
    intros Hon. destruct (Hm Hon) as (Hon' & -> & Hsome).
    destruct (Hobs Hon'). auto.
Qed.

(** X11.  An invariant of the monitor.  Take the monitor [DownloadMonitor()]
    builds and call [start_monitoring], [stop_monitoring],
    [_on_mp3_detected], [handle_concurrent_downloads] and [cleanup] on it,
    any number of times, in any order, whatever the folder and the observer
    do.  Then: the paths of [detected_files] are pairwise distinct; when
    [monitoring] is set there is an observer and an event handler; the
    downloads path is the one found at construction; and the completion
    timeout is 30. *)
Theorem monitor_invariant
    (host host' : Host) (m : Monitor) (calls : list MonitorCall) :
  init host = (Ok m, host') →
  let m' := foldl call m calls in
  NoDup (path <$> detected_files m') ∧
  (monitoring m' = true → is_Some (observer m') ∧ event_handler m' = true) ∧
  downloads_path m' = downloads_path m ∧
  completion_timeout m' = 30%nat.
Proof.
  intros Hinit.
  assert (Hstart : (monitoring m = true → is_Some (observer m) ∧ event_handler m = true) ∧
                   NoDup (path <$> detected_files m) ∧
                   completion_timeout m = 30%nat).
  { unfold init in Hinit.
    destruct (_get_downloads_path None host) as [[[p | e] l] h]; inversion Hinit.
    simpl. split_and!; [done | apply NoDup_nil_2 | done]. }
  clear Hinit. destruct Hstart as (Hobs & Hnodup & Htimeout).
  induction calls as [| c calls IH] using rev_ind; simpl; [done |].
  rewrite foldl_app. simpl. destruct IH as (Hn & Ho & Hd & Ht).
  destruct (call_preserves _ c Ho Hn) as (? & ? & ? & ?).
  split_and!; [done | done | congruence | congruence].
Qed.

(** X12.  [stop_monitoring] undoes [start_monitoring].  On a monitor that
    is not monitoring and has no observer, a start that returns leaves
    the monitor active, and a stop in which the observer stops gives back
    the monitor exactly as it was before the start.  Stopping a monitor
    that is not monitoring returns [True] and changes nothing, whatever
    the observer would do. *)
Theorem stop_monitoring_undoes_start
    (host : Host) (m m1 : Monitor) (b : bool) :
  monitoring m = false → observer m = None → event_handler m = false →
  start_monitoring host m = (Ok b, m1) →
  b = true ∧ monitoring m1 = true ∧
  stop_monitoring Stops m1 = (true, m) ∧
  ∀ outcome, stop_monitoring outcome m = (true, m).
Proof.
  intros Hm Ho He Hstart. unfold start_monitoring in Hstart. rewrite Hm in Hstart.
  destruct (negb _); [by inversion Hstart |].
  destruct (observer_fault host); inversion Hstart; subst.
  split_and!; [done | done | |].
  - unfold stop_monitoring. simpl. destruct m; simpl in *. by subst.
  - intros outcome. unfold stop_monitoring. by rewrite Hm.
Qed.

(** X13.  [cleanup] empties [detected_files] in every case, even when the
    observer could not be stopped.  When the observer stops, the monitor
    is left inactive, without observer, and a [detect_new_mp3] that
    follows raises [DownloadError] at once.  When stopping the observer
    raises, the error is swallowed and the monitor is still monitoring,
    with no file listed. *)
Theorem cleanup_resets_monitor
    (outcome : StopOutcome) (m : Monitor) (fuel : nat) (env : Env)
    (now timeout : Z) :
  let m' := cleanup outcome m in
  detected_files m' = [] ∧
  downloads_path m' = downloads_path m ∧
  error_history m' = error_history m ∧
  (outcome = Stops → (monitoring m = true → is_Some (observer m)) →
   monitoring m' = false ∧
   ∃ e m'', detect_new_mp3 fuel env now timeout m' = Some (Err e, m'', now) ∧
            exn_class e = DownloadError) ∧
  (outcome ≠ Stops → monitoring m' = monitoring m).
Proof.
  intros m'. subst m'. unfold cleanup.
  destruct (stop_monitoring_fields outcome m) as (Hd & _ & _ & Hh & _).
  split_and!; [done | done | done | |].
  - intros -> Hobs.
    assert (Hoff : monitoring (stop_monitoring Stops m).2 = false).
    { unfold stop_monitoring. destruct (monitoring m) eqn:Hm; [| done].
      destruct (Hobs eq_refl) as [ob ->]. done. }
    split; [done |]. unfold detect_new_mp3. simpl. rewrite Hoff. simpl. eauto.
  - intros Hnot. unfold stop_monitoring. simpl.
    destruct (monitoring m) eqn:Hm; [| done].
    destruct (observer m); [| done]. by destruct outcome.
Qed.

(** *** Recent files *)

#[local] Abbreviation newer_first := (λ a b : Z * string, (b.1 ≤ a.1)%Z).

Lemma insert_reverse_perm x l : insert_reverse x l ≡ₚ x :: l.
Proof.
  induction l as [| y l IH]; simpl; [done |].
  destruct (Z.leb y.1 x.1); [done |].
  rewrite IH. apply Permutation_swap.
Qed.

Lemma insert_reverse_sorted x l :
  StronglySorted newer_first l → StronglySorted newer_first (insert_reverse x l).
Proof.
  induction l as [| y l IH]; simpl; intros Hs.
  { apply SSorted_cons; [done | by apply Forall_nil]. }
  apply StronglySorted_inv in Hs as [Hl Hy].
  destruct (Z.leb_spec y.1 x.1).
  - apply SSorted_cons; [by apply SSorted_cons |].
    apply Forall_cons. split; [done |].
    eapply Forall_impl; [exact Hy |]. simpl. intros z ?. lia.
  - apply SSorted_cons; [by apply IH |].
    rewrite insert_reverse_perm. apply Forall_cons. split; [simpl; lia | done].
Qed.

Lemma sorted_reverse_perm l : sorted_reverse l ≡ₚ l.
Proof.
  induction l as [| x l IH]; simpl; [done |].
  by rewrite insert_reverse_perm, IH.
Qed.

Lemma sorted_reverse_sorted l : StronglySorted newer_first (sorted_reverse l).
Proof.
  induction l as [| x l IH]; simpl; [apply SSorted_nil |].
  by apply insert_reverse_sorted.
Qed.

Lemma with_keys_ok key xs keyed :
  with_keys key xs = Ok keyed →
  keyed.*2 = xs ∧ Forall (λ kx, key kx.2 = Ok kx.1) keyed.
Proof.
  revert keyed. induction xs as [| x xs IH]; simpl; intros keyed H.
  { injection H as <-. split; [done | by apply Forall_nil]. }
  destruct (key x) as [k |] eqn:Hk; simpl in H; [| done].
  destruct (with_keys key xs) as [keyed' |]; simpl in H; [| done].
  inversion H; subst. destruct (IH keyed' eq_refl) as [<- ?].
  split; [done |]. by apply Forall_cons.
Qed.

Lemma strongly_sorted_with {A} (R : relation A) (P : A → Prop) l :
  StronglySorted R l → Forall P l →
  StronglySorted (λ a b, R a b ∧ P a ∧ P b) l.
Proof.
  induction 1 as [| a l Hs IH Ha]; intros Hall; [apply SSorted_nil |].
  apply Forall_cons in Hall as [Hpa Hall].
  apply SSorted_cons; [by apply IH |].
  rewrite Forall_forall in Ha, Hall. apply Forall_forall. intros b Hb.
  split_and!; auto.
Qed.

Lemma recent_among_ok folder downloads cutoff_time names recent :
  recent_among folder downloads cutoff_time names = Ok recent →
  ∀ p, p ∈ recent ↔
       ∃ file_name creation_time,
         file_name ∈ names ∧
         Py.endswith (Py.lower file_name) ".mp3" = true ∧
         p = os_path_join downloads file_name ∧
         stat_ctime folder p = Ok creation_time ∧
         cutoff_time < creation_time.
Proof.
  revert recent. induction names as [| file_name names IH]; simpl; intros recent H p.
  { injection H as <-. split; [intros Hp; by apply elem_of_nil in Hp |].
    intros (? & ? & Hin & _). by apply elem_of_nil in Hin. }
  assert (Hskip : ∀ recent',
    recent_among folder downloads cutoff_time names = Ok recent' →
    (∀ t, Py.endswith (Py.lower file_name) ".mp3" = true →
          stat_ctime folder (os_path_join downloads file_name) = Ok t →
          cutoff_time < t → False) →
    p ∈ recent' ↔
    ∃ name creation_time,
      name ∈ file_name :: names ∧
      Py.endswith (Py.lower name) ".mp3" = true ∧
      p = os_path_join downloads name ∧
      stat_ctime folder p = Ok creation_time ∧
      cutoff_time < creation_time).
  { intros recent' Hrec Hnot. rewrite (IH _ Hrec p). split.
    - intros (name & t & ? & ?). exists name, t. split; [by right | done].
    - intros (name & t & Hin & Hext & -> & Hstat & Ht).
      apply elem_of_cons in Hin as [-> | Hin]; [by destruct (Hnot t) |].
      by exists name, t. }
  destruct (Py.endswith (Py.lower file_name) ".mp3") eqn:Hext;
    [| apply Hskip; [done | by intros]].
  destruct (stat_ctime folder (os_path_join downloads file_name))
    as [creation_time | e] eqn:Hstat.
  2: { destruct (is_OSError _); [| done]. apply Hskip; [done | by intros]. }
  destruct (recent_among folder downloads cutoff_time names) as [recent' |] eqn:Hrec;
    simpl in H; [| done].
  destruct (Z.ltb_spec cutoff_time creation_time); inversion H; subst recent.
  - rewrite elem_of_cons, (IH _ eq_refl p). split.
    + intros [-> | (name & t & ? & ?)].
      * exists file_name, creation_time. split_and!; [by left | done..].
      * exists name, t. split; [by right | done].
    + intros (name & t & Hin & Hext' & -> & Hstat' & Ht).
      apply elem_of_cons in Hin as [-> | Hin]; [by left |].
      right. by exists name, t.
  - apply Hskip; [done |]. intros t _ Ht ?.
    assert (t = creation_time) by congruence. lia.
Qed.

(** X14.  What [get_recent_mp3_files] returns, when it returns.  The list is
    in the order of [os.path.getctime], newest first.  It holds exactly
    the paths made of the downloads folder and a listed name that ends in
    [.mp3], whatever the case of the letters, for which [os.stat] gave
    a creation time later than the cut-off, [minutes] before the call.
    A file that [os.stat] fails on with an [OSError] is left out; a
    listing that fails with an [OSError] gives the empty list.
    [os.path.getctime] answered for every path returned: the sort is
    outside the handlers, so a file that qualifies and has vanished by
    then makes the call raise. *)
Theorem get_recent_mp3_files_newest_first
    (folder : Folder) (now minutes : Z) (m : Monitor) (recent : list string) :
  get_recent_mp3_files folder now minutes m = Ok recent →
  StronglySorted
    (λ p q, ∃ kp kq, getctime folder p = Ok kp ∧ getctime folder q = Ok kq ∧
                     (kq ≤ kp)%Z) recent ∧
  (∀ p, p ∈ recent → ∃ k, getctime folder p = Ok k) ∧
  (∀ p, p ∈ recent ↔
     ∃ names file_name creation_time,
       listdir folder = Ok names ∧ file_name ∈ names ∧
       Py.endswith (Py.lower file_name) ".mp3" = true ∧
       p = os_path_join (downloads_path m) file_name ∧
       stat_ctime folder p = Ok creation_time ∧
       now - minutes * 60000000 < creation_time) ∧
  (∀ e, listdir folder = Err e → recent = []).
Proof.
  intros H. unfold get_recent_mp3_files in H.
  set (cutoff_time := now - minutes * 60000000) in *.
  destruct (match listdir folder with
            | Ok names => recent_among folder (downloads_path m) cutoff_time names
            | Err e => if is_OSError (exn_class e) then Ok [] else Err e
            end) as [recent_files |] eqn:Hrecent; simpl in H; [| done].
  destruct (with_keys (getctime folder) recent_files) as [keyed |] eqn:Hkeys;
    simpl in H; [| done].
  inversion H; subst recent; clear H.
  apply with_keys_ok in Hkeys as [Hfiles Hkeyed].
  assert (Hperm : (sorted_reverse keyed).*2 ≡ₚ recent_files).
  { by rewrite sorted_reverse_perm, Hfiles. }
  assert (Hkeyed' : Forall (λ kx, getctime folder kx.2 = Ok kx.1) (sorted_reverse keyed)).
  { by rewrite sorted_reverse_perm. }
  split_and!.
  - eapply StronglySorted_fmap;
      [| exact (strongly_sorted_with _ _ _ (sorted_reverse_sorted keyed) Hkeyed')].
    intros a b (Hle & Ha & Hb). simpl. eauto.
  - intros p Hp. apply list_elem_of_fmap in Hp as (kx & -> & Hin).
    rewrite Forall_forall in Hkeyed'. eauto.
  - intros p. rewrite Hperm.
    destruct (listdir folder) as [names | e].
    + rewrite (recent_among_ok _ _ _ _ _ Hrecent p). split.
      * intros (file_name & t & ?). by exists names, file_name, t.
      * intros (names' & file_name & t & Heq & ?). inversion Heq; subst names'.
        by exists file_name, t.
    + destruct (is_OSError _); [| done]. injection Hrecent as <-. split.
      * intros Hp. by apply elem_of_nil in Hp.
      * by intros (? & ? & ? & ? & _).
  - intros e He. rewrite He in Hrecent.
    destruct (is_OSError _); [| done]. injection Hrecent as <-.
    by apply Permutation_nil_r in Hperm.
Qed.

(** *** The result of the monitoring *)

(** X15.  [create_download_result] against [DownloadResult.validate].  The
    result is a success exactly when a path was given and exists; a
    success carries the path and no message, a failure carries the
    message it was given and no path.  The result passes
    [DownloadResult.validate] exactly when it is a success or a message
    that is not empty was given: called with a path alone, as the
    controller does, it gives a valid result exactly when the file
    exists. *)
Theorem create_download_result_consistent
    (present : string → bool) (now : Z)
    (file_path error_message : option string) :
  present "" = false →
  let r := create_download_result present now file_path error_message in
  (DataModels.success r = true ↔ ∃ p, file_path = Some p ∧ present p = true) ∧
  (DataModels.success r = true →
   DataModels.file_path r = file_path ∧ DataModels.error_message r = None) ∧
  (DataModels.success r = false →
   DataModels.file_path r = None ∧ DataModels.error_message r = error_message) ∧
  (DataModels.DownloadResult_validate r = [] ↔
   DataModels.success r = true ∨ DataModels.given error_message = true).
Proof.
  intros Hempty r. subst r. unfold create_download_result.
  unfold DataModels.DownloadResult_validate. simpl.
  destruct file_path as [p |]; simpl.
  - destruct (present p) eqn:Hp; simpl.
    + assert (p ≠ "") as Hne by (intros ->; congruence).
      apply String.eqb_neq in Hne. rewrite Hne. simpl.
      split_and!; [split; eauto | done | done | split; auto].
    + split_and!; [split; [done | intros (? & [= <-] & ?); congruence] | done | done |].
      destruct (DataModels.given error_message); simpl;
        (split; [intros ?; by right | intros [? | ?]; done]).
  - split_and!; [split; [done | by intros (? & ? & _)] | done | done |].
    destruct (DataModels.given error_message); simpl;
        (split; [intros ?; by right | intros [? | ?]; done]).
Qed.

(** *** What the stabilisation loop needs to return [True] *)

Lemma poll_once_return_true T attempt p ob c l h h' :
  poll_once T attempt p ob c l h = (Return true, h') →
  poll_size ob = SizeIs l ∧ 0 < l ∧ (2 ≤ c)%nat ∧ h' = h ∧
  ∃ header, poll_header ob = HeaderIs header ∧ header_accepted header = true.
Proof.
  unfold poll_once. destruct (poll_size ob) as [n | e].
  2: { destruct (is_OSError _); by inversion 1. }
  destruct (Z.eqb_spec n l) as [-> |], (Z.ltb_spec 0 l); cbn [andb];
    try by inversion 1.
  destruct (Nat.leb_spec 3 (S c)); [| by inversion 1].
  destruct (poll_header ob) as [header | e].
  - destruct (header_accepted header) eqn:Hok; inversion 1; subst.
    split_and!; [done | done | lia | done |]. eauto.
  - destruct (is_OSError _); by inversion 1.
Qed.

Lemma poll_once_goes_on T attempt p ob c l h c' l' h' :
  poll_once T attempt p ob c l h = (Continue c' l', h') →
  poll_size ob = SizeIs l' ∧
  (c' = 0%nat ∨ (c' = S c ∧ l' = l ∧ 0 < l)) ∧
  (h' = h ∨ (attempt = (T - 1)%nat ∧ ∃ e, h' = h ++ [(e, "wait_for_completion")] ∧
                                        exn_class e = DownloadError ∧
                                        exn_file_path e = Some p)).
Proof.
  assert (Hplain : ∀ c0 l0,
    c0 = 0%nat ∨ (c0 = S c ∧ l0 = l ∧ 0 < l) →
    (Continue c0 l0, h) = (Continue c' l', h') →
    SizeIs l0 = SizeIs l' ∧
    (c' = 0%nat ∨ (c' = S c ∧ l' = l ∧ 0 < l)) ∧
    (h' = h ∨ (attempt = (T - 1)%nat ∧ ∃ e, h' = h ++ [(e, "wait_for_completion")] ∧
                                          exn_class e = DownloadError ∧
                                          exn_file_path e = Some p))).
  { intros c0 l0 Hc Heq. inversion Heq; subst. split_and!; [done | done | by left]. }
  unfold poll_once. destruct (poll_size ob) as [n | e].
  2: { destruct (is_OSError _); by inversion 1. }
  destruct (Z.eqb_spec n l) as [-> |], (Z.ltb_spec 0 l); cbn [andb];
    try (apply Hplain; by left).
  destruct (Nat.leb_spec 3 (S c)); [| apply Hplain; right; by split_and!].
  destruct (poll_header ob) as [header | e].
  - destruct (header_accepted header); [by inversion 1 | apply Hplain; by left].
  - destruct (is_OSError _); [| by inversion 1].
    destruct (Nat.eqb_spec attempt (T - 1)); [| apply Hplain; right; by split_and!].
    inversion 1; subst.
    split_and!; [done | right; by split_and! |]. right. split; [done |]. eexists.
    unfold handle_error. split_and!; done.
Qed.

Lemma poll_once_return_false T attempt p ob c l h h' :
  poll_once T attempt p ob c l h = (Return false, h') →
  ∃ e, h' = h ++ [(e, "wait_for_completion")] ∧
       exn_class e = DownloadError ∧ exn_file_path e = Some p.
Proof.
  unfold poll_once, unexpected_error, handle_error.
  destruct (poll_size ob) as [n | e].
  2: { destruct (is_OSError _); inversion 1; subst; eexists; by split_and!. }
  destruct (Z.eqb_spec n l) as [-> |], (Z.ltb_spec 0 l); cbn [andb];
    try by inversion 1.
  destruct (Nat.leb_spec 3 (S c)); [| by inversion 1].
  destruct (poll_header ob) as [header | e].
  - destruct (header_accepted header); by inversion 1.
  - destruct (is_OSError _); inversion 1; subst. eexists; by split_and!.
Qed.

(** The loop at attempt [attempt] with [c] polls counted: the [c] polls
    before this one, and the one before them, found the size [l]. *)
Lemma poll_loop_true T p polls remaining attempt c l h :
  (attempt = 0%nat ∧ c = 0%nat ∧ l = -1) ∨
    ((c < attempt)%nat ∧
     ∀ i, (attempt - S c ≤ i < attempt)%nat → poll_size (polls i) = SizeIs l) →
  let w := poll_loop T p polls remaining attempt c l h in
  stable w = true →
  (attempt ≤ slept w < attempt + remaining)%nat ∧ (3 ≤ slept w)%nat ∧
  (∃ n, 0 < n ∧
        ∀ i, (slept w - 3 ≤ i ≤ slept w)%nat → poll_size (polls i) = SizeIs n) ∧
  ∃ header, poll_header (polls (slept w)) = HeaderIs header ∧
            header_accepted header = true.
Proof.
  revert attempt c l h.
  induction remaining as [| remaining IH]; intros attempt c l h Hinv; simpl; [done |].
  destruct (poll_once T attempt p (polls attempt) c l h) as [[c' l' | b] h'] eqn:Hs.
  - intros Hstable.
    apply poll_once_goes_on in Hs as (Hsize & Hc & _).
    destruct (IH (S attempt) c' l' h') as (Hk & ? & ? & ?); [| done |].
    + right. destruct Hc as [-> | (-> & -> & Hpos)].
      * split; [lia |]. intros i Hi. by replace i with attempt by lia.
      * destruct Hinv as [(-> & -> & ->) | [Hlt Hpolls]]; [lia |].
        split; [lia |]. intros i Hi.
        destruct (decide (i = attempt)) as [-> | ?]; [done |].
        apply Hpolls. lia.
    + split_and!; [lia | lia | done..].
  - simpl. intros ->.
    apply poll_once_return_true in Hs as (Hsize & Hpos & Hc & _ & Hheader).
    destruct Hinv as [(-> & -> & ->) | [Hlt Hpolls]]; [lia |].
    split_and!; [lia | lia | lia | | done].
    exists l. split; [done |]. intros i Hi.
    destruct (decide (i = attempt)) as [-> | ?]; [done |].
    apply Hpolls. lia.
Qed.

(** What the loop reports: nothing on the way to [True]; on the way to
    [False] at least the error it ends with. *)
Lemma poll_loop_history T p polls remaining attempt c l h :
  (attempt + remaining = T)%nat →
  let w := poll_loop T p polls remaining attempt c l h in
  (stable w = true → history w = h) ∧
  (stable w = false →
   ∃ more e, history w = h ++ more ++ [(e, "wait_for_completion")] ∧
             (length more ≤ 1)%nat ∧
             exn_class e = DownloadError ∧ exn_file_path e = Some p).
Proof.
  revert attempt c l h.
  induction remaining as [| remaining IH]; intros attempt c l h HT; simpl.
  { split; [done |]. intros _. exists [], (mkDownloadError
      ("File did not stabilize within " +:+ pretty T +:+ " seconds") (Some p)).
    split_and!; [done | simpl; lia | done | done]. }
  destruct (poll_once T attempt p (polls attempt) c l h) as [[c' l' | b] h'] eqn:Hs.
  - apply poll_once_goes_on in Hs as (_ & _ & [-> | (Hlast & e & -> & He & Hp)]).
    { apply IH. lia. }
    assert (remaining = 0%nat) as -> by lia. simpl.
    split; [done |]. intros _.
    exists [(e, "wait_for_completion")], (mkDownloadError
      ("File did not stabilize within " +:+ pretty T +:+ " seconds") (Some p)).
    split_and!; [| simpl; lia | done | done].
    unfold handle_error. by rewrite <- app_assoc.
  - simpl. destruct b.
    + split; [| done]. intros _.
      by apply poll_once_return_true in Hs as (_ & _ & _ & -> & _).
    + split; [done |]. intros _.
      apply poll_once_return_false in Hs as (e & -> & He & Hp).
      exists [], e. split_and!; [done | simpl; lia | done | done].
Qed.


(** X16.  [wait_for_completion] returns [True] only for a file that exists
    at the call and whose size it has seen positive and unchanged at four
    polls in a row, the last of which found an accepted header: at least
    three seconds have been slept, fewer than the completion timeout.
    Nothing is reported to the error handler on the way to [True]. *)
Theorem wait_for_completion_true_only_if_stable
    (completion_timeout : nat) (file_path : string) (present : bool)
    (polls : nat → Poll) (h : Log) :
  let w := wait_for_completion completion_timeout file_path present polls h in
  stable w = true →
  present = true ∧
  (3 ≤ slept w < completion_timeout)%nat ∧
  (∃ n, 0 < n ∧
        ∀ i, (slept w - 3 ≤ i ≤ slept w)%nat → poll_size (polls i) = SizeIs n) ∧
  (∃ header, poll_header (polls (slept w)) = HeaderIs header ∧
             header_accepted header = true) ∧
  history w = h.
Proof.
  unfold wait_for_completion. destruct present; simpl; [| done].
  intros Hstable.
  destruct (poll_loop_true completion_timeout file_path polls completion_timeout
              0 0 (-1) h (or_introl (conj eq_refl (conj eq_refl eq_refl))) Hstable)
    as (Hk & Hthree & Hsizes & Hheader).
  split_and!; [done | lia | lia | done | done |].
  by apply (poll_loop_history completion_timeout file_path polls
              completion_timeout 0 0 (-1) h).
Qed.

(** X17.  What [wait_for_completion] tells the error handler.  For a path
    that does not exist it returns [False] at once and reports nothing.
    When it returns [True] it has reported nothing.  When it returns
    [False] for a file that exists, the last entry of the handler's
    history is a [DownloadError] for the path, under the context
    [wait_for_completion]; at most one entry precedes it, and what was in
    the history before is still there. *)
Theorem wait_for_completion_reports_failure
    (completion_timeout : nat) (file_path : string) (present : bool)
    (polls : nat → Poll) (h : Log) :
  let w := wait_for_completion completion_timeout file_path present polls h in
  (present = false → w = mkWaited false 0 h) ∧
  (stable w = true → history w = h) ∧
  (present = true → stable w = false →
   ∃ more e, history w = h ++ more ++ [(e, "wait_for_completion")] ∧
             (length more ≤ 1)%nat ∧
             exn_class e = DownloadError ∧ exn_file_path e = Some file_path).
Proof.
  unfold wait_for_completion. destruct present; simpl.
  - destruct (poll_loop_history completion_timeout file_path polls
                completion_timeout 0 0 (-1) h eq_refl) as [Htrue Hfalse].
    split_and!; [done | done | auto].
  - by split_and!.
Qed.

(** *** What [detect_new_mp3] returns *)

Lemma detect_loop_some fuel env timeout start_time k now m p m' now' :
  detect_loop fuel env timeout start_time k now m = Some (Some p, m', now') →
  (p ∈ path <$> detected_files m ∨ ∃ j, p ∈ arrivals env j) ∧
  (∃ file_info, file_info ∈ detected_files m' ∧ path file_info = p ∧
                completed file_info = true) ∧
  ∃ t m0,
    (now ≤ t)%Z ∧ completion_timeout m0 = completion_timeout m ∧
    stable (wait_at env t p m0) = true ∧
    now' = t + 1000 * Z.of_nat (slept (wait_at env t p m0)) ∧
    error_history m' = history (wait_at env t p m0).
Proof.
  revert k now m. induction fuel as [| fuel IH]; intros k now m H; [done |].
  simpl in H. destruct (Z.ltb (now - start_time) (1000 * timeout)); [| by inversion H].
  pose proof (scan_time env m [] (detected_files m) now (error_history m)) as Htime.
  destruct (scan env m [] (detected_files m) now (error_history m))
    as [[[[q |] fs] now1] h1] eqn:Hscan; simpl in Htime.
  - inversion H; subst q m' now1; clear H.
    apply scan_some in Hscan
      as (pre & x & post & t & h0 & Hfiles & Hp & Hc & -> & Hle & Hs & -> & ->).
    split_and!.
    + left. rewrite Hfiles, fmap_app, fmap_cons, Hp.
      apply elem_of_app. right. by left.
    + exists (mkFileInfo p (detected_time x) true). split_and!; [| done | done].
      simpl. rewrite elem_of_app, elem_of_cons. auto.
    + exists t, (with_history h0 m). by split_and!.
  - apply scan_none_entries in Hscan as ->. simpl in H.
    apply IH in H as (Hfrom & Hmarked & t & m0 & Hle & Htimeout & Hrest).
    split_and!; [| done |].
    + destruct Hfrom as [Hfrom | ?]; [| by right].
      apply announced_paths in Hfrom as [? | ?]; [by left | right; eauto].
    + destruct Hrest as (? & ? & ?).
      exists t, m0. split_and!; [lia | | done | done | done].
      by rewrite Htimeout, announced_timeout.
Qed.

(** X18.  A path returned by [detect_new_mp3] is the path of a file that
    was announced, by an entry of [detected_files] at the call or by the
    observer during it; [wait_for_completion] has returned [True] for it
    at some time after the call, and [detect_new_mp3] returns when that
    wait ends; its entry is marked completed in the monitor that is left.
    The monitor was monitoring. *)
Theorem detect_new_mp3_returns_completed_file
    (fuel : nat) (env : Env) (now timeout : Z) (m : Monitor)
    (file_path : string) (m' : Monitor) (now' : Z) :
  detect_new_mp3 fuel env now timeout m = Some (Ok (Some file_path), m', now') →
  monitoring m = true ∧
  (file_path ∈ path <$> detected_files m ∨ ∃ j, file_path ∈ arrivals env j) ∧
  (∃ file_info, file_info ∈ detected_files m' ∧ path file_info = file_path ∧
                completed file_info = true) ∧
  ∃ t m0,
    (now ≤ t)%Z ∧ completion_timeout m0 = completion_timeout m ∧
    stable (wait_at env t file_path m0) = true ∧
    now' = t + 1000 * Z.of_nat (slept (wait_at env t file_path m0)) ∧
    error_history m' = history (wait_at env t file_path m0).
Proof.
  unfold detect_new_mp3. destruct (monitoring m); simpl; [| by inversion 1].
  destruct (detect_loop fuel env timeout now 0 now m) as [[[r m1] now1] |] eqn:Hloop;
    [| by inversion 1].
  inversion 1; subst. split; [done |]. by eapply detect_loop_some.
Qed.

End MonitorContracts.

(** ** The main controller *)

Module ControllerFacts.
Import MainController.

(** A request that finds [is_processing] set is turned away: the error is
    shown, no worker is started and nothing else changes. *)
Lemma request_rejected_while_processing c :
  is_processing c = true →
  let c' := _handle_download_request c in
  gui_errors c' = gui_errors c ++ [already_running] ∧
  workers c' = workers c ∧
  remote_triggers c' = remote_triggers c ∧
  detector_starts c' = detector_starts c ∧
  is_processing c' = is_processing c.
Proof. intros H. unfold _handle_download_request. by rewrite H. Qed.

(** A request that finds the flag clear starts a worker, and leaves the
    flag clear: it is the worker that sets it. *)
Lemma request_accepted_leaves_flag c :
  is_processing c = false →
  let c' := _handle_download_request c in
  workers c' = workers c ++ [Spawned] ∧ is_processing c' = false ∧
  gui_errors c' = gui_errors c.
Proof. intros H. unfold _handle_download_request. by rewrite H. Qed.

(** C6, the code at the failing schedule.  Two requests arrive before the
    first worker has run [self.is_processing = True]: neither is turned
    away, two workers are active at once, the remote conversion is
    triggered twice and the detector is started twice.  A second request
    that arrives after the first worker has set the flag is turned away
    without any of this. *)
Theorem single_flight_race :
  let c := run Examples.two_quick_requests init in
  gui_errors c = [] ∧
  workers c = [MetadataApplication; MetadataApplication] ∧
  active c = 2%nat ∧
  remote_triggers c = 2%nat ∧
  detector_starts c = 2%nat ∧
  let c' := run Examples.two_spaced_requests init in
  gui_errors c' = [already_running] ∧ active c' = 1%nat ∧
  remote_triggers c' = 0%nat ∧ detector_starts c' = 0%nat.
Proof. by vm_compute. Qed.

End ControllerFacts.

(** ** The contracts of the controller's methods *)

Module ControllerContracts.
Import MainController.

#[local] Abbreviation count f ws :=
  (length (filter (λ stage : Stage, f stage = true) ws)).

Lemma count_app (f : Stage → bool) ws ws' :
  count f (ws ++ ws') = (count f ws + count f ws')%nat.
Proof. by rewrite filter_app, length_app. Qed.

Lemma count_insert (f : Stage → bool) ws i x y :
  ws !! i = Some x →
  (count f (<[i := y]> ws) + Nat.b2n (f x) = count f ws + Nat.b2n (f y))%nat.
Proof.
  revert i. induction ws as [| s ws IH]; intros i; [done |].
  destruct i as [| i]; simpl.
  - intros [= ->]. rewrite !filter_cons.
    destruct (decide (f y = true)) as [-> | Hy], (decide (f x = true)) as [-> | Hx];
      simpl; try lia.
    + apply not_true_is_false in Hx. rewrite Hx. simpl. lia.
    + apply not_true_is_false in Hy. rewrite Hy. simpl. lia.
    + apply not_true_is_false in Hx, Hy. rewrite Hx, Hy. simpl. lia.
  - intros Hi. specialize (IH i Hi). rewrite !filter_cons.
    destruct (decide (f s = true)); simpl; lia.
Qed.

Lemma count_le (f : Stage → bool) ws : (count f ws ≤ length ws)%nat.
Proof. apply length_filter. Qed.

(** A request or a retry: [_handle_download_request] adds a spawned
    worker or shows an error. *)
Lemma handle_download_request_inv c :
  let c' := _handle_download_request c in
  is_processing c' = is_processing c ∧
  remote_triggers c' = remote_triggers c ∧
  detector_starts c' = detector_starts c ∧
  (workers c' = workers c ∨ workers c' = workers c ++ [Spawned]).
Proof. unfold _handle_download_request. destruct (is_processing c); simpl; auto. Qed.

(** The step of a worker, by the stage it is at. *)
Lemma perform_step c i stage outcome :
  workers c !! i = Some stage →
  let c' := perform c (Step i outcome) in
  workers c' = <[i := (worker_step outcome stage c).1]> (workers c) ∧
  is_processing c' = is_processing (worker_step outcome stage c).2 ∧
  current_operation c' = current_operation (worker_step outcome stage c).2 ∧
  remote_triggers c' = remote_triggers (worker_step outcome stage c).2 ∧
  detector_starts c' = detector_starts (worker_step outcome stage c).2 ∧
  gui_errors c' = gui_errors (worker_step outcome stage c).2.
Proof.
  intros Hi. simpl. rewrite Hi.
  destruct stage; simpl; by split_and!.
Qed.

(** The three facts every reachable state of the controller satisfies. *)
Lemma command_preserves c x :
  (is_processing c = true →
   ∃ i stage, workers c !! i = Some stage ∧ in_flight stage = true) →
  remote_triggers c = count has_triggered (workers c) →
  (detector_starts c +
     count (λ stage, bool_decide (stage = DownloadMonitoring)) (workers c)
   ≤ remote_triggers c)%nat →
  let c' := command c x in
  (is_processing c' = true →
   ∃ i stage, workers c' !! i = Some stage ∧ in_flight stage = true) ∧
  remote_triggers c' = count has_triggered (workers c') ∧
  (detector_starts c' +
     count (λ stage, bool_decide (stage = DownloadMonitoring)) (workers c')
   ≤ remote_triggers c')%nat.
Proof.
  intros Hflag Hremote Hdetector.
  assert (Hrequest : ∀ c1,
    is_processing c1 = is_processing c →
    remote_triggers c1 = remote_triggers c →
    detector_starts c1 = detector_starts c →
    workers c1 = workers c ∨ workers c1 = workers c ++ [Spawned] →
    (is_processing c1 = true →
     ∃ i stage, workers c1 !! i = Some stage ∧ in_flight stage = true) ∧
    remote_triggers c1 = count has_triggered (workers c1) ∧
    (detector_starts c1 +
       count (λ stage, bool_decide (stage = DownloadMonitoring)) (workers c1)
     ≤ remote_triggers c1)%nat).
  { intros c1 -> -> -> [-> | ->]; [done |].
    rewrite !count_app. simpl. split_and!; [| lia | lia].
    intros Hon. destruct (Hflag Hon) as (i & stage & Hi & Hs).
    exists i, stage. split; [| done]. by apply lookup_app_l_Some. }
  destruct x as [[| i outcome] | gui_fault |]; simpl.
  - apply Hrequest; apply handle_download_request_inv.
  - destruct (workers c !! i) as [stage |] eqn:Hi; [| done].
    pose proof (count_insert has_triggered (workers c) i stage) as Ht.
    pose proof (count_insert (λ stage, bool_decide (stage = DownloadMonitoring))
                  (workers c) i stage) as Hd.
    assert (Hother : ∀ stage',
      in_flight stage' = true →
      is_processing c = true →
      ∃ j s, <[i := stage']> (workers c) !! j = Some s ∧ in_flight s = true).
    { intros stage' Hs' Hon. exists i, stage'. split; [| done].
      apply list_lookup_insert_eq. by eapply lookup_lt_Some. }
    destruct stage; simpl.
    + specialize (Ht BrowserAutomation Hi). specialize (Hd BrowserAutomation Hi).
      simpl in Ht, Hd. split_and!; [| lia | lia].
      intros _. exists i, BrowserAutomation. split; [| done].
      apply list_lookup_insert_eq. by eapply lookup_lt_Some.
    + specialize (Ht (next_stage outcome DownloadMonitoring) Hi).
      specialize (Hd (next_stage outcome DownloadMonitoring) Hi).
      destruct outcome; simpl in *; (split_and!; [by apply Hother | lia | lia]).
    + specialize (Ht (next_stage outcome MetadataApplication) Hi).
      specialize (Hd (next_stage outcome MetadataApplication) Hi).
      destruct outcome; simpl in *; (split_and!; [by apply Hother | lia | lia]).
    + specialize (Ht Cleanup Hi). specialize (Hd Cleanup Hi).
      simpl in *. split_and!; [by apply Hother | lia | lia].
    + specialize (Ht Finished Hi). specialize (Hd Finished Hi).
      simpl in *. split_and!; [done | lia | lia].
    + rewrite list_insert_id by done. by split_and!.
  - unfold cancel_operation. destruct (is_processing c) eqn:Hon; simpl;
      [| split_and!; [by rewrite Hon | done | done]].
    destruct gui_fault; simpl; by split_and!.
  - unfold retry_current_operation. destruct (is_processing c) eqn:Hon; simpl.
    + split_and!; [intros _; by apply Hflag | done | done].
    + apply Hrequest; try apply handle_download_request_inv.
      destruct (handle_download_request_inv c) as (-> & _). done.
Qed.

(** X19.  An invariant of the controller.  After any sequence of requests,
    retries, cancellations and steps of the workers, in any order:
    [is_processing] is set only while some worker is between its first
    statement and the end of its [finally], so that once every worker has
    finished the flag is clear; the remote conversion has been triggered
    once for each worker that got past the browser stage; and the
    detector has been started no more often than the conversion was
    triggered, which is no more often than requests were accepted. *)
Theorem controller_invariant (commands : list Command) :
  let c := foldl command init commands in
  (is_processing c = true →
   ∃ i stage, workers c !! i = Some stage ∧ in_flight stage = true) ∧
  remote_triggers c =
    length (filter (λ stage, has_triggered stage = true) (workers c)) ∧
  (detector_starts c ≤ remote_triggers c ≤ length (workers c))%nat.
Proof.
  assert (Hinv : let c := foldl command init commands in
    (is_processing c = true →
     ∃ i stage, workers c !! i = Some stage ∧ in_flight stage = true) ∧
    remote_triggers c = count has_triggered (workers c) ∧
    (detector_starts c +
       count (λ stage, bool_decide (stage = DownloadMonitoring)) (workers c)
     ≤ remote_triggers c)%nat).
  { induction commands as [| x commands IH] using rev_ind; [by simpl |].
    rewrite foldl_app. simpl. destruct IH as (? & ? & ?).
    by apply command_preserves. }
  simpl in *. destruct Hinv as (Hflag & Hremote & Hdetector).
  split_and!; [done | done | lia |].
  rewrite Hremote. apply count_le.
Qed.

(** X20.  [cancel_operation] clears the flag and stops no worker.  Whatever
    the state and whether or not the GUI update raises: afterwards
    [is_processing] is clear and the workers are where they were; a
    request made then is accepted, so that one more worker is active than
    before the cancellation and no error is shown for the request. *)
Theorem cancel_does_not_stop_worker (gui_fault : option Exn) (c : Controller) :
  let c1 := (cancel_operation gui_fault c).2 in
  let c2 := _handle_download_request c1 in
  is_processing c1 = false ∧
  workers c1 = workers c ∧
  active c1 = active c ∧
  workers c2 = workers c ++ [Spawned] ∧
  active c2 = S (active c) ∧
  gui_errors c2 = gui_errors c1.
Proof.
  assert (Hoff : is_processing (cancel_operation gui_fault c).2 = false ∧
                 workers (cancel_operation gui_fault c).2 = workers c).
  { unfold cancel_operation. destruct (is_processing c) eqn:Hon; simpl; [| done].
    by destruct gui_fault. }
  destruct Hoff as [Hoff Hworkers]. simpl.
  unfold _handle_download_request, active. rewrite Hoff. simpl. rewrite Hworkers.
  split_and!; try done.
  rewrite filter_app, length_app. simpl. lia.
Qed.

(** X21.  A worker runs its five steps to the end.  For a worker that has
    just been spawned and then runs alone: its first step sets
    [is_processing]; it calls the browser automation once; it starts the
    detector exactly when the browser automation succeeded, and applies
    the metadata exactly when the detection succeeded too; what has been
    shown at the end is what the first failing stage showed, which is
    nothing when the monitoring stage ends on a result without success,
    and nothing of a later stage; and it ends finished with
    [is_processing] clear and no current operation, in every case. *)
Theorem worker_runs_to_completion
    (c : Controller) (i : nat)
    (browser monitoring metadata ignored ignored' : Outcome) :
  workers c !! i = Some Spawned →
  let c' :=
    run [Step i ignored; Step i browser; Step i monitoring; Step i metadata;
         Step i ignored'] c in
  is_processing (run [Step i ignored] c) = true ∧
  workers c' = <[i := Finished]> (workers c) ∧
  is_processing c' = false ∧ current_operation c' = None ∧
  remote_triggers c' = S (remote_triggers c) ∧
  detector_starts c' =
    (if browser is None then S (detector_starts c) else detector_starts c) ∧
  metadata_applications c' =
    match browser, monitoring with
    | None, None => S (metadata_applications c)
    | _, _ => metadata_applications c
    end ∧
  gui_errors c' =
    gui_errors c ++
      match browser, monitoring, metadata with
      | Some messages, _, _ => messages
      | None, Some messages, _ => messages
      | None, None, Some messages => messages
      | None, None, None => []
      end.
Proof.
  intros Hi. assert (Hlt : (i < length (workers c))%nat) by by eapply lookup_lt_Some.
  unfold run. simpl. rewrite Hi. simpl. split; [done |].
  rewrite list_lookup_insert_eq by done. simpl.
  destruct browser as [messages |]; simpl;
    rewrite ?list_lookup_insert_eq by (by rewrite ?length_insert); simpl.
  - rewrite list_lookup_insert_eq by (by rewrite ?length_insert). simpl.
    rewrite list_lookup_insert_eq by (by rewrite ?length_insert). simpl.
    rewrite !list_insert_insert_eq. by split_and!.
  - destruct monitoring as [messages |]; simpl;
      rewrite ?list_lookup_insert_eq by (by rewrite ?length_insert); simpl.
    + rewrite list_lookup_insert_eq by (by rewrite ?length_insert). simpl.
      rewrite !list_insert_insert_eq. by split_and!.
    + destruct metadata as [messages |]; simpl;
        rewrite ?list_lookup_insert_eq by (by rewrite ?length_insert); simpl;
        rewrite !list_insert_insert_eq; split_and!; try done;
        by rewrite app_nil_r.
Qed.

End ControllerContracts.

(** ** The stages of the workflow *)

Module WorkflowContracts.
Import World MetadataService MetadataFacts MetadataContracts Workflow.

(** X22.  How [_execute_metadata_application] ends.  It returns [True]
    exactly when [apply_metadata] returned, and then nothing is shown.
    When it returns [False] exactly one message has been shown: the list
    of validation errors, in which case the service was not called and
    the world is untouched, or [Metadata error:] followed by the message
    of the [MetadataError] that [apply_metadata] raised.  The two other
    branches of the method are never taken: [apply_metadata] does not
    return [False], and it raises nothing but [MetadataError], so the
    controller's own error handler is not called. *)
Theorem metadata_stage_outcomes
    (file_path : string) (user_input : DataModels.UserInput)
    (k : Console) (w : World) :
  let metadata_info :=
    DataModels.mkMetadataInfo
      (DataModels.input_artist user_input) (DataModels.input_title user_input)
      (DataModels.input_album user_input) (DataModels.input_track_number user_input)
      file_path in
  let r := _execute_metadata_application file_path user_input k w in
  reported r.1.2 = reported k ∧
  (r.1.1 = true →
   shown r.1.2 = shown k ∧
   apply_metadata file_path metadata_info w = (Ok true, r.2)) ∧
  (r.1.1 = false →
   (DataModels.validate metadata_info ≠ [] ∧ r.2 = w ∧
    shown r.1.2 =
      shown k ++ ["Invalid metadata: " +:+
                    Py.join ", " (DataModels.validate metadata_info)]) ∨
   (DataModels.validate metadata_info = [] ∧
    ∃ e, apply_metadata file_path metadata_info w = (Err e, r.2) ∧
         shown r.1.2 = shown k ++ ["Metadata error: " +:+ exn_message e])).
Proof.
  intros metadata_info r. subst r. unfold _execute_metadata_application.
  fold metadata_info.
  destruct (bool_decide_reflect (DataModels.validate metadata_info = []))
    as [Hvalid | Hinvalid]; simpl.
  2: { split_and!; [done | done |]. intros _. left. by split_and!. }
  destruct (apply_metadata file_path metadata_info w) as [[b | e] w'] eqn:Happly.
  - pose proof (apply_metadata_ok_inv _ _ _ _ _ Happly) as (-> & _). simpl.
    by split_and!.
  - pose proof (apply_metadata_err _ _ _ _ _ Happly) as (Hclass & _).
    rewrite bool_decide_eq_true_2 by done. simpl.
    split_and!; [done | done |]. intros _. right. split; [done |].
    by exists e.
Qed.

(** [detect_new_mp3] leaves the observer and the flag as they are. *)
Lemma announced_keeps_observer now l m :
  let m' := foldl (λ acc q, DownloadMonitor._on_mp3_detected now q acc) m l in
  DownloadMonitor.monitoring m' = DownloadMonitor.monitoring m ∧
  DownloadMonitor.observer m' = DownloadMonitor.observer m.
Proof.
  revert m. induction l as [| q l IH]; intros m; simpl; [done |].
  destruct (IH (DownloadMonitor._on_mp3_detected now q m)) as [-> ->].
  unfold DownloadMonitor._on_mp3_detected. by destruct (bool_decide _).
Qed.

Lemma detect_loop_keeps_observer fuel env timeout start_time j now m r m' now' :
  DownloadMonitor.detect_loop fuel env timeout start_time j now m = Some (r, m', now') →
  DownloadMonitor.monitoring m' = DownloadMonitor.monitoring m ∧
  DownloadMonitor.observer m' = DownloadMonitor.observer m.
Proof.
  revert j now m. induction fuel as [| fuel IH]; intros j now m H; [done |].
  simpl in H.
  destruct (Z.ltb (now - start_time) (1000 * timeout)); [| by inversion H].
  destruct (DownloadMonitor.scan env m [] (DownloadMonitor.detected_files m) now
              (DownloadMonitor.error_history m)) as [[[[q |] fs] now1] h1];
    [by inversion H |].
  apply IH in H as [-> ->].
  by destruct (announced_keeps_observer now1 (DownloadMonitor.arrivals env j)
                 (DownloadMonitor.with_history h1 (DownloadMonitor.with_detected fs m)))
    as [-> ->].
Qed.

Lemma detect_new_mp3_keeps_observer fuel env now timeout m r m' now' :
  DownloadMonitor.detect_new_mp3 fuel env now timeout m = Some (r, m', now') →
  DownloadMonitor.monitoring m' = DownloadMonitor.monitoring m ∧
  DownloadMonitor.observer m' = DownloadMonitor.observer m.
Proof.
  unfold DownloadMonitor.detect_new_mp3.
  destruct (DownloadMonitor.monitoring m) eqn:Hm; simpl; [| by inversion 1].
  destruct (DownloadMonitor.detect_loop fuel env timeout now 0 now m)
    as [[[r1 m1] now1] |] eqn:Hloop; [| done].
  inversion 1; subst. apply detect_loop_keeps_observer in Hloop as [-> ->]. done.
Qed.

Lemma stop_after_stops r k now m :
  (DownloadMonitor.monitoring m = true → is_Some (DownloadMonitor.observer m)) →
  DownloadMonitor.monitoring (stop_after DownloadMonitor.Stops r k m now).1.2 = false.
Proof.
  intros Hobs. unfold stop_after, DownloadMonitor.stop_monitoring. simpl.
  destruct (DownloadMonitor.monitoring m) eqn:Hm; [| done].
  by destruct (Hobs eq_refl) as [ob ->].
Qed.

Lemma monitoring_failed_shows e k :
  ∃ messages, messages ≠ [] ∧ shown (monitoring_failed e k) = shown k ++ messages.
Proof.
  unfold monitoring_failed. destruct (bool_decide _); simpl.
  - eexists [_]. done.
  - eexists [_; _]. by rewrite <- app_assoc.
Qed.

(** X23.  How [_execute_download_monitoring] ends, on a monitor that has an
    observer whenever it is monitoring.  In every case the [finally]
    clause has run: when the observer stops, the monitor is left not
    monitoring.  When no result is returned, at least one error has been
    shown.  When a result is returned, nothing has been shown and nothing
    reported, the monitoring had started and [detect_new_mp3] had
    returned; the result is the one [create_download_result] builds, at
    the time of that return, for the path [detect_new_mp3] returned or,
    when it returned [None] or an empty path, for the first of
    [get_recent_mp3_files(minutes=10)], the newest recent file; and it is
    a success exactly when that file exists then: a file gone by then
    gives a failed result without any message. *)
Theorem download_monitoring_stage_stops_monitor
    (download_timeout : Z) (host : DownloadMonitor.Host)
    (env : DownloadMonitor.Env) (folder : DownloadMonitor.Folder)
    (stop : DownloadMonitor.StopOutcome) (fuel : nat) (now : Z)
    (k : Console) (m : DownloadMonitor.Monitor)
    (r : option DataModels.DownloadResult) (k' : Console)
    (m' : DownloadMonitor.Monitor) (now' : Z) :
  _execute_download_monitoring download_timeout host env folder stop fuel now k m
    = Some (r, k', m', now') →
  (DownloadMonitor.monitoring m = true → is_Some (DownloadMonitor.observer m)) →
  (stop = DownloadMonitor.Stops → DownloadMonitor.monitoring m' = false) ∧
  match r with
  | Some result =>
      k' = k ∧
      ∃ m1 m2 detected file_path,
        DownloadMonitor.start_monitoring host m = (Ok true, m1) ∧
        DownloadMonitor.detect_new_mp3 fuel env now download_timeout m1
          = Some (Ok detected, m2, now') ∧
        m' = (DownloadMonitor.stop_monitoring stop m2).2 ∧
        (detected = Some file_path ∧ truthy file_path = true ∨
         (∀ path, detected = Some path → truthy path = false) ∧
         ∃ older,
           DownloadMonitor.get_recent_mp3_files folder (1000 * now') 10 m2
             = Ok (file_path :: older)) ∧
        result = DownloadMonitor.create_download_result
                   (DownloadMonitor.exists_at env now') (1000 * now')
                   (Some file_path) None ∧
        DataModels.success result = DownloadMonitor.exists_at env now' file_path ∧
        DataModels.file_path result =
          (if DownloadMonitor.exists_at env now' file_path
           then Some file_path else None) ∧
        DataModels.error_message result = None
  | None =>
      ∃ messages, messages ≠ [] ∧ shown k' = shown k ++ messages
  end.
Proof.
  intros H Hobs. unfold _execute_download_monitoring in H.
  destruct (DownloadMonitor.start_monitoring host m) as [rs m1] eqn:Hstart.
  assert (Hobs1 : DownloadMonitor.monitoring m1 = true →
                  is_Some (DownloadMonitor.observer m1)).
  { intros Hon.
    destruct (MonitorContracts.start_monitoring_fields host m) as (_ & _ & _ & Hm).
    rewrite Hstart in Hm. simpl in Hm.
    destruct (Hm Hon) as [[? _] | ->]; auto. }
  assert (Hend : ∀ r0 k0 m0 t0,
    (DownloadMonitor.monitoring m0 = true → is_Some (DownloadMonitor.observer m0)) →
    Some (stop_after stop r0 k0 m0 t0) = Some (r, k', m', now') →
    r = r0 ∧ k' = k0 ∧ now' = t0 ∧
    m' = (DownloadMonitor.stop_monitoring stop m0).2 ∧
    (stop = DownloadMonitor.Stops → DownloadMonitor.monitoring m' = false)).
  { intros r0 k0 m0 t0 Hobs0 Heq. inversion Heq; subst. split_and!; try done.
    intros ->. exact (stop_after_stops None k 0 m0 Hobs0). }
  assert (Hfail : ∀ e m0 t0,
    (DownloadMonitor.monitoring m0 = true → is_Some (DownloadMonitor.observer m0)) →
    Some (stop_after stop None (monitoring_failed e k) m0 t0) = Some (r, k', m', now') →
    (stop = DownloadMonitor.Stops → DownloadMonitor.monitoring m' = false) ∧
    r = None ∧ ∃ messages, messages ≠ [] ∧ shown k' = shown k ++ messages).
  { intros e m0 t0 Hobs0 Heq.
    apply Hend in Heq as (-> & -> & -> & _ & Hstop); [| done].
    split_and!; [done | done |]. apply monitoring_failed_shows. }
  destruct rs as [[|] | e].
  3: { by destruct (Hfail e m1 now Hobs1 H) as (? & -> & ?). }
  2: { apply Hend in H as (-> & -> & -> & _ & Hstop); [| done].
       split; [done |]. eexists [_]. done. }
  destruct (DownloadMonitor.detect_new_mp3 fuel env now download_timeout m1)
    as [[[rd m2] t] |] eqn:Hdetect; [| done].
  assert (Hobs2 : DownloadMonitor.monitoring m2 = true →
                  is_Some (DownloadMonitor.observer m2)).
  { apply detect_new_mp3_keeps_observer in Hdetect as [-> ->]. done. }
  destruct rd as [detected | e].
  2: { by destruct (Hfail e m2 t Hobs2 H) as (? & -> & ?). }
  cbv zeta in H.
  match goal with
  | |- ?G =>
      assert (Hfound : ∀ file_path,
        (detected = Some file_path ∧ truthy file_path = true ∨
         (∀ path, detected = Some path → truthy path = false) ∧
         ∃ older,
           DownloadMonitor.get_recent_mp3_files folder (1000 * t) 10 m2
             = Ok (file_path :: older)) →
        Some (stop_after stop
                (Some (DownloadMonitor.create_download_result
                         (DownloadMonitor.exists_at env t) (1000 * t)
                         (Some file_path) None)) k m2 t) = Some (r, k', m', now') →
        G)
  end.
  { intros file_path Hwhich Heq.
    apply Hend in Heq as (-> & -> & -> & -> & Hstop); [| done].
    split; [done |]. split; [done |]. exists m1, m2, detected, file_path.
    split_and!; try done;
      unfold DownloadMonitor.create_download_result; simpl;
      by destruct (DownloadMonitor.exists_at env t file_path). }
  match goal with
  | |- ?G =>
      assert (Hfallback :
        (∀ path, detected = Some path → truthy path = false) →
        match DownloadMonitor.get_recent_mp3_files folder (1000 * t) 10 m2 with
        | Err e => Some (stop_after stop None (monitoring_failed e k) m2 t)
        | Ok [] =>
            Some (stop_after stop None
                    (show_error
                       ("Download timeout: No MP3 file detected within "
                          +:+ Py.str_int (download_timeout / 60) +:+ " minutes.")
                       k) m2 t)
        | Ok (file_path :: _) =>
            Some (stop_after stop
                    (Some (DownloadMonitor.create_download_result
                             (DownloadMonitor.exists_at env t) (1000 * t)
                             (Some file_path) None)) k m2 t)
        end = Some (r, k', m', now') →
        G)
  end.
  { intros Hnone.
    destruct (DownloadMonitor.get_recent_mp3_files folder (1000 * t) 10 m2)
      as [[| file_path older] | e] eqn:Hrecent.
    - intros Heq. apply Hend in Heq as (-> & -> & -> & _ & Hstop); [| done].
      split; [done |]. eexists [_]. done.
    - apply Hfound. right. split; [done |]. by exists older.
    - intros Heq. by destruct (Hfail e m2 t Hobs2 Heq) as (? & -> & ?). }
  destruct detected as [file_path |]; [| by apply Hfallback].
  destruct (truthy file_path) eqn:Hpath.
  - apply (Hfound file_path); [| done]. by left.
  - apply Hfallback; [| done]. intros path [= <-]. done.
Qed.

End WorkflowContracts.

(** ** The theorems at concrete inputs *)

Module Scenarios.
Import World MetadataService MetadataFacts Examples.

(** C1, a counterexample to the claim as stated.  [save()] fails having
    written part of the file, the backup exists, and the move that should
    restore it is refused: the call raises, the backup is still on disk
    with the original bytes, and the target holds the torn file. *)
Lemma restore_refused_leaves_torn_target :
  let run := apply_metadata "song.mp3" fields disk_failing_restore in
  (∃ e, run.1 = Err e) ∧
  (backup_original "song.mp3"
     (validate_mp3_file "song.mp3" disk_failing_restore).2).1 = Ok backup_path ∧
  files run.2 !! backup_path = Some song ∧
  files disk_failing_restore !! "song.mp3" = Some song ∧
  files run.2 !! "song.mp3" = Some torn ∧
  files run.2 !! "song.mp3" ≠ files disk_failing_restore !! "song.mp3".
Proof.
  vm_compute. split_and!; try reflexivity; [eauto | discriminate].
Qed.

(** C1, the amended statement at a run in which [save()] fails midway
    and the restore goes through. *)
Lemma rollback_restores_target_witness :
  let run := apply_metadata "song.mp3" fields disk_failing_save in
  let backed_up :=
    backup_original "song.mp3" (validate_mp3_file "song.mp3" disk_failing_save).2 in
  files run.2 !! "song.mp3" = files disk_failing_save !! "song.mp3" ∧
  files run.2 !! backup_path = None ∧
  (∃ events,
     trace run.2 = trace backed_up.2 ++ events ++ [Moved backup_path "song.mp3"]) ∧
  mutation_failed save_failure = true.
Proof.
  cbv zeta.
  apply (rollback_restores_target "song.mp3" fields disk_failing_save
           save_failure _ backup_path _); vm_compute; reflexivity.
Defined.


(** C3 at the run in which [save()] fails midway. *)
Lemma backup_precedes_write_witness :
  let run := apply_metadata "song.mp3" fields disk_failing_save in
  let w0 := (validate_mp3_file "song.mp3" disk_failing_save).2 in
  ∃ events,
    trace run.2 = trace disk_failing_save ++ events ∧
    (∀ q, Saved q ∈ events →
       q = "song.mp3" ∧
       ∃ backup_path w1 original copy rest,
         backup_original "song.mp3" w0 = (Ok backup_path, w1) ∧
         events = Copied "song.mp3" backup_path :: rest ∧
         files disk_failing_save !! "song.mp3" = Some original ∧
         files w1 !! "song.mp3" = Some original ∧
         files w1 !! backup_path = Some copy ∧
         length (raw copy) = length (raw original)) ∧
    (∀ e w1,
       backup_original "song.mp3" w0 = (Err e, w1) →
       (∃ e', run.1 = Err e') ∧
       (∀ q, Saved q ∉ events) ∧
       files run.2 !! "song.mp3" = files disk_failing_save !! "song.mp3").
Proof.
  cbv zeta.
  apply (backup_precedes_write "song.mp3" fields disk_failing_save).
  vm_compute; reflexivity.
Defined.

(** C4 on a disk with 2047 bytes free for a file of 1024 bytes. *)
Lemma insufficient_space_fails_before_copy_witness :
  ∃ e w',
    apply_metadata "song.mp3" fields cramped_disk = (Err e, w') ∧
    files w' = files cramped_disk ∧ trace w' = trace cramped_disk ∧
    ((validate_mp3_file "song.mp3" cramped_disk).1 = Ok true →
     DataModels.validate fields = [] →
     exn_class e = MetadataError ∧ backup_failed e = true).
Proof.
  apply (insufficient_space_fails_before_copy "song.mp3" fields cramped_disk song);
    vm_compute; reflexivity.
Defined.

(** C8, a counterexample to the claim as stated.  In one run [save()]
    fails and the restore goes through, in the other the restore is
    refused as well.  Both calls raise a [MetadataError] with the code
    [METADATA_ERROR] and the path of the file; the handler logs both at
    the same level and lets the user retry after neither.  The error of
    the second run is set apart by nothing but its message. *)
Lemma restore_failure_shares_classification :
  let ordinary := (apply_metadata "song.mp3" fields disk_failing_save).1 in
  let critical := (apply_metadata "song.mp3" fields disk_failing_restore).1 in
  ∃ e e',
    ordinary = Err e ∧ critical = Err e' ∧
    mutation_failed e = true ∧ restore_failed e' = true ∧
    exn_class e' = exn_class e ∧
    exn_error_code e' = exn_error_code e ∧
    exn_file_path e' = exn_file_path e ∧
    ErrorHandler.log_level e' = ErrorHandler.log_level e ∧
    ErrorHandler.is_recoverable_error e' = ErrorHandler.is_recoverable_error e.
Proof. vm_compute. eexists _, _. by split_and!. Qed.

(** C8, the amended statement at the run in which [save()] fails midway
    and the restore is refused. *)
Lemma restore_failure_differs_by_message_only_witness :
  let run := apply_metadata "song.mp3" fields disk_failing_restore in
  ∃ e restore_error,
    let critical :=
      mkMetadataError (critical_message e restore_error) (Some "song.mp3") in
    run.1 = Err critical ∧
    last (error_history run.2) = Some (critical, "apply_metadata") ∧
    exn_message critical =
      "Critical error: Failed to restore backup after metadata failure. Original error: "
        +:+ str e +:+ ", Restore error: " +:+ str restore_error ∧
    files run.2 !! backup_path = files disk_failing_restore !! "song.mp3" ∧
    ∀ e',
      let ordinary :=
        mkMetadataError (failure_message "song.mp3" e') (Some "song.mp3") in
      exn_message critical ≠ exn_message ordinary ∧
      exn_class critical = exn_class ordinary ∧
      exn_error_code critical = exn_error_code ordinary ∧
      exn_file_path critical = exn_file_path ordinary ∧
      ErrorHandler.log_level critical = ErrorHandler.log_level ordinary ∧
      ErrorHandler.is_recoverable_error critical =
        ErrorHandler.is_recoverable_error ordinary.
Proof.
  cbv zeta.
  apply (restore_failure_differs_by_message_only "song.mp3" fields
           disk_failing_restore _ _
           [Copied "song.mp3" backup_path; Saved "song.mp3";
            Moved backup_path "song.mp3"] backup_path).
  - vm_compute; reflexivity.
  - vm_compute; reflexivity.
  - vm_compute; reflexivity.
  - vm_compute. eexists. reflexivity.
Defined.

(** C10 at a path that is not on disk and at a path without the [.mp3]
    extension. *)
Lemma validate_mp3_file_total_witness :
  (validate_mp3_file "missing.mp3" disk).1 = Ok false ∧
  (validate_mp3_file "song.txt" disk).1 = Ok false.
Proof.
  split.
  - apply (proj1 (proj2 (validate_mp3_file_total "missing.mp3" disk))).
    reflexivity.
  - apply (proj1 (proj2 (proj2 (validate_mp3_file_total "song.txt" disk)))).
    reflexivity.
Defined.

(** C5 at the scenario of the specification: the file appears empty, has
    grown to 4000 bytes two seconds later and stops changing; it is judged
    stable at the poll made five seconds after the first, three seconds
    after the growth stopped. *)
Lemma stabilisation_witness :
  DownloadMonitor.wait_for_completion 30 "song.mp3" true growing_file [] =
  DownloadMonitor.mkWaited true 5 [].
Proof.
  apply (proj1 (proj2 (MonitorFacts.stabilisation 30 "song.mp3" growing_file []))
           2%nat 4000).
  - lia.
  - lia.
  - intros i _. eexists. reflexivity.
  - intros i a b Hi Ha Hb. unfold growing_file in Ha, Hb. simpl in Ha, Hb.
    inversion Ha. inversion Hb. lia.
  - intros i Hi. unfold growing_file. simpl. f_equal. lia.
  - eexists. split; reflexivity.
Defined.



(** C7, the amended statement at the folder that is readable and not
    writable. *)
Lemma write_probe_at_construction_witness :
  ∃ m',
    DownloadMonitor.start_monitoring readonly_host watcher = (Ok true, m') ∧
    DownloadMonitor.monitoring m' = true ∧
    DownloadMonitor.observer m' =
      Some (DownloadMonitor.mkObserver (Some (DownloadMonitor.downloads_path watcher)) true).
Proof.
  apply (proj2 (proj2 (proj2 (MonitorFacts.write_probe_at_construction readonly_host))
                  watcher eq_refl)
           (DownloadMonitor.mkDir true true false)); reflexivity.
Defined.

(** *** The contracts at concrete inputs *)

(** X1 at a concrete input.  [read_metadata] on a path that is not on disk. *)
Lemma read_metadata_reads_only_witness :
  let run := read_metadata "missing.mp3" disk in
  files run.2 = files disk ∧ trace run.2 = trace disk ∧
  match run.1 with
  | Ok metadata =>
      ∃ fd a, files disk !! "missing.mp3" = Some fd ∧ media fd = Ok a ∧
              metadata_of_tags (tags a) = Ok metadata
  | Err e =>
      exn_class e = MetadataError ∧ exn_file_path e = Some "missing.mp3" ∧
      last (error_history run.2) = Some (e, "read_metadata")
  end.
Proof.
  cbv zeta.
  apply (MetadataContracts.read_metadata_reads_only "missing.mp3" disk).
  vm_compute; reflexivity.
Defined.

(** X2 at a concrete input.  The tags of the song with a picture frame that cannot be printed,
    under the key [APIC]. *)
Lemma unreadable_frame_skipped_or_fatal_witness :
  ("APIC" ∉ user_keys →
   metadata_of_tags (Some (<["APIC" := unreadable_frame]> song_tags)) =
     metadata_of_tags (Some (delete "APIC" song_tags)) ∧
   ∀ metadata,
     metadata_of_tags (Some (<["APIC" := unreadable_frame]> song_tags)) = Ok metadata →
     metadata !! "APIC" = None) ∧
  ("APIC" ∈ user_keys →
   ∃ e', metadata_of_tags (Some (<["APIC" := unreadable_frame]> song_tags)) = Err e').
Proof.
  apply (MetadataContracts.unreadable_frame_skipped_or_fatal song_tags "APIC"
           unreadable_frame (builtin OtherException "unsupported picture type")).
  reflexivity.
Defined.


(** X4 at a concrete input.  [apply_metadata] with an artist that is a
    no-break space and an empty title. *)
Lemma invalid_fields_rejected_before_backup_witness :
  ∃ e w',
    apply_metadata "song.mp3" blank_artist disk = (Err e, w') ∧
    files w' = files disk ∧ trace w' = trace disk ∧
    exn_class e = MetadataError ∧
    last (error_history w') = Some (e, "apply_metadata") ∧
    ((validate_mp3_file "song.mp3" disk).1 = Ok true →
     exn_message e =
       "Invalid metadata: Artist cannot be empty., Title cannot be empty.").
Proof.
  apply (MetadataContracts.invalid_fields_rejected_before_backup "song.mp3"
           blank_artist disk).
  vm_compute. discriminate.
Defined.

(** X5 at a concrete input.  A successful [apply_metadata] on the song. *)
Lemma apply_metadata_success_leaves_no_backup_witness :
  let run := apply_metadata "song.mp3" fields disk in
  let backup_path := backup_path_of "song.mp3" (clock disk) in
  true = true ∧
  trace run.2 = trace disk ++ [Copied "song.mp3" backup_path; Saved "song.mp3";
                               Removed backup_path] ∧
  files run.2 !! backup_path = None ∧
  (∃ saved, files run.2 !! "song.mp3" = Some saved ∧
            (1024 ≤ length (raw saved))%nat) ∧
  (∀ q, q ≠ "song.mp3" → q ≠ backup_path → files run.2 !! q = files disk !! q).
Proof.
  cbv zeta.
  apply (MetadataContracts.apply_metadata_success_leaves_no_backup "song.mp3"
           fields disk true).
  vm_compute; reflexivity.
Defined.

(** X6 at a concrete input.  The run in which [save()] fails midway: the failure is reported. *)
Lemma apply_metadata_failure_is_reported_witness :
  let run := apply_metadata "song.mp3" fields disk_failing_save in
  exn_class save_failure = MetadataError ∧
  exn_error_code save_failure = Some "METADATA_ERROR" ∧
  exn_file_path save_failure = Some "song.mp3" ∧
  last (error_history run.2) = Some (save_failure, "apply_metadata") ∧
  (∀ q, q ≠ "song.mp3" → q ≠ backup_path_of "song.mp3" (clock disk_failing_save) →
        files run.2 !! q = files disk_failing_save !! q).
Proof.
  cbv zeta.
  apply (MetadataContracts.apply_metadata_failure_is_reported "song.mp3" fields
           disk_failing_save).
  vm_compute; reflexivity.
Defined.

(** X7 at a concrete input.  What is read back after the successful call on the song. *)
Lemma apply_metadata_writes_to_id3_dict_witness :
  let run := apply_metadata "song.mp3" fields disk in
  ∃ before,
    (read_metadata "song.mp3" (with_plan [] disk)).1 = Ok before ∧
    (read_metadata "song.mp3" (with_plan [] run.2)).1 =
      Ok (DataModels.to_id3_dict fields ∪ before).
Proof.
  cbv zeta.
  apply (MetadataContracts.apply_metadata_writes_to_id3_dict "song.mp3" fields
           disk _ true).
  vm_compute; reflexivity.
Defined.

(** X8 at a concrete input.  A second file is announced to the monitor that waits for the song. *)
Lemma on_mp3_detected_no_duplicates_witness :
  let m' := DownloadMonitor._on_mp3_detected 5 "/Users/u/Downloads/other.mp3"
              waiting_monitor in
  NoDup (DownloadMonitor.path <$> DownloadMonitor.detected_files m') ∧
  "/Users/u/Downloads/other.mp3"
    ∈ DownloadMonitor.path <$> DownloadMonitor.detected_files m' ∧
  (DownloadMonitor.detected_files waiting_monitor)
    `prefix_of` (DownloadMonitor.detected_files m') ∧
  (∀ file_info,
     file_info ∈ DownloadMonitor.detected_files m' →
     file_info ∉ DownloadMonitor.detected_files waiting_monitor →
     file_info = DownloadMonitor.mkFileInfo "/Users/u/Downloads/other.mp3" 5 false) ∧
  (∀ later,
     DownloadMonitor._on_mp3_detected later "/Users/u/Downloads/other.mp3" m' = m').
Proof.
  cbv zeta.
  apply (MonitorContracts.on_mp3_detected_no_duplicates 5
           "/Users/u/Downloads/other.mp3" waiting_monitor).
  apply (bool_decide_unpack _). vm_compute. exact I.
Defined.

(** X11 at a concrete input.  The monitor built on the writable folder, started, told of two files,
    one of them twice, and stopped. *)
Lemma monitor_invariant_witness :
  let m' :=
    foldl DownloadMonitor.call watcher
      [DownloadMonitor.CallStart writable_host;
       DownloadMonitor.CallDetected 0 song_path;
       DownloadMonitor.CallDetected 1 "/Users/u/Downloads/other.mp3";
       DownloadMonitor.CallDetected 2 song_path;
       DownloadMonitor.CallStop DownloadMonitor.Stops] in
  NoDup (DownloadMonitor.path <$> DownloadMonitor.detected_files m') ∧
  (DownloadMonitor.monitoring m' = true →
   is_Some (DownloadMonitor.observer m') ∧ DownloadMonitor.event_handler m' = true) ∧
  DownloadMonitor.downloads_path m' = DownloadMonitor.downloads_path watcher ∧
  DownloadMonitor.completion_timeout m' = 30%nat.
Proof.
  cbv zeta.
  apply (MonitorContracts.monitor_invariant writable_host
           (DownloadMonitor.init writable_host).2 watcher).
  vm_compute; reflexivity.
Defined.

(** X12 at a concrete input.  Start and stop on the monitor built on the writable folder. *)
Lemma stop_monitoring_undoes_start_witness :
  let m1 := (DownloadMonitor.start_monitoring writable_host watcher).2 in
  true = true ∧ DownloadMonitor.monitoring m1 = true ∧
  DownloadMonitor.stop_monitoring DownloadMonitor.Stops m1 = (true, watcher) ∧
  ∀ outcome, DownloadMonitor.stop_monitoring outcome watcher = (true, watcher).
Proof.
  cbv zeta.
  apply (MonitorContracts.stop_monitoring_undoes_start writable_host watcher _ true);
    reflexivity.
Defined.

(** X14 at a concrete input.  The recent files of the folder, twenty minutes into the hour, over
    the last ten minutes. *)
Lemma get_recent_mp3_files_newest_first_witness :
  let recent := ["/Users/u/Downloads/second.MP3"; "/Users/u/Downloads/first.mp3"] in
  StronglySorted
    (λ p q, ∃ kp kq,
       DownloadMonitor.getctime recent_folder p = Ok kp ∧
       DownloadMonitor.getctime recent_folder q = Ok kq ∧ (kq ≤ kp)%Z) recent ∧
  (∀ p, p ∈ recent → ∃ k, DownloadMonitor.getctime recent_folder p = Ok k) ∧
  (∀ p, p ∈ recent ↔
     ∃ names file_name creation_time,
       DownloadMonitor.listdir recent_folder = Ok names ∧ file_name ∈ names ∧
       Py.endswith (Py.lower file_name) ".mp3" = true ∧
       p = DownloadMonitor.os_path_join (DownloadMonitor.downloads_path watcher)
             file_name ∧
       DownloadMonitor.stat_ctime recent_folder p = Ok creation_time ∧
       1200000000 - 10 * 60000000 < creation_time) ∧
  (∀ e, DownloadMonitor.listdir recent_folder = Err e → recent = []).
Proof.
  cbv zeta.
  apply (MonitorContracts.get_recent_mp3_files_newest_first recent_folder
           1200000000 10 watcher).
  vm_compute; reflexivity.
Defined.

(** X15 at a concrete input.  The result for the song, present, and no message: a valid success. *)
Lemma create_download_result_consistent_witness :
  let present := λ p, String.eqb p song_path in
  let r := DownloadMonitor.create_download_result present 0 (Some song_path) None in
  (DataModels.success r = true ↔ ∃ p, Some song_path = Some p ∧ present p = true) ∧
  (DataModels.success r = true →
   DataModels.file_path r = Some song_path ∧ DataModels.error_message r = None) ∧
  (DataModels.success r = false →
   DataModels.file_path r = None ∧ DataModels.error_message r = None) ∧
  (DataModels.DownloadResult_validate r = [] ↔
   DataModels.success r = true ∨ DataModels.given None = true).
Proof.
  cbv zeta.
  apply (MonitorContracts.create_download_result_consistent
           (λ p, String.eqb p song_path) 0 (Some song_path) None).
  reflexivity.
Defined.

(** X16 at a concrete input.  The file that grows for two seconds and then keeps its size. *)
Lemma wait_for_completion_true_only_if_stable_witness :
  let w := DownloadMonitor.wait_for_completion 30 "song.mp3" true growing_file [] in
  true = true ∧
  (3 ≤ DownloadMonitor.slept w < 30)%nat ∧
  (∃ n, 0 < n ∧
        ∀ i, (DownloadMonitor.slept w - 3 ≤ i ≤ DownloadMonitor.slept w)%nat →
             DownloadMonitor.poll_size (growing_file i) = DownloadMonitor.SizeIs n) ∧
  (∃ header,
     DownloadMonitor.poll_header (growing_file (DownloadMonitor.slept w))
       = DownloadMonitor.HeaderIs header ∧
     DownloadMonitor.header_accepted header = true) ∧
  DownloadMonitor.history w = [].
Proof.
  cbv zeta.
  apply (MonitorContracts.wait_for_completion_true_only_if_stable 30 "song.mp3" true
           growing_file []).
  vm_compute; reflexivity.
Defined.

(** X18 at a concrete input.  The song the monitor waits for is returned once it
    has kept its size for three seconds. *)
Lemma detect_new_mp3_returns_completed_file_witness :
  DownloadMonitor.monitoring waiting_monitor = true ∧
  (song_path ∈ DownloadMonitor.path <$> DownloadMonitor.detected_files waiting_monitor ∨
   ∃ j, song_path ∈ DownloadMonitor.arrivals steady_folder j) ∧
  (∃ file_info,
     file_info ∈ DownloadMonitor.detected_files monitor_after_detection ∧
     DownloadMonitor.path file_info = song_path ∧
     DownloadMonitor.completed file_info = true) ∧
  ∃ t m0,
    (0 ≤ t)%Z ∧
    DownloadMonitor.completion_timeout m0 =
      DownloadMonitor.completion_timeout waiting_monitor ∧
    DownloadMonitor.stable (DownloadMonitor.wait_at steady_folder t song_path m0) = true ∧
    5000 = t + 1000 * Z.of_nat
                 (DownloadMonitor.slept (DownloadMonitor.wait_at steady_folder t song_path m0)) ∧
    DownloadMonitor.error_history monitor_after_detection =
      DownloadMonitor.history (DownloadMonitor.wait_at steady_folder t song_path m0).
Proof.
  apply (MonitorContracts.detect_new_mp3_returns_completed_file 5 steady_folder 0 60
           waiting_monitor song_path monitor_after_detection 5000).
  vm_compute; reflexivity.
Defined.

(** X21 at a concrete input.  A worker whose monitoring stage ends on a
    result without success: the workflow returns without a message and
    without applying the metadata. *)
Lemma worker_runs_to_completion_witness :
  let c' :=
    MainController.run
      [MainController.Step 0 None; MainController.Step 0 None;
       MainController.Step 0 (Some []); MainController.Step 0 None;
       MainController.Step 0 None] one_request in
  MainController.is_processing
    (MainController.run [MainController.Step 0 None] one_request) = true ∧
  MainController.workers c' =
    <[0%nat := MainController.Finished]> (MainController.workers one_request) ∧
  MainController.is_processing c' = false ∧
  MainController.current_operation c' = None ∧
  MainController.remote_triggers c' = S (MainController.remote_triggers one_request) ∧
  MainController.detector_starts c' = S (MainController.detector_starts one_request) ∧
  MainController.metadata_applications c' =
    MainController.metadata_applications one_request ∧
  MainController.gui_errors c' = MainController.gui_errors one_request ++ [].
Proof.
  cbv zeta.
  apply (ControllerContracts.worker_runs_to_completion one_request 0
           None (Some []) None None None).
  reflexivity.
Defined.

(** X22 at a concrete input.  The metadata stage with an artist that is a
    no-break space and an empty title: the service is not called. *)
Lemma metadata_stage_outcomes_witness :
  let r := Workflow._execute_metadata_application "song.mp3" blank_input
             quiet_console disk in
  r.1.1 = false ∧
  (DataModels.validate blank_artist ≠ [] ∧ r.2 = disk ∧
   Workflow.shown r.1.2 =
     Workflow.shown quiet_console ++
       ["Invalid metadata: Artist cannot be empty., Title cannot be empty."] ∨
   DataModels.validate blank_artist = [] ∧
   ∃ e, apply_metadata "song.mp3" blank_artist disk = (Err e, r.2) ∧
        Workflow.shown r.1.2 =
          Workflow.shown quiet_console ++ ["Metadata error: " +:+ exn_message e]).
Proof.
  cbv zeta. split; [reflexivity |].
  apply (proj2 (proj2 (WorkflowContracts.metadata_stage_outcomes "song.mp3"
                         blank_input quiet_console disk))).
  reflexivity.
Defined.

(** X23 at a concrete input.  The monitoring stage on the folder in which
    the song appears. *)
Lemma download_monitoring_stage_stops_monitor_witness :
  (DownloadMonitor.Stops = DownloadMonitor.Stops →
   DownloadMonitor.monitoring monitor_after_stage = false) ∧
  quiet_console = quiet_console ∧
  ∃ m1 m2 detected file_path,
    DownloadMonitor.start_monitoring writable_host watcher = (Ok true, m1) ∧
    DownloadMonitor.detect_new_mp3 5 steady_folder 0 300 m1
      = Some (Ok detected, m2, 5500) ∧
    monitor_after_stage = (DownloadMonitor.stop_monitoring DownloadMonitor.Stops m2).2 ∧
    (detected = Some file_path ∧ truthy file_path = true ∨
     (∀ path, detected = Some path → truthy path = false) ∧
     ∃ older,
       DownloadMonitor.get_recent_mp3_files recent_folder (1000 * 5500) 10 m2
         = Ok (file_path :: older)) ∧
    song_result = DownloadMonitor.create_download_result
                    (DownloadMonitor.exists_at steady_folder 5500) (1000 * 5500)
                    (Some file_path) None ∧
    DataModels.success song_result = DownloadMonitor.exists_at steady_folder 5500 file_path ∧
    DataModels.file_path song_result =
      (if DownloadMonitor.exists_at steady_folder 5500 file_path
       then Some file_path else None) ∧
    DataModels.error_message song_result = None.
Proof.
  apply (WorkflowContracts.download_monitoring_stage_stops_monitor 300
           writable_host steady_folder recent_folder DownloadMonitor.Stops 5 0
           quiet_console watcher (Some song_result)
           quiet_console monitor_after_stage 5500).
  - vm_compute; reflexivity.
  - discriminate.
Defined.

End Scenarios.
